(** * haselREC: input parsing, the selection driver and accelerogram scaling

    A shallow embedding of [read_input_data], [selection_module] and
    [scale_acc] (haselrec/*.py), with the properties of their control flow,
    error behaviour and data flow.

    Python values are modelled as the code uses them: the parsed input file is
    a dictionary from strings to strings ([gmap string string]); exceptions
    are an explicit error type; the collaborators imported by the driver
    (the seven pipeline stages, the plotting and output writers, the
    accelerogram readers) are parameters of the model, since their code is
    not part of these files. *)

From Stdlib Require Import ZArith Ascii String List Lia Bool.
From Stdlib Require QArith.
From stdpp Require Import gmap strings list fin_maps pretty.

Local Open Scope Z_scope.
Local Open Scope string_scope.
Local Open Scope list_scope.

Set Warnings "-register-all".

(** ** Exceptions and the error monad *)

(** The exceptions the code can end with. [SystemExit] carries the message
    handed to [sys.exit]; [Raised] stands for an exception raised inside a
    collaborator (the error kinds of the pipeline stages). *)
Inductive exn : Type :=
| SystemExit (msg : string)
| KeyError (key : string)
| ValueError (text : string)
| IndexError
| TypeError
| Raised (kind : string).

Inductive result (A : Type) : Type :=
| Ok (a : A)
| Err (e : exn).
Arguments Ok {A} a.
Arguments Err {A} e.

Definition rbind {A B} (r : result A) (k : A -> result B) : result B :=
  match r with
  | Ok a => k a
  | Err e => Err e
  end.

Declare Scope res_scope.
Delimit Scope res_scope with res.
Notation "x <- c ;; k" := (rbind c (fun x => k))
  (at level 100, c at next level, right associativity) : res_scope.

(** [for x in xs: ys.append(f x)], stopping at the first exception. *)
Fixpoint rmap {A B} (f : A -> result B) (xs : list A) : result (list B) :=
  match xs with
  | [] => Ok []
  | x :: xs' =>
      match f x with
      | Ok y =>
          match rmap f xs' with
          | Ok ys => Ok (y :: ys)
          | Err e => Err e
          end
      | Err e => Err e
      end
  end.

Definition is_ok {A} (r : result A) : bool :=
  match r with Ok _ => true | Err _ => false end.

(** ** Python string operations *)

Module PyStr.

(** [str.isspace] on the characters below code point 128. *)
Definition is_space (c : ascii) : bool :=
  match c with
  | "009" | "010" | "011" | "012" | "013"
  | "028" | "029" | "030" | "031" | " " => true
  | _ => false
  end%char.

Fixpoint mem (c : ascii) (chars : string) : bool :=
  match chars with
  | EmptyString => false
  | String d chars' => if Ascii.eqb c d then true else mem c chars'
  end.

Fixpoint lstrip_by (p : ascii -> bool) (s : string) : string :=
  match s with
  | EmptyString => EmptyString
  | String c s' => if p c then lstrip_by p s' else s
  end.

Fixpoint rstrip_by (p : ascii -> bool) (s : string) : string :=
  match s with
  | EmptyString => EmptyString
  | String c s' =>
      match rstrip_by p s' with
      | EmptyString => if p c then EmptyString else String c EmptyString
      | r => String c r
      end
  end.

(** [s.strip()] *)
Definition strip (s : string) : string :=
  rstrip_by is_space (lstrip_by is_space s).

(** [s.strip(chars)] *)
Definition strip_chars (chars s : string) : string :=
  rstrip_by (fun c => mem c chars) (lstrip_by (fun c => mem c chars) s).

(** [s.split(sep)] for a one-character separator: never empty. *)
Fixpoint split (sep : ascii) (s : string) : list string :=
  match s with
  | EmptyString => [EmptyString]
  | String c s' =>
      if Ascii.eqb c sep then EmptyString :: split sep s'
      else match split sep s' with
           | h :: t => String c h :: t
           | [] => [String c EmptyString]
           end
  end.

(** [s.split(sep, 1)] when [s.find(sep) >= 0]; [None] when [sep] does not
    occur in [s]. *)
Fixpoint split1 (sep : ascii) (s : string) : option (string * string) :=
  match s with
  | EmptyString => None
  | String c s' =>
      if Ascii.eqb c sep then Some (EmptyString, s')
      else match split1 sep s' with
           | Some (k, v) => Some (String c k, v)
           | None => None
           end
  end.

(** [s[0:n]] *)
Definition prefix (n : nat) (s : string) : string := String.substring 0 n s.

(** [[x.strip() for x in s.strip(brackets).split(',')]] *)
Definition items (brackets s : string) : list string :=
  map strip (split ","%char (strip_chars brackets s)).

End PyStr.

(** ** The input dictionary *)

(** One turn of the [while line:] loop of [read_input_data]: a line holding
    an [=] binds the stripped text before the first [=] to the stripped
    text after it, overwriting an earlier binding of the same key. *)
Definition read_line (input : gmap string string) (line : string)
  : gmap string string :=
  match PyStr.split1 "="%char (PyStr.strip line) with
  | Some (key, value) => <[PyStr.strip key := PyStr.strip value]> input
  | None => input
  end.

(** The file is given as the list of its lines, in order. *)
Definition read_dict (fileini : list string) : gmap string string :=
  fold_left read_line fileini ∅.

(** [input[key]] *)
Definition getitem (input : gmap string string) (key : string) : result string :=
  match input !! key with
  | Some v => Ok v
  | None => Err (KeyError key)
  end.

(** ** Numbers

    [int(s)] and [float(s)] are Python built-ins: the model takes them, the
    float type and its product as an interface. [None] is a [ValueError]. *)
Class PyNum : Type := {
  F : Type;
  fzero : F;
  fmul : F -> F -> F;
  py_float : string -> option F;
  py_int : string -> option Z
}.

Section Conversions.
Context `{PyNum}.

Definition to_float (s : string) : result F :=
  match py_float s with
  | Some x => Ok x
  | None => Err (ValueError s)
  end.

Definition to_int (s : string) : result Z :=
  match py_int s with
  | Some n => Ok n
  | None => Err (ValueError s)
  end.

(** [np.array(xs, dtype=float)] and [np.array(xs, dtype=int)] on a list of
    strings. *)
Definition float_array (xs : list string) : result (list F) := rmap to_float xs.
Definition int_array (xs : list string) : result (list Z) := rmap to_int xs.

(** [try: x = f(input[key]) except KeyError: x = None], for an [f] that
    raises no [KeyError] of its own. *)
Definition optional {A} (input : gmap string string) (key : string)
    (f : string -> result A) : result (option A) :=
  match input !! key with
  | Some v => rbind (f v) (fun a => Ok (Some a))
  | None => Ok None
  end.
End Conversions.

(** A value that is either one float or an array of floats
    ([hasattr(x, '__len__')] tells them apart). *)
Inductive scalar_or_seq (A : Type) : Type :=
| Scalar (x : A)
| Seq (l : list A).
Arguments Scalar {A} x.
Arguments Seq {A} l.

(** ** [read_input_data] *)

(** The tuple returned by [read_input_data], field by field. *)
Set Implicit Arguments.
Record input_data (F : Type) : Type := {
  intensity_measures : list string;
  site_code : list Z;
  rlz_code : list Z;
  path_results_classical : string;
  path_results_disagg : string;
  num_disagg : Z;
  num_classical : Z;
  probability_of_exceedance_num : list Z;
  probability_of_exceedance : list string;
  investigation_time : F;
  target_periods : list F;
  tstar : list F;
  im_type : list string;
  im_type_lbl : list string;
  avg_periods : list F;
  corr_type : string;
  gmpe_input : string;
  rake : F;
  vs30_input : list string;
  vs30type : list string;
  hypo_depth : option F;
  dip : option F;
  azimuth : option F;
  fhw : option Z;
  z2pt5 : option (list string);
  z1pt0 : option (list string);
  upper_sd : option F;
  lower_sd : option F;
  database_path : string;
  allowed_database : list string;
  allowed_recs_vs30 : option (list F);
  allowed_ec8_code : option (list string);
  maxsf_input : scalar_or_seq F;
  radius_dist_input : scalar_or_seq F;
  radius_mag_input : scalar_or_seq F;
  allowed_depth : list F;
  n_gm : Z;
  random_seed : Z;
  n_trials : Z;
  weights : list F;
  n_loop : Z;
  penalty : F;
  path_nga_folder : string;
  path_esm_folder : string;
  output_folder : string
}.
Unset Implicit Arguments.

(** The variables the loop over [intensity_measures] (lines 231-254) updates. *)
Set Implicit Arguments.
Record im_vars (F : Type) : Type := {
  v_tstar : list F;
  v_im_type : list string;
  v_im_type_lbl : list string;
  v_avg_periods : list F
}.
Unset Implicit Arguments.

Section ReadInputData.
Context `{PyNum}.
Local Open Scope res_scope.

Definition unsupported_im (name : string) : string :=
  "Error: this intensity measure type " +:+ name +:+ " is not supported yet".

(** The body of the loop for index [i], [name] being
    [intensity_measures[i]]. *)
Definition im_step (input : gmap string string) (st : im_vars F) (i : nat)
    (name : string) : result (im_vars F) :=
  if String.eqb name "AvgSA" then
    v <- getitem input "avg_periods" ;;
    ap <- float_array (PyStr.items "[]" v) ;;
    Ok {| v_tstar := v_tstar st;
          v_im_type := v_im_type st ++ ["AvgSA"];
          v_im_type_lbl := v_im_type_lbl st ++ ["AvgSa"];
          v_avg_periods := ap |}
  else if String.eqb (PyStr.prefix 2 name) "SA" then
    x <- to_float (PyStr.strip_chars "(,),SA" name) ;;
    Ok {| v_tstar := <[i := x]> (v_tstar st);
          v_im_type := v_im_type st ++ ["SA"];
          v_im_type_lbl := v_im_type_lbl st ++ ["Sa(T)"];
          v_avg_periods := v_avg_periods st |}
  else if String.eqb (PyStr.prefix 3 name) "PGA" then
    Ok {| v_tstar := <[i := fzero]> (v_tstar st);
          v_im_type := v_im_type st ++ ["PGA"];
          v_im_type_lbl := v_im_type_lbl st ++ ["PGA"];
          v_avg_periods := v_avg_periods st |}
  else Err (SystemExit (unsupported_im name)).

(** [for i in np.arange(len(intensity_measures))], from index [i] on. *)
Fixpoint im_loop (input : gmap string string) (i : nat) (names : list string)
    (st : im_vars F) : result (im_vars F) :=
  match names with
  | [] => Ok st
  | name :: names' =>
      st' <- im_step input st i name ;;
      im_loop input (S i) names' st'
  end.

(** [tstar = np.zeros(len(intensity_measures))] and three empty lists. *)
Definition im_init (names : list string) : im_vars F :=
  {| v_tstar := replicate (length names) fzero;
     v_im_type := [];
     v_im_type_lbl := [];
     v_avg_periods := [] |}.

(** Lines 284-295: [azimuth] and [fhw]. *)
Definition read_azimuth_fhw (input : gmap string string)
  : result (option F * option Z) :=
  match input !! "azimuth" with
  | Some a =>
      x <- to_float a ;;
      Ok (Some x, None)
  | None =>
      match input !! "hanging_wall_flag" with
      | Some h =>
          n <- to_int h ;;
          if negb (n =? 1)%Z && negb (n =? -1)%Z
          then Err (SystemExit "Error: The hanging_wall_flag must be =1 or =-1")
          else Ok (None, Some n)
      | None =>
          Err (SystemExit
                 "Error: The azimuth or the hanging_wall_flag must be defined")
      end
  end.

(** An optional per-site list (lines 297-313). *)
Definition site_list (msg : string) (n : nat) (v : string)
  : result (list string) :=
  let l := PyStr.items "{}" v in
  if negb (length l =? n)%nat then Err (SystemExit msg) else Ok l.

(** Lines 351-383: a float, or an array with one entry per probability of
    exceedance. *)
Definition per_poe (input : gmap string string) (key msg : string) (n : nat)
  : result (scalar_or_seq F) :=
  v <- getitem input key ;;
  match py_float v with
  | Some x => Ok (Scalar x)
  | None =>
      l <- float_array (PyStr.items "{}" v) ;;
      if negb (n =? length l)%nat then Err (SystemExit msg) else Ok (Seq l)
  end.
End ReadInputData.

Section ReadInputDataMain.
Context `{PyNum}.
Local Open Scope res_scope.

Definition poe_size_msg : string :=
  "Error: probability_of_exceedance_num must be of the same size of probability_of_exceedance".

(** [if cond: sys.exit(msg)] *)
Definition exit_if (cond : bool) (msg : string) : result unit :=
  if cond then Err (SystemExit msg) else Ok tt.

(** The extraction of the parameters from the dictionary (lines 196-428),
    statement by statement. The warnings printed on the way are not part of
    the result and are left out. *)
Definition extract (input : gmap string string) : result (input_data F) :=
  (* Hazard parameters *)
  s_im <- getitem input "intensity_measures" ;;
  let intensity_measures := PyStr.items "{}" s_im in
  s_site <- getitem input "site_code" ;;
  site_code <- int_array (PyStr.items "{}" s_site) ;;
  s_rlz <- getitem input "rlz_code" ;;
  rlz_code <- int_array (PyStr.items "{}" s_rlz) ;;
  _ <- exit_if (negb (length rlz_code =? length site_code)%nat)
         "Error: rlz_code must be an array of the same length of site_code" ;;
  path_results_classical <- getitem input "path_results_classical" ;;
  path_results_disagg <- getitem input "path_results_disagg" ;;
  s_nd <- getitem input "num_disagg" ;;
  num_disagg <- to_int s_nd ;;
  s_nc <- getitem input "num_classical" ;;
  num_classical <- to_int s_nc ;;
  s_pn <- getitem input "probability_of_exceedance_num" ;;
  probability_of_exceedance_num <- int_array (PyStr.items "{}" s_pn) ;;
  s_poe <- getitem input "probability_of_exceedance" ;;
  let probability_of_exceedance := PyStr.items "{}" s_poe in
  _ <- exit_if (negb (length probability_of_exceedance_num
                      =? length probability_of_exceedance_num)%nat)
         poe_size_msg ;;
  s_it <- getitem input "investigation_time" ;;
  investigation_time <- to_float s_it ;;
  (* Conditional spectrum parameters *)
  s_tp <- getitem input "target_periods" ;;
  target_periods <- float_array (PyStr.items "[]" s_tp) ;;
  ims <- im_loop input 0 intensity_measures (im_init intensity_measures) ;;
  corr_type <- getitem input "corr_type" ;;
  gmpe_input <- getitem input "GMPE" ;;
  s_rake <- getitem input "rake" ;;
  rake <- to_float s_rake ;;
  s_vs30 <- getitem input "Vs30" ;;
  let vs30_input := PyStr.items "{}" s_vs30 in
  _ <- exit_if (negb (length vs30_input =? length site_code)%nat)
         "Error: Vs30 must be an array of the same length of site_code" ;;
  s_vt <- getitem input "vs30Type" ;;
  let vs30type := PyStr.items "{}" s_vt in
  _ <- exit_if (negb (length vs30type =? length site_code)%nat)
         "Error: vs30Type must be an array of the same length of site_code" ;;
  hypo_depth <- optional input "hypo_depth" to_float ;;
  dip <- optional input "dip" to_float ;;
  az <- read_azimuth_fhw input ;;
  z2pt5 <- optional input "z2pt5"
             (site_list "Error: z2pt5 must be an array of the same length of site_code"
                (length site_code)) ;;
  z1pt0 <- optional input "z1pt0"
             (site_list "Error: z1pt0 must be an array of the same length of site_code"
                (length site_code)) ;;
  upper_sd <- optional input "upper_sd" to_float ;;
  lower_sd <- optional input "lower_sd" to_float ;;
  (* Database parameters for screening recordings *)
  database_path <- getitem input "database_path" ;;
  s_db <- getitem input "allowed_database" ;;
  let allowed_database := PyStr.items "{}" s_db in
  allowed_recs_vs30 <- optional input "allowedRecs_Vs30"
                         (fun v => float_array (PyStr.items "[]" v)) ;;
  allowed_ec8_code <- optional input "allowedEC8code"
                        (fun v => Ok (PyStr.items "{}" v)) ;;
  maxsf_input <- per_poe input "maxsf"
                   "Error: maxsf must be of the same size of probability_of_exceedance"
                   (length probability_of_exceedance_num) ;;
  radius_dist_input <- per_poe input "radius_dist"
                   "Error: radius_dist must be of the same size of probability_of_exceedance"
                   (length probability_of_exceedance_num) ;;
  radius_mag_input <- per_poe input "radius_mag"
                   "Error: radius_mag must be of the same size of probability_of_exceedance"
                   (length probability_of_exceedance_num) ;;
  s_ad <- getitem input "allowed_depth" ;;
  allowed_depth <- float_array (PyStr.items "[]" s_ad) ;;
  (* Selection parameters *)
  s_ngm <- getitem input "nGM" ;;
  n_gm <- to_int s_ngm ;;
  s_seed <- getitem input "random_seed" ;;
  random_seed <- to_int s_seed ;;
  s_nt <- getitem input "nTrials" ;;
  n_trials <- to_int s_nt ;;
  s_w <- getitem input "weights" ;;
  weights <- float_array (PyStr.items "{}" s_w) ;;
  s_nl <- getitem input "nLoop" ;;
  n_loop <- to_int s_nl ;;
  s_pen <- getitem input "penalty" ;;
  penalty <- to_float s_pen ;;
  (* Accelerogram folders, output folder *)
  path_nga_folder <- getitem input "path_NGA_folder" ;;
  path_esm_folder <- getitem input "path_ESM_folder" ;;
  output_folder <- getitem input "output_folder" ;;
  Ok {| intensity_measures := intensity_measures;
        site_code := site_code;
        rlz_code := rlz_code;
        path_results_classical := path_results_classical;
        path_results_disagg := path_results_disagg;
        num_disagg := num_disagg;
        num_classical := num_classical;
        probability_of_exceedance_num := probability_of_exceedance_num;
        probability_of_exceedance := probability_of_exceedance;
        investigation_time := investigation_time;
        target_periods := target_periods;
        tstar := v_tstar ims;
        im_type := v_im_type ims;
        im_type_lbl := v_im_type_lbl ims;
        avg_periods := v_avg_periods ims;
        corr_type := corr_type;
        gmpe_input := gmpe_input;
        rake := rake;
        vs30_input := vs30_input;
        vs30type := vs30type;
        hypo_depth := hypo_depth;
        dip := dip;
        azimuth := fst az;
        fhw := snd az;
        z2pt5 := z2pt5;
        z1pt0 := z1pt0;
        upper_sd := upper_sd;
        lower_sd := lower_sd;
        database_path := database_path;
        allowed_database := allowed_database;
        allowed_recs_vs30 := allowed_recs_vs30;
        allowed_ec8_code := allowed_ec8_code;
        maxsf_input := maxsf_input;
        radius_dist_input := radius_dist_input;
        radius_mag_input := radius_mag_input;
        allowed_depth := allowed_depth;
        n_gm := n_gm;
        random_seed := random_seed;
        n_trials := n_trials;
        weights := weights;
        n_loop := n_loop;
        penalty := penalty;
        path_nga_folder := path_nga_folder;
        path_esm_folder := path_esm_folder;
        output_folder := output_folder |}.

Definition read_input_data (fileini : list string) : result (input_data F) :=
  extract (read_dict fileini).
End ReadInputDataMain.

(** ** Python values and collaborators of the driver *)

(** The values [selection_module] hands around. [PObj] is an object the
    driver never looks into (a GMPE context, a numpy array returned by a
    stage). *)
Inductive pyval (F Obj : Type) : Type :=
| PNone
| PInt (n : Z)
| PFloat (x : F)
| PStr (s : string)
| PList (l : list (pyval F Obj))
| PObj (o : Obj).
Arguments PNone {_ Obj}.
Arguments PInt {_ Obj} n.
Arguments PFloat {_ Obj} x.
Arguments PStr {_ Obj} s.
Arguments PList {_ Obj} l.
Arguments PObj {_ Obj} o.

(** The functions [selection_module] imports and calls. *)
Inductive callee : Type :=
| compute_conditioning_value
| inizialize_gmm
| screen_database
| compute_cs
| simulate_spectra
| find_ground_motion
| optimize_ground_motion
| os_makedirs
| plot_final_selection
| create_output_files.

Global Instance callee_eq_dec : EqDecision callee.
Proof. solve_decision. Defined.

(** The seven pipeline stages, in the order of the docstring of
    [selection_module]. *)
Definition pipeline : list callee :=
  [compute_conditioning_value; inizialize_gmm; screen_database; compute_cs;
   simulate_spectra; find_ground_motion; optimize_ground_motion].

Definition is_stage (c : callee) : bool := bool_decide (c ∈ pipeline).

(** What the driver needs from its environment: a state [W] behind the
    collaborators (files, the random number generator), what a call returns
    and how it changes that state, [os.path.exists], and subscripting and
    iteration of opaque objects. *)
Class Collaborators `{PyNum} : Type := {
  Obj : Type;
  W : Type;
  call_fn : callee -> list (pyval F Obj) -> W -> result (pyval F Obj) * W;
  path_exists : string -> W -> bool;
  obj_getitem : Obj -> pyval F Obj -> result (pyval F Obj);
  obj_iter : Obj -> result (list (pyval F Obj))
}.

(** What a run leaves behind, in order: the calls made, with their
    arguments, and the lines printed. *)
Inductive event (F Obj : Type) : Type :=
| Call (c : callee) (args : list (pyval F Obj))
| Print (line : string).
Arguments Call {_ Obj} c args.
Arguments Print {_ Obj} line.

(** The variables of [selection_module] that live across iterations of its
    loops: the case counter [ind] and [vs30], a parameter that line 114
    assigns to. *)
Set Implicit Arguments.
Record loop_vars (F Obj : Type) : Type := {
  lv_ind : Z;
  lv_vs30 : pyval F Obj
}.
Unset Implicit Arguments.

Section Driver.
Context `{Collaborators}.

Abbreviation val := (pyval F Obj).
Abbreviation world := (W * list (event F Obj))%type.

(** State and exceptions: a computation reads and updates the
    collaborators' state and the log, and ends with a value or an
    exception. *)
Definition M (A : Type) : Type := world -> result A * world.

Definition ret {A} (a : A) : M A := fun s => (Ok a, s).

Definition bind {A B} (m : M A) (k : A -> M B) : M B :=
  fun s =>
    match m s with
    | (Ok a, s') => k a s'
    | (Err e, s') => (Err e, s')
    end.

Definition lift {A} (r : result A) : M A := fun s => (r, s).

Definition print (line : string) : M unit :=
  fun s => (Ok tt, (fst s, snd s ++ [Print line])).

(** A call is logged with the values of its arguments, then run. *)
Definition call (c : callee) (args : list val) : M val :=
  fun s =>
    let (r, w') := call_fn c args (fst s) in
    (r, (w', snd s ++ [Call c args])).

Definition exists_path (p : string) : M bool :=
  fun s => (Ok (path_exists p (fst s)), s).

(** [for x in xs: vars = body(x, vars)] *)
Fixpoint for_in {A S} (xs : list A) (body : A -> S -> M S) (s : S) : M S :=
  match xs with
  | [] => ret s
  | x :: xs' => bind (body x s) (for_in xs' body)
  end.

(** [l[i]] for a list and an index from [np.arange]. *)
Definition index {A} (l : list A) (i : nat) : result A :=
  match l !! i with
  | Some x => Ok x
  | None => Err IndexError
  end.

(** [x[i]] for a value of unknown type. *)
Definition subscript (x i : val) : result val :=
  match x with
  | PList l =>
      match i with
      | PInt n =>
          if (0 <=? n)%Z then index l (Z.to_nat n)
          else if (0 <=? Z.of_nat (length l) + n)%Z
               then index l (Z.to_nat (Z.of_nat (length l) + n))
               else Err IndexError
      | _ => Err TypeError
      end
  | PObj o => obj_getitem o i
  | _ => Err TypeError
  end.

(** The items [for i in x] goes through. *)
Definition iterate (x : val) : result (list val) :=
  match x with
  | PList l => Ok l
  | PObj o => obj_iter o
  | _ => Err TypeError
  end.

(** [[a, b, ...] = x] with [n] names on the left. *)
Definition unpack (n : nat) (x : val) : result (list val) :=
  rbind (iterate x) (fun l =>
    if (length l =? n)%nat then Ok l
    else Err (ValueError "unpack")).

(** [maxsf_input[jj]] when it has a length, [maxsf_input] otherwise. *)
Definition select {A} (x : scalar_or_seq A) (jj : nat) : result A :=
  match x with
  | Scalar v => Ok v
  | Seq l => index l jj
  end.

Definition opt {A} (f : A -> val) (o : option A) : val :=
  match o with
  | Some a => f a
  | None => PNone
  end.

Definition strs (l : list string) : val := PList (map PStr l).
Definition floats (l : list F) : val := PList (map PFloat l).
End Driver.

Declare Scope drv_scope.
Delimit Scope drv_scope with drv.
Notation "x <- c ;; k" := (bind c (fun x => k))
  (at level 100, c at next level, right associativity) : drv_scope.

(** ** [selection_module] *)

Section SelectionModule.
Context `{Collaborators}.
Local Open Scope drv_scope.

Abbreviation val := (pyval F Obj).

(** [intensity_measures[im] + '-site_' + str(site) + '-poe-' + str(poe)] *)
Definition case_name (im_name : string) (site poe : Z) : string :=
  im_name +:+ "-site_" +:+ pretty site +:+ "-poe-" +:+ pretty poe.

(** [len(site_code) * len(probability_of_exceedance_num) *
    len(intensity_measures)] *)
Definition n_cases (d : input_data F) : nat :=
  (length (site_code d) * length (probability_of_exceedance_num d)
   * length (intensity_measures d))%nat.

(** [xs[k]] of the list a call returned and [unpack] checked. *)
Definition nth_val (xs : list val) (k : nat) : val := nth k xs PNone.

(** Lines 96-179: the body of the innermost loop, one Case. [ii], [jj] and
    [im] are the three loop indices; [site], [rlz], [poe], [maxsf],
    [radius_dist] and [radius_mag] were bound by the enclosing loops. *)
Definition case_body (d : input_data F) (ii jj im : nat) (site rlz poe : Z)
    (maxsf radius_dist radius_mag : F) (vars : loop_vars F Obj)
  : M (loop_vars F Obj) :=
  im_name <- lift (index (intensity_measures d) im) ;;
  let name := case_name im_name site poe in
  _ <- print ("Processing " +:+ name +:+ " Case: " +:+ pretty (lv_ind vars)
              +:+ "/" +:+ pretty (n_cases d)) ;;
  let ind := (lv_ind vars + 1)%Z in
  (* 1 *)
  poe_value <- lift (index (probability_of_exceedance d) jj) ;;
  r1 <- call compute_conditioning_value
          [PInt rlz; PStr im_name; PInt site; PInt poe;
           PInt (num_disagg d); PStr poe_value; PInt (num_classical d);
           PStr (path_results_disagg d); PFloat (investigation_time d);
           PStr (path_results_classical d)] ;;
  o1 <- lift (unpack 3 r1) ;;
  let im_star := nth_val o1 0 in
  let rjb := nth_val o1 1 in
  let mag := nth_val o1 2 in
  (* 2 *)
  r2 <- call inizialize_gmm
          [PInt (Z.of_nat ii); PStr (gmpe_input d); rjb; mag;
           opt PFloat (hypo_depth d); opt PFloat (dip d); PFloat (rake d);
           opt PFloat (upper_sd d); opt PFloat (lower_sd d);
           opt PFloat (azimuth d); opt PInt (fhw d); strs (vs30type d);
           lv_vs30 vars; opt strs (z2pt5 d); opt strs (z1pt0 d)] ;;
  o2 <- lift (unpack 6 r2) ;;
  let bgmpe := nth_val o2 0 in
  let sctx := nth_val o2 1 in
  let rctx := nth_val o2 2 in
  let dctx := nth_val o2 3 in
  let vs30 := nth_val o2 4 in
  let rrup := nth_val o2 5 in
  (* 3 *)
  r3 <- call screen_database
          [PStr (database_path d); strs (allowed_database d);
           opt floats (allowed_recs_vs30 d); PFloat radius_dist;
           PFloat radius_mag; rjb; mag; opt strs (allowed_ec8_code d);
           floats (target_periods d); PInt (n_gm d);
           floats (allowed_depth d); vs30] ;;
  o3 <- lift (unpack 14 r3) ;;
  let sa_known := nth_val o3 0 in
  let ind_per := nth_val o3 1 in
  let tgt_per := nth_val o3 2 in
  let n_big := nth_val o3 3 in
  let allowed_index := nth_val o3 4 in
  let event_id := nth_val o3 5 in
  let station_code := nth_val o3 6 in
  let source := nth_val o3 7 in
  let record_sequence_number_nga := nth_val o3 8 in
  let event_mw := nth_val o3 9 in
  let event_mag := nth_val o3 10 in
  let acc_distance := nth_val o3 11 in
  let station_vs30 := nth_val o3 12 in
  let station_ec8 := nth_val o3 13 in
  (* 4 *)
  im_type_im <- lift (index (im_type d) im) ;;
  tstar_im <- lift (index (tstar d) im) ;;
  r4 <- call compute_cs
          [tgt_per; bgmpe; sctx; rctx; dctx; PStr im_type_im;
           PFloat tstar_im; rrup; mag; floats (avg_periods d);
           PStr (corr_type d); im_star; PStr (gmpe_input d)] ;;
  o4 <- lift (unpack 3 r4) ;;
  let mean_req := nth_val o4 0 in
  let cov_req := nth_val o4 1 in
  let stdevs := nth_val o4 2 in
  (* 5 *)
  simulated_spectra <- call simulate_spectra
          [PInt (random_seed d); PInt (n_trials d); mean_req; cov_req;
           stdevs; PInt (n_gm d); floats (weights d)] ;;
  (* 6 *)
  r6 <- call find_ground_motion
          [tgt_per; PFloat tstar_im; floats (avg_periods d); PStr im_name;
           PInt (n_gm d); sa_known; ind_per; mean_req; n_big;
           simulated_spectra; PFloat maxsf] ;;
  o6 <- lift (unpack 6 r6) ;;
  let sample_small := nth_val o6 0 in
  let sample_big := nth_val o6 1 in
  let id_sel := nth_val o6 2 in
  let ln_sa1 := nth_val o6 3 in
  let rec_id := nth_val o6 4 in
  let im_scale_fac := nth_val o6 5 in
  (* 7 *)
  r7 <- call optimize_ground_motion
          [PInt (n_loop d); PInt (n_gm d); sample_small; n_big; id_sel;
           ln_sa1; PFloat maxsf; sample_big; tgt_per; mean_req; stdevs;
           floats (weights d); PFloat (penalty d); rec_id; im_scale_fac] ;;
  o7 <- lift (unpack 3 r7) ;;
  let final_records := nth_val o7 0 in
  let final_scale_factors := nth_val o7 1 in
  let sample_small := nth_val o7 2 in
  (* 8 *)
  let folder := output_folder d +:+ "/" +:+ name in
  found <- exists_path folder ;;
  _ <- (if found then ret PNone else call os_makedirs [PStr folder]) ;;
  im_lbl <- lift (index (im_type_lbl d) im) ;;
  _ <- call plot_final_selection
         [PStr name; PStr im_lbl; PInt (n_gm d); tgt_per; sample_small;
          mean_req; stdevs; PStr (output_folder d)] ;;
  recs <- lift (iterate final_records) ;;
  rec_idx <- lift (rmap (subscript allowed_index) recs) ;;
  rjb0 <- lift (subscript rjb (PInt 0)) ;;
  _ <- call create_output_files
         [PStr (output_folder d); PStr name; im_star; mag; rjb0;
          PInt (n_gm d); PList rec_idx; source; event_id; station_code;
          event_mw; acc_distance; station_vs30; station_ec8;
          final_scale_factors; tgt_per; mean_req; stdevs;
          record_sequence_number_nga; event_mag] ;;
  ret {| lv_ind := ind; lv_vs30 := vs30 |}.

(** Lines 76-94: one probability-of-exceedance level of one site. *)
Definition poe_body (d : input_data F) (ii : nat) (site rlz : Z) (jj : nat)
    (vars : loop_vars F Obj) : M (loop_vars F Obj) :=
  poe <- lift (index (probability_of_exceedance_num d) jj) ;;
  maxsf <- lift (select (maxsf_input d) jj) ;;
  radius_dist <- lift (select (radius_dist_input d) jj) ;;
  radius_mag <- lift (select (radius_mag_input d) jj) ;;
  for_in (seq 0 (length (intensity_measures d)))
    (fun im => case_body d ii jj im site rlz poe maxsf radius_dist radius_mag)
    vars.

(** Lines 69-76: one site. *)
Definition site_body (d : input_data F) (ii : nat) (vars : loop_vars F Obj)
  : M (loop_vars F Obj) :=
  site <- lift (index (site_code d) ii) ;;
  rlz <- lift (index (rlz_code d) ii) ;;
  for_in (seq 0 (length (probability_of_exceedance_num d)))
    (poe_body d ii site rlz) vars.

(** The function: its parameters are the members of [input_data] (all but
    the two accelerogram folders), [vs30] being bound to the [Vs30] list. *)
Definition selection_module (d : input_data F) : M unit :=
  _ <- print "Inputs loaded, starting selection...." ;;
  _ <- for_in (seq 0 (length (site_code d))) (site_body d)
         {| lv_ind := 1; lv_vs30 := strs (vs30_input d) |} ;;
  ret tt.

(** A run from a state of the collaborators, with an empty log; how it
    ends and the log it leaves. *)
Definition run (d : input_data F) (w : W) : result unit * (W * list (event F Obj)) :=
  selection_module d (w, []).

Definition run_result (d : input_data F) (w : W) : result unit :=
  fst (run d w).

Definition run_log (d : input_data F) (w : W) : list (event F Obj) :=
  snd (snd (run d w)).
End SelectionModule.

(** ** [scale_acc] *)

(** What [create_nga_acc] and [create_esm_acc] return: two time axes, two
    acceleration series and their numbers of points. *)
Set Implicit Arguments.
Record acc_data (F : Type) : Type := {
  time1 : list F;
  time2 : list F;
  inp_acc1 : list F;
  inp_acc2 : list F;
  npts1 : Z;
  npts2 : Z
}.
Unset Implicit Arguments.

(** The accelerogram readers, and [int] on an entry of the [recID_NGA]
    column. *)
Class AccReaders `{PyNum} : Type := {
  NgaId : Type;
  int_of_nga : NgaId -> result Z;
  create_nga_acc : Z -> string -> result (acc_data F);
  create_esm_acc : string -> string -> string -> nat -> result (acc_data F)
}.

(** The arguments of [scale_acc]. *)
Set Implicit Arguments.
Record scale_args (F NgaId : Type) : Type := {
  sa_n_gm : Z;
  sa_nga : list NgaId;
  sa_path_nga : string;
  sa_path_esm : string;
  sa_source : list string;
  sa_event : list string;
  sa_station : list string;
  sa_name : string;
  sa_output_folder : string;
  sa_sf : list F
}.
Unset Implicit Arguments.

(** What happens to the output files, in order: [open(path, "w")], and
    [f.write] of the line formatted from a time and an acceleration. *)
Inductive fevent (F : Type) : Type :=
| FOpen (path : string)
| FWrite (path : string) (t a : F).
Arguments FOpen {F} path.
Arguments FWrite {F} path t a.

Section ScaleAcc.
Context `{AccReaders}.
Local Open Scope res_scope.

(** Lines 43-58: the series of record [i], by its source. *)
Definition read_record (a : scale_args F NgaId) (i : nat) : result (acc_data F) :=
  src <- index (sa_source a) i ;;
  if String.eqb src "NGA-West2" then
    id <- index (sa_nga a) i ;;
    val <- int_of_nga id ;;
    create_nga_acc val (sa_path_nga a)
  else if String.eqb src "ESM" then
    ev <- index (sa_event a) i ;;
    st <- index (sa_station a) i ;;
    let folder_esm := sa_path_esm a +:+ "/" +:+ ev +:+ "-" +:+ st in
    create_esm_acc folder_esm ev st i
  else
    Ok {| time1 := []; time2 := []; inp_acc1 := []; inp_acc2 := [];
          npts1 := 0; npts2 := 0 |}.

(** Lines 61-66. *)
Definition out_name (a : scale_args F NgaId) (i : nat) (comp : string) : string :=
  sa_output_folder a +:+ "/" +:+ sa_name a +:+ "/GMR_time_scaled_acc_"
    +:+ pretty (i + 1)%nat +:+ "_" +:+ comp +:+ ".txt".

(** [for j in ...: f.write(fmt.format(time[j], inp_acc[j] * sf[i]))] *)
Fixpoint write_rows (path : string) (time acc sf : list F) (i : nat)
    (js : list nat) : result unit * list (fevent F) :=
  match js with
  | [] => (Ok tt, [])
  | j :: js' =>
      match (t <- index time j ;; x <- index acc j ;; s <- index sf i ;;
             Ok (t, fmul x s)) with
      | Ok (t, y) =>
          let (r, evs) := write_rows path time acc sf i js' in
          (r, FWrite path t y :: evs)
      | Err e => (Err e, [])
      end
  end.

(** Lines 68-71 and 72-75: one output file. *)
Definition write_file (path : string) (time acc sf : list F) (npts : Z)
    (i : nat) : result unit * list (fevent F) :=
  let (r, evs) := write_rows path time acc sf i (seq 0 (Z.to_nat npts)) in
  (r, FOpen path :: evs).

(** One turn of the loop of line 42. *)
Definition scale_record (a : scale_args F NgaId) (i : nat)
  : result unit * list (fevent F) :=
  match read_record a i with
  | Err e => (Err e, [])
  | Ok dat =>
      match write_file (out_name a i "1") (time1 dat) (inp_acc1 dat)
              (sa_sf a) (npts1 dat) i with
      | (Ok _, evs1) =>
          let (r, evs2) :=
            write_file (out_name a i "2") (time2 dat) (inp_acc2 dat)
              (sa_sf a) (npts2 dat) i in
          (r, evs1 ++ evs2)
      | (Err e, evs1) => (Err e, evs1)
      end
  end.

Fixpoint scale_loop (a : scale_args F NgaId) (is_ : list nat)
  : result unit * list (fevent F) :=
  match is_ with
  | [] => (Ok tt, [])
  | i :: is' =>
      match scale_record a i with
      | (Ok _, evs) =>
          let (r, evs') := scale_loop a is' in (r, evs ++ evs')
      | (Err e, evs) => (Err e, evs)
      end
  end.

Definition scale_acc (a : scale_args F NgaId) : result unit * list (fevent F) :=
  scale_loop a (seq 0 (Z.to_nat (sa_n_gm a))).

(** The lines a file of record [i] is to hold: the first [npts] times, each
    with its acceleration times [sf[i]]. *)
Definition scaled_rows (path : string) (time acc : list F) (npts : Z) (s : F)
  : list (fevent F) :=
  zip_with (fun t x => FWrite path t (fmul x s))
    (take (Z.to_nat npts) time) (take (Z.to_nat npts) acc).

(** The two files of record [i], whose series are [dat]: each is opened,
    then written line by line. *)
Definition record_files (a : scale_args F NgaId) (i : nat) (dat : acc_data F)
  : list (fevent F) :=
  let s := nth i (sa_sf a) fzero in
  (FOpen (out_name a i "1")
     :: scaled_rows (out_name a i "1") (time1 dat) (inp_acc1 dat) (npts1 dat) s)
  ++ (FOpen (out_name a i "2")
        :: scaled_rows (out_name a i "2") (time2 dat) (inp_acc2 dat)
             (npts2 dat) s).

Definition files_of (a : scale_args F NgaId) (i : nat) : list (fevent F) :=
  match read_record a i with
  | Ok dat => record_files a i dat
  | Err _ => []
  end.

(** Both files of record [i] hold all the points of their series. *)
Definition complete (a : scale_args F NgaId) (i : nat) : Prop :=
  exists dat,
    read_record a i = Ok dat
    /\ length (scaled_rows (out_name a i "1") (time1 dat) (inp_acc1 dat)
                 (npts1 dat) (nth i (sa_sf a) fzero))
       = Z.to_nat (npts1 dat)
    /\ length (scaled_rows (out_name a i "2") (time2 dat) (inp_acc2 dat)
                 (npts2 dat) (nth i (sa_sf a) fzero))
       = Z.to_nat (npts2 dat).

(** Record [i] can be read, its series are as long as their numbers of
    points say, and it has a scale factor. *)
Definition readable (a : scale_args F NgaId) (i : nat) : Prop :=
  exists dat,
    read_record a i = Ok dat
    /\ (Z.to_nat (npts1 dat) <= length (time1 dat))%nat
    /\ (Z.to_nat (npts1 dat) <= length (inp_acc1 dat))%nat
    /\ (Z.to_nat (npts2 dat) <= length (time2 dat))%nat
    /\ (Z.to_nat (npts2 dat) <= length (inp_acc2 dat))%nat
    /\ (i < length (sa_sf a))%nat.
End ScaleAcc.

(** ** A decimal reading of numbers, for the examples

    [decimal] instantiates the number interface with the rationals:
    [int] and [float] read an optional sign followed by decimal digits, with
    one optional point for [float], after stripping white space. On the
    literals of the examples below it agrees with Python up to the rounding
    of [float]. *)
Module Decimal.

Definition digit (c : ascii) : option Z :=
  match Ascii.is_nat c with
  | Some n => Some (Z.of_nat n)
  | None => None
  end.

Fixpoint digits (s : string) (acc : Z) : option Z :=
  match s with
  | EmptyString => Some acc
  | String c s' =>
      match digit c with
      | Some d => digits s' (acc * 10 + d)
      | None => None
      end
  end.

Definition unsigned (s : string) : option Z :=
  match s with
  | EmptyString => None
  | _ => digits s 0
  end.

Definition signed {A} (neg : A -> A) (f : string -> option A) (s : string)
  : option A :=
  match s with
  | String "-"%char s' => neg <$> f s'
  | String "+"%char s' => f s'
  | _ => f s
  end.

Definition int (s : string) : option Z :=
  signed Z.opp unsigned (PyStr.strip s).

Definition ufloat (s : string) : option QArith_base.Q :=
  match PyStr.split1 "."%char s with
  | None => (fun n => QArith_base.Qmake n 1) <$> unsigned s
  | Some (ip, fp) =>
      match ip, fp with
      | EmptyString, EmptyString => None
      | _, _ =>
          (fun n => Qreduction.Qred
                      (QArith_base.Qmake n (Z.to_pos (10 ^ Z.of_nat (String.length fp)))))
            <$> digits (ip +:+ fp) 0
      end
  end.

Definition float (s : string) : option QArith_base.Q :=
  signed QArith_base.Qopp ufloat (PyStr.strip s).

Definition mul (x y : QArith_base.Q) : QArith_base.Q :=
  Qreduction.Qred (QArith_base.Qmult x y).

End Decimal.

Definition decimal : PyNum :=
  {| F := QArith_base.Q;
     fzero := QArith_base.Qmake 0 1;
     fmul := Decimal.mul;
     py_float := Decimal.float;
     py_int := Decimal.int |}.

(** ** The collaborators as the specification describes them *)

Section SpecCollaborators.
Context `{PyNum}.
Variable O : Type.
Variable Rng : Type.
(** [np.random.seed(random_seed)] *)
Variable reseed : pyval F O -> Rng.
(** the sampling of the spectra from a generator, which it advances *)
Variable draw : Rng -> list (pyval F O) -> result (pyval F O) * Rng.
(** the other collaborators, functions of their arguments *)
Variable stage : callee -> list (pyval F O) -> result (pyval F O).
Variable getitem_fn : O -> pyval F O -> result (pyval F O).
Variable iter_fn : O -> result (list (pyval F O)).

(** Modelled from the spec: the pipeline stages and the output writers,
    whose code is not in these files. Every stage is a pure transformation
    of the outputs of earlier stages (section 2), but for
    [simulate_spectra], which draws its samples from a generator seeded
    by [random_seed], its first argument (section 4.5). The state behind
    the collaborators is that generator and the set of folders that
    exist, which [os.makedirs] extends. *)
Definition spec_call (c : callee) (args : list (pyval F O))
    (w : Rng * gset string) : result (pyval F O) * (Rng * gset string) :=
  match c with
  | simulate_spectra =>
      match args with
      | seed :: rest =>
          let (r, g) := draw (reseed seed) rest in (r, (g, snd w))
      | [] => (Err TypeError, w)
      end
  | os_makedirs =>
      match args with
      | [PStr p] => (Ok PNone, (fst w, {[p]} ∪ snd w))
      | _ => (Err TypeError, w)
      end
  | _ => (stage c args, w)
  end.

Definition spec_collaborators : Collaborators :=
  {| Obj := O;
     W := Rng * gset string;
     call_fn := spec_call;
     path_exists := fun p w => bool_decide (p ∈ snd w);
     obj_getitem := getitem_fn;
     obj_iter := iter_fn |}.
End SpecCollaborators.

(** ** [scaling_module] *)

(** The columns of a summary file that [scaling_module] hands to
    [scale_acc]; a column the file does not have is [None]. *)
Set Implicit Arguments.
Record summary (F NgaId : Type) : Type := {
  recID_NGA : option (list NgaId);
  source : option (list string);
  event_id_esm : option (list string);
  station_code_esm : option (list string);
  scale_factor : option (list F)
}.
Unset Implicit Arguments.

(** [summary.column] *)
Definition getattr {A} (column : option A) : result A :=
  match column with
  | Some x => Ok x
  | None => Err (Raised "AttributeError")
  end.

(** What [scaling_module] calls: [pd.read_csv(path, sep=' ', skiprows=3)]
    and the [scale_acc] of [lib.scale_acc]. Both may depend on the files
    there are, and change them. *)
Class ScalingCollaborators `{AccReaders} : Type := {
  Files : Type;
  read_csv : string -> Files -> result (summary F NgaId) * Files;
  lib_scale_acc : scale_args F NgaId -> Files -> result unit * Files
}.

(** The calls of the two, in order. *)
Inductive sevent (F NgaId : Type) : Type :=
| SRead (path : string)
| SScale (a : scale_args F NgaId).
Arguments SRead {F NgaId} path.
Arguments SScale {F NgaId} a.

Section ScalingModule.
Context `{ScalingCollaborators}.
Local Open Scope res_scope.

Abbreviation sstate := (Files * list (sevent F NgaId))%type.

(** [for x in xs: body(x)], up to the first exception. *)
Fixpoint sfor {A} (xs : list A) (body : A -> sstate -> result unit * sstate)
    (s : sstate) : result unit * sstate :=
  match xs with
  | [] => (Ok tt, s)
  | x :: xs' =>
      match body x s with
      | (Ok _, s') => sfor xs' body s'
      | (Err e, s') => (Err e, s')
      end
  end.

(** Lines 31-32. *)
Definition summary_path (output_folder name : string) : string :=
  output_folder +:+ "/" +:+ name +:+ "/" +:+ name +:+ "_summary_selection.txt".

(** Lines 35-38: the arguments of the call, evaluated from left to
    right. *)
Definition scale_call (sm : summary F NgaId) (output_folder : string)
    (n_gm : Z) (path_nga_folder path_esm_folder : string) (name : string)
  : result (scale_args F NgaId) :=
  nga <- getattr (recID_NGA sm) ;;
  src <- getattr (source sm) ;;
  ev <- getattr (event_id_esm sm) ;;
  st <- getattr (station_code_esm sm) ;;
  sf <- getattr (scale_factor sm) ;;
  Ok {| sa_n_gm := n_gm;
        sa_nga := nga;
        sa_path_nga := path_nga_folder;
        sa_path_esm := path_esm_folder;
        sa_source := src;
        sa_event := ev;
        sa_station := st;
        sa_name := name;
        sa_output_folder := output_folder;
        sa_sf := sf |}.

(** Lines 31-38: one Case, on from its name. *)
Definition scaling_case (output_folder : string) (n_gm : Z)
    (path_nga_folder path_esm_folder : string) (name : string) (s : sstate)
  : result unit * sstate :=
  let name_summary := summary_path output_folder name in
  let (r, files1) := read_csv name_summary (fst s) in
  let log1 := snd s ++ [SRead name_summary] in
  match r with
  | Err e => (Err e, (files1, log1))
  | Ok sm =>
      match scale_call sm output_folder n_gm path_nga_folder
              path_esm_folder name with
      | Err e => (Err e, (files1, log1))
      | Ok a =>
          let (r2, files2) := lib_scale_acc a files1 in
          (r2, (files2, log1 ++ [SScale a]))
      end
  end.

Definition scaling_module (site_code probability_of_exceedance_num : list Z)
    (intensity_measures : list string) (output_folder : string) (n_gm : Z)
    (path_nga_folder path_esm_folder : string) (s : sstate)
  : result unit * sstate :=
  sfor (seq 0 (length site_code)) (fun ii s =>
    match index site_code ii with
    | Err e => (Err e, s)
    | Ok site =>
        sfor (seq 0 (length probability_of_exceedance_num)) (fun jj s =>
          match index probability_of_exceedance_num jj with
          | Err e => (Err e, s)
          | Ok poe =>
              sfor (seq 0 (length intensity_measures)) (fun im s =>
                match index intensity_measures im with
                | Err e => (Err e, s)
                | Ok im_name =>
                    scaling_case output_folder n_gm path_nga_folder
                      path_esm_folder (case_name im_name site poe) s
                end) s
          end) s
    end) s.

(** What a call shows: the path handed to [read_csv], or the name and the
    output folder handed to [scale_acc], with [n_gm] and the two folders
    of accelerograms. *)
Definition obs_call (e : sevent F NgaId)
  : list (string + string * string * Z * string * string) :=
  match e with
  | SRead path => [inl path]
  | SScale a =>
      [inr (sa_name a, sa_output_folder a, sa_n_gm a, sa_path_nga a,
            sa_path_esm a)]
  end.

(** [emits obs m expected]: from any state, what [m] adds to the calls is
    seen by [obs] as a prefix of [expected], and as all of [expected] when
    [m] ends without an exception. *)
Definition emits {X} (obs : sevent F NgaId -> list X)
    (m : sstate -> result unit * sstate) (expected : list X) : Prop :=
  forall s, exists new,
    snd (snd (m s)) = snd s ++ new
    /\ flat_map obs new `prefix_of` expected
    /\ (is_ok (fst (m s)) = true -> flat_map obs new = expected).
End ScalingModule.

(** ** Vocabulary of the statements *)

(** [avoids msg r]: [r] is not the exit with message [msg]. *)
Definition avoids {A} (msg : string) (r : result A) : Prop :=
  r <> Err (SystemExit msg).

(** What [f] reads off the value of a computation that ended well. *)
Definition ok_with {A B} (f : A -> B) (r : result A) : option B :=
  match r with
  | Ok a => Some (f a)
  | Err _ => None
  end.

(** The three kinds of intensity measure of lines 237-251: [accepted input
    name kind t] when [name] is taken as a measure of type [kind] with
    conditioning period [t]. *)
Inductive accepted `{PyNum} (input : gmap string string) (name : string)
  : string -> F -> Prop :=
| accepted_avgsa :
    name = "AvgSA" -> is_Some (input !! "avg_periods") ->
    accepted input name "AvgSA" fzero
| accepted_sa x :
    PyStr.prefix 2 name = "SA" ->
    py_float (PyStr.strip_chars "(,),SA" name) = Some x ->
    accepted input name "SA" x
| accepted_pga :
    PyStr.prefix 3 name = "PGA" ->
    accepted input name "PGA" fzero.

(** ** Runs that differ in the state of the generator *)

Section SameButRng.
Context `{PyNum}.
Variable O : Type.
Variable Rng : Type.
Variable reseed : pyval F O -> Rng.
Variable draw : Rng -> list (pyval F O) -> result (pyval F O) * Rng.
Variable stage : callee -> list (pyval F O) -> result (pyval F O).
Variable getitem_fn : O -> pyval F O -> result (pyval F O).
Variable iter_fn : O -> result (list (pyval F O)).

Abbreviation spec_world := ((Rng * gset string) * list (event F O))%type.

(** Two states with the same folders and the same log, whatever the
    states of the generator. *)
Definition same_but_rng (s1 s2 : spec_world) : Prop :=
  snd (fst s1) = snd (fst s2) /\ snd s1 = snd s2.

(** [m] ends alike, and leaves the same folders and log, from any two
    such states. *)
Definition stable {A}
    (m : @M _ (spec_collaborators O Rng reseed draw stage getitem_fn iter_fn) A)
  : Prop :=
  forall s1 s2, same_but_rng s1 s2 ->
    fst (m s1) = fst (m s2) /\ same_but_rng (snd (m s1)) (snd (m s2)).
End SameButRng.

(** ** Observations of a run *)

Section Observations.
Context `{Collaborators}.

(** What an observation [obs] of single events sees of a log. *)
Definition observe {X} (obs : event F Obj -> list X)
    (log : list (event F Obj)) : list X :=
  flat_map obs log.

(** [produces obs m expected]: from any state, what [m] adds to the log is
    seen by [obs] as a prefix of [expected], and as all of [expected] when
    [m] ends without an exception. *)
Definition produces {X A} (obs : event F Obj -> list X) (m : M A)
    (expected : list X) : Prop :=
  forall s, exists new,
    snd (snd (m s)) = snd s ++ new
    /\ observe obs new `prefix_of` expected
    /\ (is_ok (fst (m s)) = true -> observe obs new = expected).

(** The pipeline stages called. *)
Definition obs_stage (e : event F Obj) : list callee :=
  match e with
  | Call c _ => if is_stage c then [c] else []
  | Print _ => []
  end.

(** The collaborators called, [os.makedirs] apart (it is called only for
    a folder that does not exist yet). *)
Definition obs_callee (e : event F Obj) : list callee :=
  match e with
  | Call os_makedirs _ => []
  | Call c _ => [c]
  | Print _ => []
  end.

(** The site, the probability-of-exceedance number and the intensity
    measure [compute_conditioning_value] is called for. *)
Definition obs_case (e : event F Obj) : list (Z * Z * string) :=
  match e with
  | Call compute_conditioning_value (_ :: PStr m :: PInt s :: PInt p :: _) =>
      [(s, p, m)]
  | _ => []
  end.

(** The seed handed to [simulate_spectra]. *)
Definition obs_seed (e : event F Obj) : list (pyval F Obj) :=
  match e with
  | Call simulate_spectra args => [nth 0 args PNone]
  | _ => []
  end.

(** The values of [radius_dist] and [radius_mag] handed to
    [screen_database], and of [maxsf] handed to [find_ground_motion] and
    to [optimize_ground_motion]. *)
Definition obs_per_poe (e : event F Obj) : list (pyval F Obj) :=
  match e with
  | Call screen_database args => [nth 3 args PNone; nth 4 args PNone]
  | Call find_ground_motion args => [nth 10 args PNone]
  | Call optimize_ground_motion args => [nth 6 args PNone]
  | _ => []
  end.

(** The value of [vs30] handed to [screen_database]. *)
Definition obs_screen_vs30 (e : event F Obj) : list (pyval F Obj) :=
  match e with
  | Call screen_database args => [nth 11 args PNone]
  | _ => []
  end.

(** The value of [vs30] handed to [inizialize_gmm]. *)
Definition obs_vs30 (e : event F Obj) : list (pyval F Obj) :=
  match e with
  | Call inizialize_gmm args => [nth 12 args PNone]
  | _ => []
  end.

(** The value a per-level parameter takes at level [jj]. *)
Definition applied (x : scalar_or_seq F) (jj : nat) : F :=
  match x with
  | Scalar v => v
  | Seq l => nth jj l fzero
  end.

(** A sequence has one entry per probability-of-exceedance level. *)
Definition fits {A} (n : nat) (x : scalar_or_seq A) : Prop :=
  match x with
  | Scalar _ => True
  | Seq l => length l = n
  end.

(** What [obs_per_poe] is to see of a Case at level [jj]. *)
Definition per_poe_values (d : input_data F) (jj : nat) : list (pyval F Obj) :=
  [PFloat (applied (radius_dist_input d) jj);
   PFloat (applied (radius_mag_input d) jj);
   PFloat (applied (maxsf_input d) jj);
   PFloat (applied (maxsf_input d) jj)].

(** The triples of loop indices, in the order of the three nested loops. *)
Definition case_indices (d : input_data F) : list (nat * nat * nat) :=
  flat_map (fun ii =>
    flat_map (fun jj =>
      map (fun im => (ii, jj, im))
        (seq 0 (length (intensity_measures d))))
      (seq 0 (length (probability_of_exceedance_num d))))
    (seq 0 (length (site_code d))).

(** The (site, level, measure) combinations, sites outermost. *)
Definition combinations (d : input_data F) : list (Z * Z * string) :=
  flat_map (fun s =>
    flat_map (fun p => map (fun m => (s, p, m)) (intensity_measures d))
      (probability_of_exceedance_num d))
    (site_code d).

(** A sequence has an entry for every probability-of-exceedance level. *)
Definition covers {A} (n : nat) (x : scalar_or_seq A) : Prop :=
  match x with
  | Scalar _ => True
  | Seq l => (n <= length l)%nat
  end.

(** The lists cover the loops: the lookups the driver makes between two
    Cases ([rlz_code[ii]], the per-level parameters) find their entries. *)
Definition drives (d : input_data F) : Prop :=
  (length (site_code d) <= length (rlz_code d))%nat
  /\ covers (length (probability_of_exceedance_num d)) (maxsf_input d)
  /\ covers (length (probability_of_exceedance_num d)) (radius_dist_input d)
  /\ covers (length (probability_of_exceedance_num d)) (radius_mag_input d).

(** [reaches d w ii jj im site rlz poe maxsf radius_dist radius_mag vars s]:
    the run of [selection_module] from [w] gets to the Case with the
    indices [ii], [jj], [im], the variables of the loops being bound as
    given. The sites before [ii], then the levels before [jj] of this
    site, then the measures before [im] of this level have ended well,
    and left the variables [vars] in the state [s]. *)
Definition reaches (d : input_data F) (w : W) (ii jj im : nat)
    (site rlz poe : Z) (maxsf radius_dist radius_mag : F)
    (vars : loop_vars F Obj) (s : W * list (event F Obj)) : Prop :=
  index (site_code d) ii = Ok site
  /\ index (rlz_code d) ii = Ok rlz
  /\ index (probability_of_exceedance_num d) jj = Ok poe
  /\ select (maxsf_input d) jj = Ok maxsf
  /\ select (radius_dist_input d) jj = Ok radius_dist
  /\ select (radius_mag_input d) jj = Ok radius_mag
  /\ (im < length (intensity_measures d))%nat
  /\ exists v0 s0 v1 s1,
       for_in (seq 0 ii) (site_body d)
         {| lv_ind := 1; lv_vs30 := strs (vs30_input d) |}
         (w, [Print "Inputs loaded, starting selection...."])
       = (Ok v0, s0)
       /\ for_in (seq 0 jj) (poe_body d ii site rlz) v0 s0 = (Ok v1, s1)
       /\ for_in (seq 0 im)
            (fun im' => case_body d ii jj im' site rlz poe maxsf radius_dist
                          radius_mag) v1 s1
          = (Ok vars, s).

(** The calls of a Case, [os.makedirs] apart. *)
Definition case_calls_in_order : list callee :=
  pipeline ++ [plot_final_selection; create_output_files].

(** The members of [l] up to and including the first [c]. *)
Fixpoint upto (c : callee) (l : list callee) : list callee :=
  match l with
  | [] => []
  | x :: l' => if decide (x = c) then [x] else x :: upto c l'
  end.

(** [halts obs m expected]: from any state [m] ends with an exception,
    and what it has added to the log by then is seen by [obs] as a prefix
    of [expected]. *)
Definition halts {X A} (obs : event F Obj -> list X) (m : M A)
    (expected : list X) : Prop :=
  forall s, exists new,
    snd (snd (m s)) = snd s ++ new
    /\ is_ok (fst (m s)) = false
    /\ observe obs new `prefix_of` expected.

(** [stopped obs m expected]: from any state, [obs] sees of what [m] adds
    to the log a prefix of [expected], and nothing at all when [m] ends
    well. *)
Definition stopped {X A} (obs : event F Obj -> list X) (m : M A)
    (expected : list X) : Prop :=
  forall s, exists new,
    snd (snd (m s)) = snd s ++ new
    /\ observe obs new `prefix_of` expected
    /\ (is_ok (fst (m s)) = true -> observe obs new = []).
End Observations.

(** ** Vocabulary of the further statements *)

(** What a line of the input file binds: the stripped texts before and
    after its first [=]. *)
Definition binding (line : string) : option (string * string) :=
  match PyStr.split1 "="%char (PyStr.strip line) with
  | Some (key, value) => Some (PyStr.strip key, PyStr.strip value)
  | None => None
  end.

(** [line] does not bind [key]. *)
Definition leaves (key : string) (line : string) : Prop :=
  fst <$> binding line <> Some key.

(** The keys [read_input_data] reads with [input[key]] where no handler
    catches the [KeyError] of a missing key. *)
Definition required_keys : list string :=
  ["intensity_measures"; "site_code"; "rlz_code"; "path_results_classical";
   "path_results_disagg"; "num_disagg"; "num_classical";
   "probability_of_exceedance_num"; "probability_of_exceedance";
   "investigation_time"; "target_periods"; "corr_type"; "GMPE"; "rake";
   "Vs30"; "vs30Type"; "database_path"; "allowed_database"; "maxsf";
   "radius_dist"; "radius_mag"; "allowed_depth"; "nGM"; "random_seed";
   "nTrials"; "weights"; "nLoop"; "penalty"; "path_NGA_folder";
   "path_ESM_folder"; "output_folder"].

(** The keys it reads under [except KeyError] or in a branch. *)
Definition optional_keys : list string :=
  ["avg_periods"; "hypo_depth"; "dip"; "azimuth"; "hanging_wall_flag";
   "z2pt5"; "z1pt0"; "upper_sd"; "lower_sd"; "allowedRecs_Vs30";
   "allowedEC8code"].

(** Two dictionaries that hold the same for every key that is read. *)
Definition agree (m1 m2 : gmap string string) : Prop :=
  Forall (fun key => m1 !! key = m2 !! key) (required_keys ++ optional_keys).

(** The (site, level, measure) triples of three lists, sites outermost. *)
Definition product3 (sites poes : list Z) (ims : list string)
  : list (Z * Z * string) :=
  flat_map (fun s => flat_map (fun p => map (fun m => (s, p, m)) ims) poes)
    sites.

(** The names of the Cases of three lists, in the order of the loops. *)
Definition case_names (sites poes : list Z) (ims : list string) : list string :=
  map (fun c => case_name c.2 c.1.1 c.1.2) (product3 sites poes ims).

(** The two calls [scaling_module] makes for the Case of a name. *)
Definition case_calls (output_folder : string) (n_gm : Z)
    (path_nga_folder path_esm_folder : string) (name : string)
  : list (string + string * string * Z * string * string) :=
  [inl (summary_path output_folder name);
   inr (name, output_folder, n_gm, path_nga_folder, path_esm_folder)].

(** The paths opened, in order. *)
Definition opened {F} (evs : list (fevent F)) : list string :=
  flat_map (fun e => match e with FOpen p => [p] | FWrite _ _ _ => [] end) evs.

(** The names of the output files of the first [n] records. *)
Definition file_names `{AccReaders} (a : scale_args F NgaId) (n : nat)
  : list string :=
  flat_map (fun i => [out_name a i "1"; out_name a i "2"]) (seq 0 n).

(** The loop that writes [npts] lines of record [i] finds all it indexes:
    it has nothing to write, or both series have [npts] entries and [sf]
    has an entry [i]. *)
Definition writable {F} (time acc sf : list F) (npts : Z) (i : nat) : Prop :=
  Z.to_nat npts = 0%nat
  \/ ((Z.to_nat npts <= length time)%nat /\ (Z.to_nat npts <= length acc)%nat
      /\ (i < length sf)%nat).

(** Record [i] can be read and both its files can be written. *)
Definition scalable `{AccReaders} (a : scale_args F NgaId) (i : nat) : Prop :=
  exists dat,
    read_record a i = Ok dat
    /\ writable (time1 dat) (inp_acc1 dat) (sa_sf a) (npts1 dat) i
    /\ writable (time2 dat) (inp_acc2 dat) (sa_sf a) (npts2 dat) i.

(** [c] does not occur in [s]. *)
Fixpoint free_of (c : ascii) (s : string) : Prop :=
  match s with
  | EmptyString => True
  | String x s' => x <> c /\ free_of c s'
  end.

Section FurtherObservations.
Context `{Collaborators}.

(** The output folder and the name handed to [create_output_files]. *)
Definition obs_output (e : event F Obj) : list (pyval F Obj * pyval F Obj) :=
  match e with
  | Call create_output_files args => [(nth 0 args PNone, nth 1 args PNone)]
  | _ => []
  end.

(** The name and the output folder handed to [plot_final_selection]. *)
Definition obs_plot (e : event F Obj) : list (pyval F Obj * pyval F Obj) :=
  match e with
  | Call plot_final_selection args => [(nth 7 args PNone, nth 0 args PNone)]
  | _ => []
  end.

(** The output folder and the name of a combination, as a call receives
    them. *)
Definition handed (d : input_data F) (c : Z * Z * string)
  : pyval F Obj * pyval F Obj :=
  (PStr (output_folder d), PStr (case_name c.2 c.1.1 c.1.2)).

(** The lines printed. *)
Definition obs_print (e : event F Obj) : list string :=
  match e with
  | Print line => [line]
  | Call _ _ => []
  end.

(** The line printed when a Case begins. *)
Definition progress_line (d : input_data F) (name : string) (ind : Z) : string :=
  "Processing " +:+ name +:+ " Case: " +:+ pretty ind +:+ "/"
    +:+ pretty (n_cases d).

(** The lines of the Cases [cs] when the counter [ind] is [k] at the first
    of them. *)
Definition numbered (d : input_data F) (k : Z) (cs : list (Z * Z * string))
  : list string :=
  imap (fun i c =>
          progress_line d (case_name c.2 c.1.1 c.1.2) (k + Z.of_nat i)) cs.

(** [counted d m k cs]: from any state, [m] prints a prefix of the lines of
    [cs] numbered from [k]; when it ends without an exception it has
    printed them all and leaves the counter at [k + len(cs)]. *)
Definition counted (d : input_data F) (m : M (loop_vars F Obj)) (k : Z)
    (cs : list (Z * Z * string)) : Prop :=
  forall s, exists new,
    snd (snd (m s)) = snd s ++ new
    /\ observe obs_print new `prefix_of` numbered d k cs
    /\ (forall v', fst (m s) = Ok v' ->
        observe obs_print new = numbered d k cs
        /\ lv_ind v' = (k + Z.of_nat (length cs))%Z).
End FurtherObservations.

(** ** An example input and stand-ins for the collaborators *)

Module Demo.

(** The example of the docstring of [read_input_data]. *)
Definition example_ini : list string :=
  [ "[general]";
    "description = Selection for Italy - AvgSA";
    "";
    "[hazard parameters]";
    "intensity_measures={AvgSA}";
    "site_code={0,1,2,3,4,5}";
    "rlz_code={0,0,0,0,0,0}";
    "probability_of_exceedance_num={2}";
    "probability_of_exceedance={0.1}";
    "path_results_classical=output_classical_AvgSA";
    "path_results_disagg=output_disagg_AvgSA";
    "num_disagg=107";
    "num_classical=108";
    "investigation_time=50";
    "";
    "[conditional spectrum parameters]";
    "target_periods=[0.01,0.1,0.2,0.3,0.4,0.5,0.6,0.7,0.75,0.8,0.9,1,2,3,4]";
    "corr_type=akkar";
    "GMPE=AkkarBommer2010";
    "avg_periods=[0.2,0.3,0.4,0.5,0.75,1.0]";
    "rake=0.";
    "Vs30={300,300,300,600,600,600}";
    "vs30Type={inferred,inferred,inferred,inferred,inferred,inferred}";
    "azimuth=50";
    "hypo_depth=10";
    "";
    "[database parameters for screening recordings]";
    "database_path=../OpenInsel/GM-Records-Database/database_flatfile.csv";
    "allowed_database={ESM,NGA-West2}";
    "allowed_depth=[0,30]";
    "radius_dist={50}";
    "radius_mag={0.50}";
    "maxsf={3.0}";
    "";
    "[selection parameters]";
    "nGM=30";
    "nTrials = 10";
    "weights={0.6,0.3,0.1}";
    "nLoop=10";
    "penalty=10";
    "random_seed=333";
    "";
    "[accelerogram folders]";
    "path_NGA_folder=/rec/NGA2records";
    "path_ESM_folder=/rec/ESM";
    "";
    "[output folder]";
    "output_folder=output_acc_AvgSA" ].

(** The example with some lines added at its end; a later line for a key
    replaces an earlier one. *)
Definition example_with (lines : list string) : list string :=
  example_ini ++ lines.

(** Whether a line binds [key] in the dictionary. *)
Definition binds (key line : string) : bool :=
  match PyStr.split1 "="%char (PyStr.strip line) with
  | Some (k, _) => String.eqb (PyStr.strip k) key
  | None => false
  end.

(** The example without the lines for [key]. *)
Definition example_without (key : string) : list string :=
  List.filter (fun line => negb (binds key line)) example_ini.

(** Inputs of the statements below. *)
Definition two_levels_one_probability : list string :=
  example_with ["probability_of_exceedance_num={2,3}"; "radius_dist=50";
                "radius_mag=0.5"; "maxsf=3.0"; "site_code={0}";
                "rlz_code={0}"; "Vs30={300}"; "vs30Type={inferred}"].
Definition flag_only : list string :=
  example_without "azimuth" ++ ["hanging_wall_flag=-1"; "dip = 45"].
Definition flag_zero : list string :=
  example_without "azimuth" ++ ["hanging_wall_flag=0"].
Definition sa_only : list string :=
  example_with ["intensity_measures={SA(0.5),PGA}"].
Definition unknown_site_first : list string :=
  example_with ["site_code={7,0}"; "rlz_code={0,0}"; "Vs30={300,300}";
                "vs30Type={inferred,inferred}"].
Definition known_site_alone : list string :=
  example_with ["site_code={0}"; "rlz_code={0}"; "Vs30={300}";
                "vs30Type={inferred}"].
Definition two_maxsf : list string := example_with ["maxsf={3.0,4.0}"].
Definition scalar_maxsf : list string :=
  example_with ["maxsf=2.5"; "probability_of_exceedance_num={2,3}";
                "probability_of_exceedance={0.1,0.02}";
                "radius_dist={50,60}"; "radius_mag={0.5,0.25}";
                "site_code={0}"; "rlz_code={0}"; "Vs30={300}";
                "vs30Type={inferred}"].
Definition both_flags : list string := example_with ["hanging_wall_flag=1"].
Definition no_azimuth : list string := example_without "azimuth".
Definition three_measures : list string :=
  example_with ["intensity_measures={AvgSA,SA(0.5),PGA}"].
Definition unknown_measure : list string :=
  example_with ["intensity_measures={PGV}"].

(** The parameters [read_input_data] extracts from [fileini]; [None]
    when it ends with an exception. *)
Definition parameters (fileini : list string) : option (input_data QArith_base.Q) :=
  ok_with (fun d => d) (@read_input_data decimal fileini).

Definition blank : input_data QArith_base.Q :=
  let z := QArith_base.Qmake 0 1 in
  {| intensity_measures := []; site_code := []; rlz_code := [];
     path_results_classical := ""; path_results_disagg := "";
     num_disagg := 0; num_classical := 0;
     probability_of_exceedance_num := [];
     probability_of_exceedance := []; investigation_time := z;
     target_periods := []; tstar := []; im_type := []; im_type_lbl := [];
     avg_periods := []; corr_type := ""; gmpe_input := ""; rake := z;
     vs30_input := []; vs30type := []; hypo_depth := None; dip := None;
     azimuth := None; fhw := None; z2pt5 := None; z1pt0 := None;
     upper_sd := None; lower_sd := None; database_path := "";
     allowed_database := []; allowed_recs_vs30 := None;
     allowed_ec8_code := None; maxsf_input := Scalar z;
     radius_dist_input := Scalar z; radius_mag_input := Scalar z;
     allowed_depth := []; n_gm := 0; random_seed := 0; n_trials := 0;
     weights := []; n_loop := 0; penalty := z; path_nga_folder := "";
     path_esm_folder := ""; output_folder := "" |}.

(** The parameters read from two of the inputs, evaluated. *)
Definition example_data : input_data QArith_base.Q :=
  Eval vm_compute in default blank (parameters example_ini).
Definition three_measures_data : input_data QArith_base.Q :=
  Eval vm_compute in default blank (parameters three_measures).
Definition scalar_maxsf_data : input_data QArith_base.Q :=
  Eval vm_compute in default blank (parameters scalar_maxsf).
Definition two_levels_one_probability_data : input_data QArith_base.Q :=
  Eval vm_compute in default blank (parameters two_levels_one_probability).
Definition flag_only_data : input_data QArith_base.Q :=
  Eval vm_compute in default blank (parameters flag_only).
Definition sa_only_data : input_data QArith_base.Q :=
  Eval vm_compute in default blank (parameters sa_only).
Definition unknown_site_first_data : input_data QArith_base.Q :=
  Eval vm_compute in default blank (parameters unknown_site_first).
Definition known_site_alone_data : input_data QArith_base.Q :=
  Eval vm_compute in default blank (parameters known_site_alone).

(** Stand-ins for the accelerogram readers: record 1404 of NGA-West2
    has three points per component, the ESM record of event EV at station
    ST two. *)
Definition q (n : Z) (m : positive) : QArith_base.Q := QArith_base.Qmake n m.

Definition nga_acc (val : Z) (path : string)
  : result (acc_data QArith_base.Q) :=
  if (val =? 1404)%Z
  then Ok {| time1 := [q 0 1; q 1 100; q 1 50];
             time2 := [q 0 1; q 1 100; q 1 50];
             inp_acc1 := [q 1 10; q (-1) 5; q 3 10];
             inp_acc2 := [q 0 1; q 1 4; q (-1) 2];
             npts1 := 3; npts2 := 3 |}
  else Err (Raised "FileNotFoundError").

Definition esm_acc (folder ev st : string) (i : nat)
  : result (acc_data QArith_base.Q) :=
  if String.eqb folder "/rec/ESM/EV-ST"
  then Ok {| time1 := [q 0 1; q 1 200];
             time2 := [q 0 1; q 1 200];
             inp_acc1 := [q 1 2; q 1 4];
             inp_acc2 := [q (-1) 2; q 1 8];
             npts1 := 2; npts2 := 2 |}
  else Err (Raised "FileNotFoundError").

Definition readers : @AccReaders decimal :=
  @Build_AccReaders decimal Z (fun n => Ok n) nga_acc esm_acc.

Definition scale_example : scale_args QArith_base.Q Z :=
  {| sa_n_gm := 2;
     sa_nga := [1404; 0];
     sa_path_nga := "/rec/NGA2records";
     sa_path_esm := "/rec/ESM";
     sa_source := ["NGA-West2"; "ESM"];
     sa_event := [""; "EV"];
     sa_station := [""; "ST"];
     sa_name := "AvgSA-site_0-poe-2";
     sa_output_folder := "out";
     sa_sf := [q 2 1; q 1 2] |}.

(** Two records of a source [scale_acc] does not know. *)
Definition unknown_sources : scale_args QArith_base.Q Z :=
  {| sa_n_gm := 2;
     sa_nga := [];
     sa_path_nga := "/rec/NGA2records";
     sa_path_esm := "/rec/ESM";
     sa_source := ["KiK-net"; "esm"];
     sa_event := [];
     sa_station := [];
     sa_name := "AvgSA-site_0-poe-2";
     sa_output_folder := "out";
     sa_sf := [] |}.

(** The second record cannot be read. *)
Definition second_unreadable : scale_args QArith_base.Q Z :=
  {| sa_n_gm := 2;
     sa_nga := [1404; 0];
     sa_path_nga := "/rec/NGA2records";
     sa_path_esm := "/rec/ESM";
     sa_source := ["NGA-West2"; "NGA-West2"];
     sa_event := [""; ""];
     sa_station := [""; ""];
     sa_name := "AvgSA-site_0-poe-2";
     sa_output_folder := "out";
     sa_sf := [q 2 1; q 1 2] |}.

(** The record can be read, and there is no scale factor for it. *)
Definition no_scale_factor : scale_args QArith_base.Q Z :=
  {| sa_n_gm := 1;
     sa_nga := [1404];
     sa_path_nga := "/rec/NGA2records";
     sa_path_esm := "/rec/ESM";
     sa_source := ["NGA-West2"];
     sa_event := [""];
     sa_station := [""];
     sa_name := "AvgSA-site_0-poe-2";
     sa_output_folder := "out";
     sa_sf := [] |}.

(** One Case has a summary; [scale_acc] is the one above, and leaves the
    files alone. *)
Definition one_summary (path : string) (files : unit)
  : result (summary QArith_base.Q Z) * unit :=
  if String.eqb path
       "out/AvgSA-site_0-poe-2/AvgSA-site_0-poe-2_summary_selection.txt"
  then (Ok {| recID_NGA := Some [1404; 0];
              source := Some ["NGA-West2"; "ESM"];
              event_id_esm := Some [""; "EV"];
              station_code_esm := Some [""; "ST"];
              scale_factor := Some [q 2 1; q 1 2] |}, files)
  else (Err (Raised "FileNotFoundError"), files).

Definition scaling_collaborators : @ScalingCollaborators decimal readers :=
  @Build_ScalingCollaborators decimal readers unit one_summary
    (fun a files => (fst (@scale_acc decimal readers a), files)).

(** Every Case has that summary. *)
Definition every_summary (path : string) (files : unit)
  : result (summary QArith_base.Q Z) * unit :=
  (Ok {| recID_NGA := Some [1404; 0];
         source := Some ["NGA-West2"; "ESM"];
         event_id_esm := Some [""; "EV"];
         station_code_esm := Some [""; "ST"];
         scale_factor := Some [q 2 1; q 1 2] |}, files).

Definition scaling_everywhere : @ScalingCollaborators decimal readers :=
  @Build_ScalingCollaborators decimal readers unit every_summary
    (fun a files => (fst (@scale_acc decimal readers a), files)).

Abbreviation dval := (pyval QArith_base.Q string).

Definition objs (names : list string) : dval := PList (map PObj names).

(** Stand-ins for the collaborators. Every one returns a tuple of the
    right length of named placeholders. The hazard results hold sites 0
    to 5: [compute_conditioning_value] raises [InputDataError] for any
    other site. [inizialize_gmm] returns as [vs30] the entry for the site
    of the list it is given, and a value that is no list as it is. *)
Definition stage (c : callee) (args : list dval) : result dval :=
  match c with
  | compute_conditioning_value =>
      match nth 2 args PNone with
      | PInt site =>
          if (0 <=? site)%Z && (site <=? 5)%Z
          then Ok (PList [PObj "im_star"; PList [PObj "rjb"]; PObj "mag"])
          else Err (Raised "InputDataError")
      | _ => Err TypeError
      end
  | inizialize_gmm =>
      let vs30 :=
        match nth 12 args PNone, nth 0 args PNone with
        | PList l, PInt ii => nth (Z.to_nat ii) l PNone
        | v, _ => v
        end in
      Ok (PList [PObj "bgmpe"; PObj "sctx"; PObj "rctx"; PObj "dctx"; vs30;
                 PObj "rrup"])
  | screen_database =>
      Ok (PList [PObj "sa_known"; PObj "ind_per"; PObj "tgt_per";
                 PObj "n_big"; PList [PInt 11; PInt 12; PInt 13];
                 PObj "event_id"; PObj "station_code"; PObj "source";
                 PObj "record_sequence_number_nga"; PObj "event_mw";
                 PObj "event_mag"; PObj "acc_distance";
                 PObj "station_vs30"; PObj "station_ec8"])
  | compute_cs => Ok (objs ["mean_req"; "cov_req"; "stdevs"])
  | find_ground_motion =>
      Ok (objs ["sample_small"; "sample_big"; "id_sel"; "ln_sa1"; "rec_id";
                "im_scale_fac"])
  | optimize_ground_motion =>
      Ok (PList [PList [PInt 0; PInt 2]; PObj "final_scale_factors";
                 PObj "sample_small"])
  | _ => Ok PNone
  end.

(** The generator is a counter: seeding sets it from the seed, and a
    draw returns its value and advances it. *)
Definition reseed (seed : dval) : nat :=
  match seed with
  | PInt n => Z.to_nat n
  | _ => 0%nat
  end.

Definition draw (g : nat) (args : list dval) : result dval * nat :=
  (Ok (PInt (Z.of_nat g)), S g).

Definition collaborators : @Collaborators decimal :=
  @spec_collaborators decimal string nat reseed draw stage
    (fun _ _ => Err TypeError) (fun _ => Err TypeError).

(** Values and events as text, for the statements below: a float as
    the fraction it stands for, an opaque object by its name. *)
Fixpoint show (v : dval) : string :=
  match v with
  | PNone => "None"
  | PInt n => pretty n
  | PFloat x =>
      pretty (QArith_base.Qnum x) +:+ "/" +:+ pretty (Z.pos (QArith_base.Qden x))
  | PStr s => "'" +:+ s +:+ "'"
  | PList l =>
      "[" +:+ fold_right (fun x acc => show x +:+ ";" +:+ acc) "]" l
  | PObj o => "<" +:+ o +:+ ">"
  end.

(** The state the runs below start from: generator at 0, no folder yet. *)
Definition start : nat * gset string := (0%nat, ∅).

End Demo.

(** * Properties *)

(** ** The error monad *)

Lemma rbind_ok {A B} (r : result A) (k : A -> result B) (b : B) :
  rbind r k = Ok b <-> exists a, r = Ok a /\ k a = Ok b.
Proof.
  split.
  - destruct r as [a|e]; simpl; [eauto | discriminate].
  - intros (a & -> & Hk). exact Hk.
Qed.

Lemma rbind_err {A B} (r : result A) (k : A -> result B) (e : exn) :
  rbind r k = Err e <-> r = Err e \/ exists a, r = Ok a /\ k a = Err e.
Proof.
  split.
  - destruct r as [a|e']; simpl; [eauto | intros [= ->]; by left].
  - intros [-> | (a & -> & Hk)]; [reflexivity | exact Hk].
Qed.

(** Peel the successful steps off a chain of binds in [H]. *)
Ltac bind_inv H :=
  repeat lazymatch type of H with
    | rbind _ _ = Ok _ =>
        let a := fresh "a" in
        let E := fresh "E" in
        apply rbind_ok in H as (a & E & H); cbv beta zeta in H
    end.

Lemma rmap_length {A B} (f : A -> result B) (xs : list A) (ys : list B) :
  rmap f xs = Ok ys -> length ys = length xs.
Proof.
  revert ys. induction xs as [|x xs IH]; intros ys; simpl.
  - intros [= <-]. reflexivity.
  - destruct (f x) as [y|]; [|discriminate].
    destruct (rmap f xs) as [ys'|]; [|discriminate].
    intros [= <-]. simpl. f_equal. by apply IH.
Qed.

Lemma rmap_lookup {A B} (f : A -> result B) (xs : list A) (ys : list B) i x :
  rmap f xs = Ok ys -> xs !! i = Some x ->
  exists y, f x = Ok y /\ ys !! i = Some y.
Proof.
  revert ys i. induction xs as [|x' xs IH]; intros ys i; simpl; [done|].
  destruct (f x') as [y'|] eqn:Hf; [|discriminate].
  destruct (rmap f xs) as [ys'|]; [|discriminate].
  intros [= <-]. destruct i as [|i]; simpl.
  - intros [= ->]. eauto.
  - intros Hx. by apply IH.
Qed.

(** ** Which [sys.exit] messages a step can end with *)

Section Avoids.
Context `{PyNum}.
Variable msg : string.

Lemma avoids_ok {A} (a : A) : avoids msg (Ok a).
Proof. discriminate. Qed.

Lemma avoids_bind {A B} (r : result A) (k : A -> result B) :
  avoids msg r -> (forall a, avoids msg (k a)) -> avoids msg (rbind r k).
Proof.
  intros Hr Hk. destruct r as [a|e]; simpl; [apply Hk|].
  intros [= ->]. by apply Hr.
Qed.

Lemma avoids_getitem input key : avoids msg (getitem input key).
Proof. unfold getitem, avoids. by destruct (input !! key). Qed.

Lemma avoids_to_float s : avoids msg (to_float s).
Proof. unfold to_float, avoids. by destruct (py_float s). Qed.

Lemma avoids_to_int s : avoids msg (to_int s).
Proof. unfold to_int, avoids. by destruct (py_int s). Qed.

Lemma avoids_rmap {A B} (f : A -> result B) xs :
  (forall x, avoids msg (f x)) -> avoids msg (rmap f xs).
Proof.
  intros Hf. induction xs as [|x xs IH]; simpl; [discriminate|].
  specialize (Hf x). destruct (f x) as [y|e]; [|intros [= ->]; by apply Hf].
  destruct (rmap f xs) as [ys|e]; [discriminate|].
  intros [= ->]. by apply IH.
Qed.

Lemma avoids_float_array xs : avoids msg (float_array xs).
Proof. apply avoids_rmap, avoids_to_float. Qed.

Lemma avoids_int_array xs : avoids msg (int_array xs).
Proof. apply avoids_rmap, avoids_to_int. Qed.

Lemma avoids_optional {A} input key (f : string -> result A) :
  (forall v, avoids msg (f v)) -> avoids msg (optional input key f).
Proof.
  intros Hf. unfold optional. destruct (input !! key) as [v|]; [|discriminate].
  apply avoids_bind; [apply Hf | intros; discriminate].
Qed.

Lemma avoids_exit_if cond msg' :
  cond = false \/ msg' <> msg -> avoids msg (exit_if cond msg').
Proof.
  unfold exit_if, avoids. intros [-> | Hne]; [discriminate|].
  destruct cond; [congruence | discriminate].
Qed.

Lemma avoids_site_list msg' n v :
  msg' <> msg -> avoids msg (site_list msg' n v).
Proof.
  intros Hne. unfold site_list, avoids.
  destruct (negb _); [congruence | discriminate].
Qed.

Lemma avoids_per_poe input key msg' n :
  msg' <> msg -> avoids msg (per_poe input key msg' n).
Proof.
  intros Hne. unfold per_poe.
  apply avoids_bind; [apply avoids_getitem | intros v].
  destruct (py_float v); [discriminate|].
  apply avoids_bind; [apply avoids_float_array | intros l].
  unfold avoids. destruct (negb _); [congruence | discriminate].
Qed.
End Avoids.

(** ** The length check of lines 219-223 *)

Section PoeCheck.
Context `{PyNum}.

Lemma unsupported_im_not_poe_size name : unsupported_im name <> poe_size_msg.
Proof. unfold unsupported_im, poe_size_msg. cbv [String.append]. discriminate. Qed.

Lemma avoids_im_step input st i name :
  avoids poe_size_msg (im_step input st i name).
Proof.
  unfold im_step.
  destruct (String.eqb name "AvgSA").
  { apply avoids_bind; [apply avoids_getitem | intros v].
    apply avoids_bind; [apply avoids_float_array | intros; discriminate]. }
  destruct (String.eqb (PyStr.prefix 2 name) "SA").
  { apply avoids_bind; [apply avoids_to_float | intros; discriminate]. }
  destruct (String.eqb (PyStr.prefix 3 name) "PGA"); [discriminate|].
  intros [= Heq]; by apply unsupported_im_not_poe_size in Heq.
Qed.

Lemma avoids_im_loop input names i st :
  avoids poe_size_msg (im_loop input i names st).
Proof.
  revert i st. induction names as [|name names IH]; intros i st; simpl.
  - discriminate.
  - apply avoids_bind; [apply avoids_im_step | intros; apply IH].
Qed.

Lemma avoids_azimuth_fhw input :
  avoids poe_size_msg (read_azimuth_fhw input).
Proof.
  unfold read_azimuth_fhw.
  destruct (input !! "azimuth").
  { apply avoids_bind; [apply avoids_to_float | intros; discriminate]. }
  destruct (input !! "hanging_wall_flag"); [|discriminate].
  apply avoids_bind; [apply avoids_to_int | intros n].
  destruct (_ && _); discriminate.
Qed.

(** No dictionary makes [extract] end with the size message: the
    condition of line 219 compares a length with itself. *)
Lemma extract_avoids_poe_size input : avoids poe_size_msg (extract input).
Proof.
  unfold extract.
  repeat first
    [ progress cbv zeta
    | apply avoids_bind;
      [ first
          [ apply avoids_getitem | apply avoids_to_float | apply avoids_to_int
          | apply avoids_float_array | apply avoids_int_array
          | apply avoids_im_loop | apply avoids_azimuth_fhw
          | apply avoids_per_poe; discriminate
          | apply avoids_exit_if; right; discriminate
          | apply avoids_exit_if; left; by rewrite Nat.eqb_refl
          | apply avoids_optional; intros;
            first [ apply avoids_to_float | apply avoids_float_array
                  | apply avoids_site_list; discriminate | discriminate ] ]
      | intros ? ] ].
  discriminate.
Qed.
End PoeCheck.

(** C9. [read_input_data] never ends with the advertised error
    "probability_of_exceedance_num must be of the same size of
    probability_of_exceedance", whatever the input file, and so in
    particular when the two lists differ in length: the check of line 219
    compares the length of [probability_of_exceedance_num] with itself. *)
Theorem poe_size_mismatch_never_rejected `{PyNum} (fileini : list string) :
  read_input_data fileini <> Err (SystemExit poe_size_msg).
Proof. unfold read_input_data. apply extract_avoids_poe_size. Qed.


(** Two probabilities of exceedance for one number: the file is read to the
    end, and the two lists come out with different lengths. *)
Lemma poe_size_mismatch_example :
  ok_with (fun d => (probability_of_exceedance_num d, probability_of_exceedance d))
    (@read_input_data decimal
       (Demo.example_with ["probability_of_exceedance={0.1,0.02}"]))
  = Some ([2], ["0.1"; "0.02"]).
Proof. vm_compute. reflexivity. Qed.

(** ** Intensity measures (lines 231-254) *)

Section IntensityMeasures.
Context `{PyNum}.

Lemma getitem_ok input key v :
  getitem input key = Ok v <-> input !! key = Some v.
Proof.
  unfold getitem. destruct (input !! key); split; intros [=]; by subst.
Qed.

Lemma to_float_ok s x : to_float s = Ok x <-> py_float s = Some x.
Proof. unfold to_float. destruct (py_float s); split; intros [=]; by subst. Qed.

(** One turn of the loop that ends well took one of the three branches. *)
Lemma im_step_ok input st i name st' :
  im_step input st i name = Ok st' ->
  v_im_type_lbl st' <> v_im_type_lbl st /\
  ((accepted input name "AvgSA" fzero /\ v_tstar st' = v_tstar st
    /\ v_im_type st' = v_im_type st ++ ["AvgSA"])
   \/ (exists x, accepted input name "SA" x
                 /\ v_tstar st' = <[i := x]> (v_tstar st)
                 /\ v_im_type st' = v_im_type st ++ ["SA"])
   \/ (accepted input name "PGA" fzero
       /\ v_tstar st' = <[i := fzero]> (v_tstar st)
       /\ v_im_type st' = v_im_type st ++ ["PGA"])).
Proof.
  assert (Hne : forall (l : list string) x, l ++ [x] <> l).
  { intros l x Heq. apply (f_equal length) in Heq.
    rewrite length_app in Heq. simpl in Heq. lia. }
  unfold im_step.
  destruct (String.eqb name "AvgSA") eqn:E1.
  { apply String.eqb_eq in E1. intros Hst. bind_inv Hst.
    injection Hst as <-. simpl. split; [apply Hne|]. left.
    apply getitem_ok in E. split; [|done].
    constructor; [done | by eexists]. }
  destruct (String.eqb (PyStr.prefix 2 name) "SA") eqn:E2.
  { apply String.eqb_eq in E2. intros Hst. bind_inv Hst.
    injection Hst as <-. simpl. split; [apply Hne|]. right; left.
    apply to_float_ok in E. exists a. split; [|done]. by constructor. }
  destruct (String.eqb (PyStr.prefix 3 name) "PGA") eqn:E3; [|discriminate].
  apply String.eqb_eq in E3. intros [= <-]. simpl. split; [apply Hne|].
  right; right. split; [|done]. by constructor.
Qed.

(** A name of none of the three kinds ends the program with the message
    of line 253. *)
Lemma im_step_unsupported input st i name :
  name <> "AvgSA" -> PyStr.prefix 2 name <> "SA" ->
  PyStr.prefix 3 name <> "PGA" ->
  im_step input st i name = Err (SystemExit (unsupported_im name)).
Proof.
  intros H1 H2 H3. unfold im_step.
  apply String.eqb_neq in H1, H2, H3. by rewrite H1, H2, H3.
Qed.

(** The loop from index [i] on, over an array whose entries from [i] on
    are still the zeros of [np.zeros]. *)
Lemma im_loop_ok input names : forall i st st',
  im_loop input i names st = Ok st' ->
  (i + length names <= length (v_tstar st))%nat ->
  (forall k, (i <= k < length (v_tstar st))%nat ->
             v_tstar st !! k = Some fzero) ->
  length (v_tstar st') = length (v_tstar st)
  /\ (forall k, (k < i)%nat -> v_tstar st' !! k = v_tstar st !! k)
  /\ exists kinds,
      v_im_type st' = v_im_type st ++ kinds
      /\ length kinds = length names
      /\ forall k name, names !! k = Some name ->
           exists kind t, accepted input name kind t
                          /\ kinds !! k = Some kind
                          /\ v_tstar st' !! (i + k)%nat = Some t.
Proof.
  induction names as [|name names IH]; intros i st st'; simpl.
  - intros [= <-] _ _. split; [done|]. split; [done|].
    exists []. rewrite app_nil_r. split; [done|]. split; [done|]. intros ? ? [=].
  - intros Hloop Hlen Hzero. bind_inv Hloop. rename a into st1.
    apply im_step_ok in E as [_ Hstep].
    assert (Hst1 : length (v_tstar st1) = length (v_tstar st)
                   /\ (forall k, k <> i -> v_tstar st1 !! k = v_tstar st !! k)
                   /\ exists kind t, accepted input name kind t
                        /\ v_im_type st1 = v_im_type st ++ [kind]
                        /\ v_tstar st1 !! i = Some t).
    { destruct Hstep as [(Ha & -> & Hk) | [(x & Ha & -> & Hk) | (Ha & -> & Hk)]].
      - split; [done|]. split; [done|].
        exists "AvgSA", fzero. repeat split; try done. apply Hzero. lia.
      - rewrite length_insert. split; [done|].
        split; [intros; by apply list_lookup_insert_ne|].
        exists "SA", x. repeat split; try done.
        apply list_lookup_insert_eq. lia.
      - rewrite length_insert. split; [done|].
        split; [intros; by apply list_lookup_insert_ne|].
        exists "PGA", fzero. repeat split; try done.
        apply list_lookup_insert_eq. lia. }
    destruct Hst1 as (Hlen1 & Hframe & kind & t & Hacc & Hty & Ht).
    apply IH in Hloop as (Hlen' & Hkeep & kinds & Hkinds & Hlk & Hall).
    + split; [congruence|].
      split; [intros k Hk; rewrite Hkeep by lia; apply Hframe; lia|].
      exists (kind :: kinds). rewrite Hkinds, Hty, <- app_assoc.
      split; [done|]. split; [simpl; by f_equal|].
      intros [|k] name'; simpl.
      * intros [= <-]. exists kind, t. rewrite Nat.add_0_r, Hkeep by lia. done.
      * intros Hname. apply Hall in Hname as (kind' & t' & ? & ? & Ht').
        exists kind', t'. by replace (i + S k)%nat with (S i + k)%nat by lia.
    + rewrite Hlen1. lia.
    + intros k Hk. rewrite Hframe by lia. apply Hzero. lia.
Qed.
End IntensityMeasures.

(** ** What a successful [extract] says about its result *)

Section ExtractOk.
Context `{PyNum}.

Lemma exit_if_ok cond msg u : exit_if cond msg = Ok u -> cond = false.
Proof. unfold exit_if. by destruct cond. Qed.

Lemma exit_if_length (n m : nat) msg u :
  exit_if (negb (n =? m)%nat) msg = Ok u -> n = m.
Proof.
  intros Hc. apply exit_if_ok in Hc. apply negb_false_iff in Hc.
  by apply Nat.eqb_eq.
Qed.

Lemma extract_ok input d :
  extract input = Ok d ->
  (exists s, input !! "intensity_measures" = Some s
             /\ intensity_measures d = PyStr.items "{}" s)
  /\ (exists ims,
        im_loop input 0 (intensity_measures d)
          (im_init (intensity_measures d)) = Ok ims
        /\ tstar d = v_tstar ims /\ im_type d = v_im_type ims)
  /\ read_azimuth_fhw input = Ok (azimuth d, fhw d)
  /\ length (rlz_code d) = length (site_code d)
  /\ per_poe input "maxsf"
       "Error: maxsf must be of the same size of probability_of_exceedance"
       (length (probability_of_exceedance_num d)) = Ok (maxsf_input d)
  /\ per_poe input "radius_dist"
       "Error: radius_dist must be of the same size of probability_of_exceedance"
       (length (probability_of_exceedance_num d)) = Ok (radius_dist_input d)
  /\ per_poe input "radius_mag"
       "Error: radius_mag must be of the same size of probability_of_exceedance"
       (length (probability_of_exceedance_num d)) = Ok (radius_mag_input d).
Proof.
  unfold extract. intros Hx. bind_inv Hx. injection Hx as <-. simpl.
  repeat match goal with
         | Hc : exit_if (negb (_ =? _)%nat) _ = Ok _ |- _ =>
             apply exit_if_length in Hc
         end.
  match goal with
  | Hi : getitem _ "intensity_measures" = Ok _ |- _ =>
      apply getitem_ok in Hi
  end.
  repeat split; eauto.
  match goal with
  | Hz : read_azimuth_fhw _ = Ok ?p |- _ => by destruct p
  end.
Qed.
End ExtractOk.

(** ** Stripping the name of a spectral acceleration *)

Section StripSA.
Variable p : ascii -> bool.

Lemma rstrip_by_fixed_tail c s :
  s <> "" -> PyStr.rstrip_by p (String c s) = String c s ->
  PyStr.rstrip_by p s = s.
Proof.
  intros Hs. simpl. destruct (PyStr.rstrip_by p s) eqn:Hr.
  - destruct (p c); intros [=]; by subst.
  - by intros [= <-].
Qed.

Lemma rstrip_by_fixed_single c :
  PyStr.rstrip_by p (String c "") = String c "" -> p c = false.
Proof. simpl. by destruct (p c). Qed.

(** A string with nothing to strip on its right keeps all of itself when
    one strippable character is put after it. *)
Lemma rstrip_by_app_one s c :
  s <> "" -> PyStr.rstrip_by p s = s -> p c = true ->
  PyStr.rstrip_by p (s +:+ String c "") = s.
Proof.
  intros Hs Hfix Hc. induction s as [|a s IH]; [done|].
  change (String a s +:+ String c "") with (String a (s +:+ String c "")).
  destruct s as [|b s].
  - apply rstrip_by_fixed_single in Hfix.
    change ("" +:+ String c "") with (String c "").
    cbn [PyStr.rstrip_by]. by rewrite Hc, Hfix.
  - apply rstrip_by_fixed_tail in Hfix; [|done].
    cbn [PyStr.rstrip_by]. rewrite IH by done. reflexivity.
Qed.
End StripSA.

Lemma rstrip_by_length q t :
  (String.length (PyStr.rstrip_by q t) <= String.length t)%nat.
Proof.
  induction t as [|a t IHt]; simpl; [lia|].
  destruct (PyStr.rstrip_by q t); [destruct (q a)|]; simpl in *; lia.
Qed.

Lemma lstrip_by_length q t :
  (String.length (PyStr.lstrip_by q t) <= String.length t)%nat.
Proof.
  induction t as [|a t IHt]; simpl; [lia|]. destruct (q a); simpl; lia.
Qed.

(** [strip_chars] leaves a string as it is only if neither end can be
    stripped. *)
Lemma strip_chars_fixed chars c s :
  PyStr.strip_chars chars (String c s) = String c s ->
  PyStr.mem c chars = false
  /\ PyStr.rstrip_by (fun a => PyStr.mem a chars) (String c s) = String c s.
Proof.
  unfold PyStr.strip_chars. cbn [PyStr.lstrip_by].
  destruct (PyStr.mem c chars) eqn:Hc; [|done].
  intros Hfix. exfalso. apply (f_equal String.length) in Hfix.
  pose proof (rstrip_by_length (fun a => PyStr.mem a chars)
                (PyStr.lstrip_by (fun a => PyStr.mem a chars) s)).
  pose proof (lstrip_by_length (fun a => PyStr.mem a chars) s).
  simpl in Hfix. lia.
Qed.

Lemma strip_SA_parens s :
  s <> "" -> PyStr.strip_chars "(,),SA" s = s ->
  PyStr.strip_chars "(,),SA" ("SA(" +:+ s +:+ ")") = s.
Proof.
  intros Hs Hfix. destruct s as [|c s]; [done|].
  apply strip_chars_fixed in Hfix as [Hc Hr].
  unfold PyStr.strip_chars.
  change ("SA(" +:+ String c s +:+ ")")
    with (String "S" (String "A" (String "(" (String c (s +:+ ")"))))).
  cbn [PyStr.lstrip_by].
  change (PyStr.mem "S" "(,),SA") with true.
  change (PyStr.mem "A" "(,),SA") with true.
  change (PyStr.mem "(" "(,),SA") with true.
  cbv iota. rewrite Hc.
  change (String c (s +:+ ")")) with (String c s +:+ ")").
  by apply rstrip_by_app_one.
Qed.


(** The three kinds side by side: SA(0.5) is read as a spectral acceleration
    of period 0.5; a file asking for PGV ends with an error. *)
Lemma three_measures_read :
  @read_input_data decimal Demo.three_measures = Ok Demo.three_measures_data.
Proof. vm_compute. reflexivity. Qed.


Lemma three_measures_tstar :
  (intensity_measures Demo.three_measures_data,
   im_type Demo.three_measures_data, tstar Demo.three_measures_data)
  = (["AvgSA"; "SA(0.5)"; "PGA"], ["AvgSA"; "SA"; "PGA"],
     [QArith_base.Qmake 0 1; QArith_base.Qmake 1 2; QArith_base.Qmake 0 1]).
Proof. reflexivity. Qed.

Lemma unknown_measure_message :
  @read_input_data decimal Demo.unknown_measure
  = Err (SystemExit "Error: this intensity measure type PGV is not supported yet").
Proof. vm_compute. reflexivity. Qed.

(** ** Azimuth and hanging-wall flag (lines 284-295) *)

(** C3, as the code has it. When the file gives [azimuth], its float is
    used and [hanging_wall_flag] is not read, so that giving both raises
    nothing and leaves [fhw] at [None]; when the file gives neither, the
    program ends with the message of line 294. In no result are both set. *)
Theorem azimuth_precedes_hanging_wall_flag `{PyNum} (fileini : list string) :
  (forall a, read_dict fileini !! "azimuth" = Some a ->
     read_azimuth_fhw (read_dict fileini)
     = rbind (to_float a) (fun x => Ok (Some x, None))
     /\ forall d, read_input_data fileini = Ok d ->
          azimuth d = py_float a /\ fhw d = None)
  /\ (read_dict fileini !! "azimuth" = None ->
      read_dict fileini !! "hanging_wall_flag" = None ->
      read_azimuth_fhw (read_dict fileini)
      = Err (SystemExit
               "Error: The azimuth or the hanging_wall_flag must be defined")
      /\ exists e, read_input_data fileini = Err e)
  /\ (forall d, read_input_data fileini = Ok d ->
        azimuth d = None \/ fhw d = None).
Proof.
  split; [|split].
  - intros a Ha.
    assert (Hblock : read_azimuth_fhw (read_dict fileini)
                     = rbind (to_float a) (fun x => Ok (Some x, None))).
    { unfold read_azimuth_fhw. by rewrite Ha. }
    split; [exact Hblock|]. intros d Hd.
    apply extract_ok in Hd as (_ & _ & Hz & _). rewrite Hblock in Hz.
    unfold to_float in Hz. destruct (py_float a); [|discriminate].
    simpl in Hz. by injection Hz as <- <-.
  - intros Ha Hh.
    assert (Hblock : read_azimuth_fhw (read_dict fileini)
                     = Err (SystemExit
                              "Error: The azimuth or the hanging_wall_flag must be defined")).
    { unfold read_azimuth_fhw. by rewrite Ha, Hh. }
    split; [exact Hblock|].
    destruct (read_input_data fileini) as [d|e] eqn:Hd; [|by eexists].
    apply extract_ok in Hd as (_ & _ & Hz & _). congruence.
  - intros d Hd. apply extract_ok in Hd as (_ & _ & Hz & _).
    unfold read_azimuth_fhw in Hz.
    destruct (read_dict fileini !! "azimuth").
    + bind_inv Hz. injection Hz as _ <-. by right.
    + destruct (read_dict fileini !! "hanging_wall_flag"); [|discriminate].
      bind_inv Hz. destruct (_ && _); [discriminate|].
      injection Hz as <- _. by left.
Qed.

Lemma azimuth_precedes_hanging_wall_flag_witness :
  (@read_azimuth_fhw decimal (read_dict Demo.both_flags)
   = rbind (@to_float decimal "50") (fun x => Ok (Some x, None)))
  /\ (exists e, @read_input_data decimal Demo.no_azimuth = Err e).
Proof.
  split.
  - apply (proj1 (@azimuth_precedes_hanging_wall_flag decimal Demo.both_flags)).
    vm_compute. reflexivity.
  - apply (proj1 (proj2 (@azimuth_precedes_hanging_wall_flag decimal
                           Demo.no_azimuth))).
    + vm_compute. reflexivity.
    + vm_compute. reflexivity.
Defined.

(** C3, as stated, fails: a file that gives both [azimuth] and
    [hanging_wall_flag] is read without any error, the azimuth being used
    and the flag left unset. *)
Lemma both_azimuth_and_flag_accepted :
  read_dict Demo.both_flags !! "azimuth" = Some "50"
  /\ read_dict Demo.both_flags !! "hanging_wall_flag" = Some "1"
  /\ ok_with (fun d => (azimuth d, fhw d))
       (@read_input_data decimal Demo.both_flags)
     = Some (Some (QArith_base.Qmake 50 1), None).
Proof. split; [|split]; vm_compute; reflexivity. Qed.

Lemma no_azimuth_message :
  @read_input_data decimal Demo.no_azimuth
  = Err (SystemExit "Error: The azimuth or the hanging_wall_flag must be defined").
Proof. vm_compute. reflexivity. Qed.

(** ** Reading a run through an observation *)

Section Produces.
Context `{Collaborators}.
Context {X : Type} (obs : event F Obj -> list X).

Lemma observe_app (l1 l2 : list (event F Obj)) :
  observe obs (l1 ++ l2) = observe obs l1 ++ observe obs l2.
Proof. unfold observe. apply flat_map_app. Qed.

Lemma produces_eq {A} (m : M A) e e' :
  produces obs m e -> e = e' -> produces obs m e'.
Proof. by intros Hm <-. Qed.

Lemma produces_ret {A} (a : A) : produces obs (ret a) [].
Proof. intros s. exists []. simpl. by rewrite app_nil_r. Qed.

Lemma produces_lift {A} (r : result A) : produces obs (lift r) [].
Proof. intros s. exists []. simpl. by rewrite app_nil_r. Qed.

Lemma produces_exists_path p : produces obs (exists_path p) [].
Proof. intros s. exists []. simpl. by rewrite app_nil_r. Qed.

Lemma produces_print line e :
  obs (Print line) = e -> produces obs (print line) e.
Proof.
  intros <- s. exists [Print line]. simpl. split; [done|].
  unfold observe. simpl. by rewrite app_nil_r.
Qed.

Lemma produces_call c args e :
  obs (Call c args) = e -> produces obs (call c args) e.
Proof.
  intros <- s. exists [Call c args]. unfold call.
  destruct (call_fn c args (fst s)) as [r w']. simpl. split; [done|].
  unfold observe. simpl. by rewrite app_nil_r.
Qed.

Lemma produces_bind {A B} (m : M A) (k : A -> M B) e1 e2 :
  produces obs m e1 -> (forall a, produces obs (k a) e2) ->
  produces obs (bind m k) (e1 ++ e2).
Proof.
  intros Hm Hk s. unfold bind.
  destruct (Hm s) as (new1 & Hlog1 & Hpre1 & Hok1).
  destruct (m s) as [[a|e] s1]; simpl in *.
  - specialize (Hok1 eq_refl).
    destruct (Hk a s1) as (new2 & Hlog2 & Hpre2 & Hok2).
    exists (new1 ++ new2). rewrite Hlog2, Hlog1, <- app_assoc.
    split; [done|]. rewrite observe_app, Hok1.
    split; [by apply prefix_app | intros Hr; by rewrite Hok2].
  - exists new1. split; [done|]. split; [by apply prefix_app_r | done].
Qed.

Lemma produces_lift_bind {A B} (r : result A) (k : A -> M B) e :
  (forall a, r = Ok a -> produces obs (k a) e) ->
  produces obs (bind (lift r) k) e.
Proof.
  intros Hk s. unfold bind, lift. destruct r as [a|err].
  - by apply Hk.
  - exists []. simpl. rewrite app_nil_r.
    split; [done|]. split; [apply prefix_nil | done].
Qed.

Lemma produces_if {A} (b : bool) (m1 m2 : M A) e :
  produces obs m1 e -> produces obs m2 e ->
  produces obs (if b then m1 else m2) e.
Proof. by destruct b. Qed.

Lemma produces_for_in {A S} (xs : list A) (body : A -> S -> M S)
    (g : A -> list X) :
  (forall x s, produces obs (body x s) (g x)) ->
  forall s, produces obs (for_in xs body s) (flat_map g xs).
Proof.
  intros Hbody. induction xs as [|x xs IH]; intros s; simpl.
  - apply produces_ret.
  - apply produces_bind; [apply Hbody | exact IH].
Qed.

(** What [produces] says of a run that starts with an empty log. *)
Lemma produces_run {A} (m : M A) e w r w' log :
  produces obs m e -> m (w, []) = (r, (w', log)) ->
  observe obs log `prefix_of` e /\ (is_ok r = true -> observe obs log = e).
Proof.
  intros Hm Hrun. destruct (Hm (w, [])) as (new & Hlog & Hpre & Hok).
  rewrite Hrun in *. simpl in *. by subst.
Qed.
End Produces.

(** Walk through a computation of the driver, collecting what [obs] sees
    of each of its steps. *)
Ltac produce_step :=
  lazymatch goal with
  | |- produces _ (bind (lift _) _) _ =>
      apply produces_lift_bind; intros ? ?
  | |- produces _ (bind _ _) _ =>
      eapply produces_bind; [|intros ?]
  | |- produces _ (ret _) _ => apply produces_ret
  | |- produces _ (lift _) _ => apply produces_lift
  | |- produces _ (exists_path _) _ => apply produces_exists_path
  | |- produces _ (print _) _ => apply produces_print; lazy; reflexivity
  | |- produces _ (call _ _) _ => apply produces_call; lazy; reflexivity
  | |- produces _ (if _ then _ else _) _ => apply produces_if
  end.

Ltac produce := cbv zeta; repeat (produce_step; cbv zeta).

(** ** The three loops of [selection_module] *)

Section Loops.
Context `{Collaborators}.
Context {X : Type} (obs : event F Obj -> list X).
Variable d : input_data F.
(** what [obs] is to see of the Case with indices [ii], [jj], [im] *)
Variable g : nat -> nat -> nat -> list X.

Hypothesis obs_print : forall line, obs (Print line) = [].
Hypothesis case_produces :
  forall ii jj im site rlz poe maxsf radius_dist radius_mag vars,
    index (site_code d) ii = Ok site ->
    index (rlz_code d) ii = Ok rlz ->
    index (probability_of_exceedance_num d) jj = Ok poe ->
    select (maxsf_input d) jj = Ok maxsf ->
    select (radius_dist_input d) jj = Ok radius_dist ->
    select (radius_mag_input d) jj = Ok radius_mag ->
    produces obs
      (case_body d ii jj im site rlz poe maxsf radius_dist radius_mag vars)
      (g ii jj im).

Lemma poe_body_produces ii site rlz jj vars :
  index (site_code d) ii = Ok site ->
  index (rlz_code d) ii = Ok rlz ->
  produces obs (poe_body d ii site rlz jj vars)
    (flat_map (g ii jj) (seq 0 (length (intensity_measures d)))).
Proof.
  intros Hsite Hrlz. unfold poe_body.
  do 4 (apply produces_lift_bind; intros ? ?).
  apply produces_for_in. intros im vars'. by apply case_produces.
Qed.

Lemma site_body_produces ii vars :
  produces obs (site_body d ii vars)
    (flat_map (fun jj =>
       flat_map (g ii jj) (seq 0 (length (intensity_measures d))))
       (seq 0 (length (probability_of_exceedance_num d)))).
Proof.
  unfold site_body. do 2 (apply produces_lift_bind; intros ? ?).
  apply produces_for_in. intros jj vars'. by apply poe_body_produces.
Qed.

Lemma selection_module_produces :
  produces obs (selection_module d)
    (flat_map (fun ii =>
       flat_map (fun jj =>
         flat_map (g ii jj) (seq 0 (length (intensity_measures d))))
         (seq 0 (length (probability_of_exceedance_num d))))
       (seq 0 (length (site_code d)))).
Proof.
  unfold selection_module.
  eapply produces_eq.
  - eapply produces_bind; [apply produces_print, obs_print | intros _].
    eapply produces_bind; [|intros _; apply produces_ret].
    apply produces_for_in. intros ii vars. apply site_body_produces.
  - simpl. by rewrite app_nil_r.
Qed.
End Loops.

(** ** Lists of the nested loops *)

Lemma flat_map_const {A B} (l : list B) (xs : list A) :
  flat_map (fun _ => l) xs = concat (replicate (length xs) l).
Proof. induction xs as [|x xs IH]; simpl; [done | by rewrite IH]. Qed.

Lemma concat_replicate_mul {B} (l : list B) (n m : nat) :
  concat (replicate n (concat (replicate m l))) = concat (replicate (n * m) l).
Proof.
  induction n as [|n IH]; simpl; [done|].
  by rewrite replicate_add, concat_app, IH.
Qed.

Lemma flat_map_fmap {A B C} (g : B -> list C) (h : A -> B) (l : list A) :
  flat_map g (map h l) = flat_map (fun x => g (h x)) l.
Proof. induction l as [|x l IH]; simpl; [done | by rewrite IH]. Qed.

Lemma flat_map_nested {A B C} (g : B -> list C) (h : A -> list B) (l : list A) :
  flat_map g (flat_map h l) = flat_map (fun x => flat_map g (h x)) l.
Proof.
  induction l as [|x l IH]; simpl; [done|]. by rewrite flat_map_app, IH.
Qed.

Lemma flat_map_seq_nth {A B} (f : A -> list B) (l : list A) (a : A) :
  flat_map (fun k => f (nth k l a)) (seq 0 (length l)) = flat_map f l.
Proof.
  induction l as [|x l IH]; simpl; [done|].
  f_equal. rewrite <- seq_shift, flat_map_fmap. exact IH.
Qed.

Lemma index_nth {A} (l : list A) (i : nat) (x a : A) :
  index l i = Ok x -> nth i l a = x.
Proof.
  unfold index. destruct (l !! i) as [y|] eqn:Hl; [|discriminate].
  intros [= <-]. by apply nth_lookup_Some.
Qed.

Lemma select_applied `{PyNum} (x : scalar_or_seq F) jj v :
  select x jj = Ok v -> applied x jj = v.
Proof. destruct x as [?|l]; simpl; [by intros [= <-] | apply index_nth]. Qed.

(** ** One Case *)

Section CaseBody.
Context `{Collaborators}.
Variable d : input_data F.
Variables (ii jj im : nat) (site rlz poe : Z).
Variables (maxsf radius_dist radius_mag : F) (vars : loop_vars F Obj).

Abbreviation the_case :=
  (case_body d ii jj im site rlz poe maxsf radius_dist radius_mag vars).

(** A Case calls the seven stages once each, in the order of the
    docstring, and only as far as the first exception. *)
Lemma case_body_stages : produces obs_stage the_case pipeline.
Proof.
  unfold case_body. eapply produces_eq; [produce | reflexivity].
Qed.

Lemma case_body_callees :
  produces obs_callee the_case
    (pipeline ++ [plot_final_selection; create_output_files]).
Proof.
  unfold case_body. eapply produces_eq; [produce | reflexivity].
Qed.

Lemma case_body_seed :
  produces obs_seed the_case [PInt (random_seed d)].
Proof.
  unfold case_body. eapply produces_eq; [produce | reflexivity].
Qed.

Lemma case_body_per_poe :
  produces obs_per_poe the_case
    [PFloat radius_dist; PFloat radius_mag; PFloat maxsf; PFloat maxsf].
Proof.
  unfold case_body. eapply produces_eq; [produce | reflexivity].
Qed.

(** The [vs30] handed to [inizialize_gmm] is the value the variable has
    when the Case begins. *)
Lemma case_body_vs30 : produces obs_vs30 the_case [lv_vs30 vars].
Proof.
  unfold case_body. eapply produces_eq; [produce | reflexivity].
Qed.

Lemma case_body_case :
  produces obs_case the_case [(site, poe, nth im (intensity_measures d) "")].
Proof.
  unfold case_body. apply produces_lift_bind. intros im_name Him.
  rewrite (index_nth _ _ _ "" Him).
  eapply produces_eq; [produce | reflexivity].
Qed.
End CaseBody.

(** ** Runs *)

Section Runs.
Context `{Collaborators}.
Context {X : Type} (obs : event F Obj -> list X).

Lemma run_produces d w e :
  produces obs (selection_module d) e ->
  observe obs (run_log d w) `prefix_of` e
  /\ (is_ok (run_result d w) = true -> observe obs (run_log d w) = e).
Proof.
  intros Hm. unfold run_log, run_result, run.
  destruct (selection_module d (w, [])) as [r [w' log]] eqn:Hrun.
  by apply (produces_run obs _ _ _ _ _ _ Hm Hrun).
Qed.
End Runs.

Lemma flat_map_singleton {A B} (f : A -> B) (l : list A) :
  flat_map (fun x => [f x]) l = map f l.
Proof. induction l as [|x l IH]; simpl; [done | by rewrite IH]. Qed.

Lemma flat_map_length_const {A B} (f : A -> list B) (l : list A) (k : nat) :
  (forall x, length (f x) = k) -> length (flat_map f l) = (length l * k)%nat.
Proof.
  intros Hf. induction l as [|x l IH]; simpl; [done|].
  by rewrite length_app, Hf, IH.
Qed.

Lemma concat_replicate_singleton {A} (n : nat) (x : A) :
  concat (replicate n [x]) = replicate n x.
Proof. induction n as [|n IH]; simpl; [done | by rewrite IH]. Qed.

Lemma combinations_length `{Collaborators} (d : input_data F) :
  length (combinations d) = n_cases d.
Proof.
  unfold combinations, n_cases.
  rewrite (flat_map_length_const _ _
             (length (probability_of_exceedance_num d)
              * length (intensity_measures d))); [lia|].
  intros s. apply flat_map_length_const. intros p. apply length_map.
Qed.

Section RunFacts.
Context `{Collaborators}.
Variable d : input_data F.

Lemma selection_module_stages :
  produces obs_stage (selection_module d)
    (concat (replicate (n_cases d) pipeline)).
Proof.
  eapply produces_eq.
  - apply (selection_module_produces obs_stage d (fun _ _ _ => pipeline));
      [done|]. intros. apply case_body_stages.
  - unfold n_cases. rewrite <- !concat_replicate_mul.
    by rewrite !flat_map_const, !length_seq.
Qed.

Lemma selection_module_callees :
  produces obs_callee (selection_module d)
    (concat (replicate (n_cases d)
               (pipeline ++ [plot_final_selection; create_output_files]))).
Proof.
  eapply produces_eq.
  - apply (selection_module_produces obs_callee d
             (fun _ _ _ => pipeline ++ [plot_final_selection; create_output_files]));
      [done|]. intros. apply case_body_callees.
  - unfold n_cases. rewrite <- !concat_replicate_mul.
    by rewrite !flat_map_const, !length_seq.
Qed.

Lemma selection_module_cases :
  produces obs_case (selection_module d) (combinations d).
Proof.
  eapply produces_eq.
  - apply (selection_module_produces obs_case d
             (fun ii jj im =>
                [(nth ii (site_code d) 0, nth jj (probability_of_exceedance_num d) 0,
                  nth im (intensity_measures d) "")])); [done|].
    intros ii jj im site rlz poe m rd rm vars Hs _ Hp _ _ _.
    rewrite (index_nth _ _ _ 0 Hs), (index_nth _ _ _ 0 Hp).
    apply case_body_case.
  - unfold combinations.
    rewrite <- (flat_map_seq_nth _ (site_code d) 0).
    apply flat_map_ext. intros ii.
    rewrite <- (flat_map_seq_nth _ (probability_of_exceedance_num d) 0).
    apply flat_map_ext. intros jj.
    rewrite <- flat_map_singleton.
    by rewrite <- (flat_map_seq_nth _ (intensity_measures d) "").
Qed.

Lemma selection_module_seed :
  produces obs_seed (selection_module d)
    (replicate (n_cases d) (PInt (random_seed d))).
Proof.
  eapply produces_eq.
  - apply (selection_module_produces obs_seed d
             (fun _ _ _ => [PInt (random_seed d)])); [done|].
    intros. apply case_body_seed.
  - rewrite <- concat_replicate_singleton.
    unfold n_cases. rewrite <- !concat_replicate_mul.
    by rewrite !flat_map_const, !length_seq.
Qed.
End RunFacts.

(** C6. A run of [selection_module] goes through the (site, level,
    measure) combinations in the order of its three loops, sites outermost,
    then levels, then measures, and calls the seven stages once for each:
    what it has done when an exception ends it is a prefix of that, and a
    run that ends well has done all of it,
    [len(site_code) * len(probability_of_exceedance_num) *
    len(intensity_measures)] Cases. *)
Theorem one_pipeline_pass_per_combination `{Collaborators}
    (d : input_data F) (w : W) :
  observe obs_case (run_log d w) `prefix_of` combinations d
  /\ observe obs_stage (run_log d w)
       `prefix_of` concat (replicate (n_cases d) pipeline)
  /\ length (combinations d) = n_cases d
  /\ (is_ok (run_result d w) = true ->
      observe obs_case (run_log d w) = combinations d
      /\ observe obs_stage (run_log d w)
         = concat (replicate (n_cases d) pipeline)).
Proof.
  destruct (run_produces obs_case d w _ (selection_module_cases d)) as [Hc Hc'].
  destruct (run_produces obs_stage d w _ (selection_module_stages d)) as [Hs Hs'].
  split; [exact Hc|]. split; [exact Hs|].
  split; [apply combinations_length|]. intros Hok. split; auto.
Qed.

(** The example of the docstring under the stand-ins: six sites, one level,
    one measure. *)
Lemma one_pipeline_pass_per_combination_witness :
  observe obs_case
    (@run_log decimal Demo.collaborators Demo.example_data Demo.start)
  = @combinations decimal Demo.example_data
  /\ observe obs_stage
       (@run_log decimal Demo.collaborators Demo.example_data Demo.start)
     = concat (replicate (@n_cases decimal Demo.example_data) pipeline).
Proof.
  apply (@one_pipeline_pass_per_combination decimal Demo.collaborators
           Demo.example_data Demo.start).
  vm_compute. reflexivity.
Defined.

Lemma example_run_cases :
  observe obs_case
    (@run_log decimal Demo.collaborators Demo.example_data Demo.start)
  = [(0, 2, "AvgSA"); (1, 2, "AvgSA"); (2, 2, "AvgSA"); (3, 2, "AvgSA");
     (4, 2, "AvgSA"); (5, 2, "AvgSA")].
Proof. vm_compute. reflexivity. Qed.

(** ** Parameters given per probability-of-exceedance level *)

Section PerPoe.
Context `{PyNum}.

(** Lines 351-383: a value that does not read as a float is read as an
    array, and an array of another length than the number of levels ends
    the program. *)
Lemma per_poe_fits input key msg n x :
  per_poe input key msg n = Ok x -> fits n x.
Proof.
  unfold per_poe. intros Hp. bind_inv Hp.
  destruct (py_float a); [by injection Hp as <-|].
  bind_inv Hp. destruct (negb (n =? length a0)%nat) eqn:Hn; [discriminate|].
  injection Hp as <-. simpl.
  apply negb_false_iff, Nat.eqb_eq in Hn. done.
Qed.

Lemma per_poe_mismatch input key msg n s l :
  input !! key = Some s -> py_float s = None ->
  float_array (PyStr.items "{}" s) = Ok l -> length l <> n ->
  per_poe input key msg n = Err (SystemExit msg).
Proof.
  intros Hs Hf Hl Hn. unfold per_poe, getitem. rewrite Hs. simpl.
  rewrite Hf, Hl. simpl.
  destruct (n =? length l)%nat eqn:Hnl; [|done].
  apply Nat.eqb_eq in Hnl. congruence.
Qed.
End PerPoe.

Lemma selection_module_per_poe `{Collaborators} (d : input_data F) :
  produces obs_per_poe (selection_module d)
    (flat_map (fun '(_, jj, _) => per_poe_values d jj) (case_indices d)).
Proof.
  eapply produces_eq.
  - apply (selection_module_produces obs_per_poe d
             (fun _ jj _ => per_poe_values d jj)); [done|].
    intros ii jj im site rlz poe m rd rm vars _ _ _ Hm Hrd Hrm.
    unfold per_poe_values.
    rewrite (select_applied _ _ _ Hm), (select_applied _ _ _ Hrd),
      (select_applied _ _ _ Hrm).
    apply case_body_per_poe.
  - unfold case_indices. rewrite flat_map_nested.
    apply flat_map_ext. intros ii. rewrite flat_map_nested.
    apply flat_map_ext. intros jj. by rewrite flat_map_fmap.
Qed.

(** C8. For [maxsf_input], [radius_dist_input] and [radius_mag_input] as
    [read_input_data] returns them: a sequence has as many entries as there
    are probability-of-exceedance levels (a file where it has not ends with
    an error), and in every run each Case at level [jj] is handed the entry
    [jj] of a sequence, and a scalar as it is. *)
Theorem per_level_parameters `{Collaborators} (fileini : list string)
    (d : input_data F) :
  read_input_data fileini = Ok d ->
  fits (length (probability_of_exceedance_num d)) (maxsf_input d)
  /\ fits (length (probability_of_exceedance_num d)) (radius_dist_input d)
  /\ fits (length (probability_of_exceedance_num d)) (radius_mag_input d)
  /\ forall w,
      observe obs_per_poe (run_log d w)
        `prefix_of` flat_map (fun '(_, jj, _) => per_poe_values d jj)
                      (case_indices d)
      /\ (is_ok (run_result d w) = true ->
          observe obs_per_poe (run_log d w)
          = flat_map (fun '(_, jj, _) => per_poe_values d jj)
              (case_indices d)).
Proof.
  intros Hd. apply extract_ok in Hd as (_ & _ & _ & _ & Hm & Hrd & Hrm).
  apply per_poe_fits in Hm, Hrd, Hrm. repeat (split; [done|]).
  intros w. apply run_produces, selection_module_per_poe.
Qed.

Lemma scalar_maxsf_read :
  @read_input_data decimal Demo.scalar_maxsf = Ok Demo.scalar_maxsf_data.
Proof. vm_compute. reflexivity. Qed.

(** One site, two levels, one measure; [maxsf] a scalar, the two radii
    sequences. *)
Lemma per_level_parameters_witness :
  @fits QArith_base.Q 2 (maxsf_input Demo.scalar_maxsf_data)
  /\ @fits QArith_base.Q 2 (radius_dist_input Demo.scalar_maxsf_data)
  /\ @fits QArith_base.Q 2 (radius_mag_input Demo.scalar_maxsf_data)
  /\ observe obs_per_poe
       (@run_log decimal Demo.collaborators Demo.scalar_maxsf_data Demo.start)
     = flat_map
         (fun '(_, jj, _) =>
            @per_poe_values decimal Demo.collaborators
              Demo.scalar_maxsf_data jj)
         (@case_indices decimal Demo.scalar_maxsf_data).
Proof.
  destruct (@per_level_parameters decimal Demo.collaborators Demo.scalar_maxsf
              Demo.scalar_maxsf_data scalar_maxsf_read)
    as (Hm & Hrd & Hrm & Hrun).
  split; [exact Hm|]. split; [exact Hrd|]. split; [exact Hrm|].
  apply (Hrun Demo.start). vm_compute. reflexivity.
Defined.

Lemma scalar_maxsf_run :
  map Demo.show
    (observe obs_per_poe
       (@run_log decimal Demo.collaborators Demo.scalar_maxsf_data Demo.start))
  = ["50/1"; "1/2"; "5/2"; "5/2"; "60/1"; "1/4"; "5/2"; "5/2"].
Proof. vm_compute. reflexivity. Qed.

(** Two maximum scale factors for one level: the program ends with the
    message of line 360. *)
Lemma two_maxsf_rejected :
  @read_input_data decimal Demo.two_maxsf
  = Err (SystemExit
           "Error: maxsf must be of the same size of probability_of_exceedance").
Proof. vm_compute. reflexivity. Qed.

(** ** Runs under the collaborators of the specification *)

Section Determinism.
Context `{PyNum}.
Variable O : Type.
Variable Rng : Type.
Variable reseed : pyval F O -> Rng.
Variable draw : Rng -> list (pyval F O) -> result (pyval F O) * Rng.
Variable stage : callee -> list (pyval F O) -> result (pyval F O).
Variable getitem_fn : O -> pyval F O -> result (pyval F O).
Variable iter_fn : O -> result (list (pyval F O)).

Abbreviation SC :=
  (spec_collaborators O Rng reseed draw stage getitem_fn iter_fn).
Abbreviation stab :=
  (stable O Rng reseed draw stage getitem_fn iter_fn).

Lemma stable_ret {A} (a : A) : stab (@ret _ SC A a).
Proof. intros s1 s2 Hs. done. Qed.

Lemma stable_lift {A} (r : result A) : stab (@lift _ SC A r).
Proof. intros s1 s2 Hs. done. Qed.

Lemma stable_print line : stab (@print _ SC line).
Proof.
  intros [[g1 fs1] log1] [[g2 fs2] log2] [Hfs Hlog]. simpl in *. subst.
  done.
Qed.

Lemma stable_exists_path p : stab (@exists_path _ SC p).
Proof.
  intros [[g1 fs1] log1] [[g2 fs2] log2] [Hfs Hlog]. simpl in *. subst.
  done.
Qed.

(** A call leaves the generator behind only through [simulate_spectra],
    which seeds it anew. *)
Lemma stable_call c args : stab (@call _ SC c args).
Proof.
  intros [[g1 fs1] log1] [[g2 fs2] log2] [Hfs Hlog]. simpl in *. subst.
  unfold call. simpl. unfold spec_call.
  destruct c; simpl; try done.
  - destruct args as [|seed rest]; [done|].
    by destruct (draw (reseed seed) rest).
  - destruct args as [|[] []]; done.
Qed.

Lemma stable_bind {A B} (m : @M _ SC A) (k : A -> @M _ SC B) :
  stab m -> (forall a, stab (k a)) -> stab (bind m k).
Proof.
  intros Hm Hk s1 s2 Hs. unfold bind.
  destruct (Hm s1 s2 Hs) as [Hr Hs'].
  destruct (m s1) as [r1 s1'], (m s2) as [r2 s2']. simpl in *. subst r2.
  destruct r1 as [a|e]; [by apply Hk | done].
Qed.

Lemma stable_if {A} (b : bool) (m1 m2 : @M _ SC A) :
  stab m1 -> stab m2 -> stab (if b then m1 else m2).
Proof. by destruct b. Qed.

Lemma stable_for_in {A S} (xs : list A) (body : A -> S -> @M _ SC S) :
  (forall x s, stab (body x s)) -> forall s, stab (for_in xs body s).
Proof.
  intros Hbody. induction xs as [|x xs IH]; intros s; simpl.
  - apply stable_ret.
  - apply stable_bind; [apply Hbody | exact IH].
Qed.

Ltac stabilize :=
  cbv zeta;
  repeat first
    [ apply stable_bind; [|intros ?]
    | apply stable_ret | apply stable_lift | apply stable_print
    | apply stable_call | apply stable_exists_path | apply stable_if ];
  cbv zeta.

Lemma stable_case_body d ii jj im site rlz poe maxsf radius_dist radius_mag vars :
  stab (@case_body _ SC d ii jj im site rlz poe maxsf radius_dist
          radius_mag vars).
Proof. unfold case_body. stabilize. Qed.

Lemma stable_selection_module d : stab (@selection_module _ SC d).
Proof.
  unfold selection_module.
  apply stable_bind; [apply stable_print | intros _].
  apply stable_bind; [|intros _; apply stable_ret].
  apply stable_for_in. intros ii vars. unfold site_body.
  do 2 (apply stable_bind; [apply stable_lift | intros ?]).
  apply stable_for_in. intros jj vars'. unfold poe_body.
  do 4 (apply stable_bind; [apply stable_lift | intros ?]).
  apply stable_for_in. intros im vars''. apply stable_case_body.
Qed.
End Determinism.


Lemma seeded_runs_example :
  map Demo.show
    (observe obs_seed
       (@run_log decimal Demo.collaborators Demo.example_data (0%nat, ∅)))
  = ["333"; "333"; "333"; "333"; "333"; "333"]
  /\ map Demo.show
       (observe obs_seed
          (@run_log decimal Demo.collaborators Demo.example_data (41%nat, ∅)))
     = ["333"; "333"; "333"; "333"; "333"; "333"].
Proof. split; vm_compute; reflexivity. Qed.

(** ** Exceptions *)

Section Exceptions.
Context `{Collaborators}.

Lemma index_err {A} (l : list A) i e : index l i = Err e -> e = IndexError.
Proof. unfold index. destruct (l !! i); [discriminate | by intros [= <-]]. Qed.

Lemma select_err {A} (x : scalar_or_seq A) jj e :
  select x jj = Err e -> e = IndexError.
Proof. destruct x; simpl; [discriminate | apply index_err]. Qed.

Lemma bind_lift_err {A B} (r : result A) (k : A -> M B) s e s' :
  bind (lift r) k s = (Err e, s') ->
  r = Err e \/ exists a, r = Ok a /\ k a s = (Err e, s').
Proof.
  unfold bind, lift. destruct r as [a|e0]; [eauto|].
  intros [= -> _]. by left.
Qed.

(** No handler: a loop whose body raises ends there, in the state the
    body left, and the remaining turns are not taken. *)
Lemma for_in_err {A S} (xs : list A) (body : A -> S -> M S) e s' :
  forall v s,
    for_in xs body v s = (Err e, s') ->
    exists pre x post v1 s1,
      xs = pre ++ x :: post
      /\ for_in pre body v s = (Ok v1, s1)
      /\ body x v1 s1 = (Err e, s').
Proof.
  induction xs as [|x xs IH]; intros v s; simpl; [discriminate|].
  unfold bind at 1. destruct (body x v s) as [[v1|e1] s1] eqn:Hx.
  - intros Hrest. apply IH in Hrest as (pre & y & post & v2 & s2 & -> & Hpre & Hy).
    exists (x :: pre), y, post, v2, s2. split; [done|]. split; [|done].
    simpl. unfold bind. by rewrite Hx.
  - intros [= -> ->]. exists [], x, xs, v, s. done.
Qed.

(** A driver whose lists cover the loops finds every entry it looks
    up. *)
Lemma index_covered {A} (l : list A) i n :
  (i < n)%nat -> (n <= length l)%nat -> exists x, index l i = Ok x.
Proof.
  intros Hi Hn. unfold index.
  destruct (lookup_lt_is_Some_2 l i) as [x ->]; [lia | eauto].
Qed.

Lemma select_covered {A} (x : scalar_or_seq A) n jj :
  covers n x -> (jj < n)%nat -> exists v, select x jj = Ok v.
Proof.
  destruct x as [v|l]; simpl; [eauto|]. intros Hn Hjj.
  by apply (index_covered l jj n).
Qed.

Lemma fits_covers {A} (x : scalar_or_seq A) n : fits n x -> covers n x.
Proof. destruct x as [v|l]; simpl; [done | intros ->; lia]. Qed.

Lemma index_in_range {A} (l : list A) i x :
  index l i = Ok x -> (i < length l)%nat.
Proof.
  unfold index. destruct (l !! i) as [y|] eqn:Hl; [|discriminate].
  intros _. by apply lookup_lt_Some in Hl.
Qed.

(** The turns of a loop over [0 .. n-1] around the turn [i]. *)
Lemma seq_around i n :
  (i < n)%nat -> seq 0 n = seq 0 i ++ i :: seq (S i) (n - S i).
Proof.
  intros Hi. replace n with (i + S (n - S i))%nat at 1 by lia.
  by rewrite seq_app.
Qed.

Lemma seq_cut n pre x post :
  seq 0 n = pre ++ x :: post -> pre = seq 0 x /\ (x < n)%nat.
Proof.
  intros Heq.
  assert (Hlen : (length pre < n)%nat).
  { apply (f_equal length) in Heq.
    rewrite length_seq, length_app in Heq. simpl in Heq. lia. }
  rewrite (seq_around _ _ Hlen) in Heq.
  apply app_inj_1 in Heq as [Hpre Hx]; [|by rewrite length_seq].
  injection Hx as Hx _. subst x. done.
Qed.

(** No handler, the other way round: when the turns before [x] end well
    and the turn [x] raises, the loop raises, in the state that turn
    left. *)
Lemma for_in_raise {A S} (pre : list A) (body : A -> S -> M S) x post e s' :
  forall v s v1 s1,
    for_in pre body v s = (Ok v1, s1) ->
    body x v1 s1 = (Err e, s') ->
    for_in (pre ++ x :: post) body v s = (Err e, s').
Proof.
  induction pre as [|y pre IH]; intros v s v1 s1; simpl.
  - intros [= -> ->] Hx. unfold bind. by rewrite Hx.
  - unfold bind. destruct (body y v s) as [[v2|e2] s2]; [|discriminate].
    apply IH.
Qed.

Lemma bind_lift_ok {A B} (r : result A) (k : A -> M B) a s :
  r = Ok a -> bind (lift r) k s = k a s.
Proof. by intros ->. Qed.

Lemma for_in_err_at {S} n (body : nat -> S -> M S) e s' v s :
  for_in (seq 0 n) body v s = (Err e, s') ->
  exists i v1 s1,
    (i < n)%nat /\ for_in (seq 0 i) body v s = (Ok v1, s1)
    /\ body i v1 s1 = (Err e, s').
Proof.
  intros Hf.
  apply for_in_err in Hf as (pre & i & post & v1 & s1 & Hseq & Hpre & Hi).
  apply seq_cut in Hseq as [-> Hlt]. by exists i, v1, s1.
Qed.

Lemma bind_lift_covered {A B} (r : result A) (k : A -> M B) s e s' :
  (exists a, r = Ok a) -> bind (lift r) k s = (Err e, s') ->
  exists a, r = Ok a /\ k a s = (Err e, s').
Proof.
  intros [a ->] Hb. apply bind_lift_err in Hb as [Hr | Hk]; [discriminate|].
  exact Hk.
Qed.

(** A Case that is reached and raises ends the run. *)
Lemma raise_ends_the_run d w ii jj im site rlz poe maxsf radius_dist
    radius_mag vars s e s' :
  reaches d w ii jj im site rlz poe maxsf radius_dist radius_mag vars s ->
  case_body d ii jj im site rlz poe maxsf radius_dist radius_mag vars s
  = (Err e, s') ->
  run d w = (Err e, s').
Proof.
  intros (Hsite & Hrlz & Hpoe & Hm & Hrd & Hrm & Him
          & v0 & s0 & v1 & s1 & Hsites & Hpoes & Hims) Hcase.
  assert (Hlevel : poe_body d ii site rlz jj v1 s1 = (Err e, s')).
  { unfold poe_body.
    rewrite (bind_lift_ok _ _ _ _ Hpoe), (bind_lift_ok _ _ _ _ Hm),
      (bind_lift_ok _ _ _ _ Hrd), (bind_lift_ok _ _ _ _ Hrm).
    rewrite (seq_around _ _ Him). by eapply for_in_raise. }
  assert (Hone : site_body d ii v0 s0 = (Err e, s')).
  { unfold site_body.
    rewrite (bind_lift_ok _ _ _ _ Hsite), (bind_lift_ok _ _ _ _ Hrlz).
    rewrite (seq_around _ _ (index_in_range _ _ _ Hpoe)).
    by eapply for_in_raise. }
  unfold run, selection_module. unfold bind at 1, print. simpl.
  unfold bind at 1.
  rewrite (seq_around _ _ (index_in_range _ _ _ Hsite)).
  by rewrite (for_in_raise _ _ _ _ _ _ _ _ _ _ Hsites Hone).
Qed.

(** The exception of a run is the exception of a Case it reached. *)
Lemma run_err_in_a_case d w e :
  drives d -> run_result d w = Err e ->
  exists ii jj im site rlz poe maxsf radius_dist radius_mag vars s,
    reaches d w ii jj im site rlz poe maxsf radius_dist radius_mag vars s
    /\ case_body d ii jj im site rlz poe maxsf radius_dist radius_mag vars s
       = (Err e, snd (run d w)).
Proof.
  intros (Hrlz & Hm & Hrd & Hrm) He. unfold run_result, run in *.
  destruct (selection_module d (w, [])) as [r s'] eqn:Hrun.
  simpl in He. subst r. simpl.
  unfold selection_module, bind at 1, print in Hrun. simpl in Hrun.
  unfold bind at 1 in Hrun.
  destruct (for_in _ _ _ _) as [[v|e0] s0] eqn:Hsites; [discriminate|].
  injection Hrun as -> ->.
  apply for_in_err_at in Hsites as (ii & v0 & s0' & Hii & Hbefore & Hsite).
  unfold site_body in Hsite.
  apply bind_lift_covered in Hsite as (site & Hs & Hsite);
    [|by apply (index_covered _ _ (length (site_code d)))].
  apply bind_lift_covered in Hsite as (rlz & Hr & Hsite);
    [|by apply (index_covered _ _ (length (site_code d)))].
  apply for_in_err_at in Hsite as (jj & v1 & s1 & Hjj & Hlevels & Hpoe).
  unfold poe_body in Hpoe.
  apply bind_lift_covered in Hpoe as (poe & Hp & Hpoe);
    [|by apply (index_covered _ _ (length (probability_of_exceedance_num d)))].
  apply bind_lift_covered in Hpoe as (maxsf & Hmx & Hpoe);
    [|by eapply select_covered].
  apply bind_lift_covered in Hpoe as (rd & Hrdx & Hpoe);
    [|by eapply select_covered].
  apply bind_lift_covered in Hpoe as (rm & Hrmx & Hpoe);
    [|by eapply select_covered].
  apply for_in_err_at in Hpoe as (im & v2 & s2 & Him & Hmeasures & Hcase).
  exists ii, jj, im, site, rlz, poe, maxsf, rd, rm, v2, s2.
  split; [|exact Hcase].
  repeat (split; [done|]). by exists v0, s0', v1, s1.
Qed.

Lemma parsed_drives (fileini : list string) (d : input_data F) :
  read_input_data fileini = Ok d -> drives d.
Proof.
  intros Hd.
  pose proof (extract_ok _ _ Hd) as (_ & _ & _ & Hrlz & Hm & Hrd & Hrm).
  apply per_poe_fits in Hm, Hrd, Hrm.
  split; [lia|]. repeat split; by apply fits_covers.
Qed.
End Exceptions.

(** ** A stage that raises whenever it is called *)

Section Halting.
Context `{Collaborators}.
Context {X : Type} (obs : event F Obj -> list X).

Lemma halts_eq {A} (m : M A) l l' : halts obs m l -> l = l' -> halts obs m l'.
Proof. by intros Hm <-. Qed.

Lemma halts_call c args l :
  (forall args' w, is_ok (fst (call_fn c args' w)) = false) ->
  obs (Call c args) = l -> halts obs (call c args) l.
Proof.
  intros Hfail <- s. exists [Call c args]. unfold call.
  specialize (Hfail args (fst s)).
  destruct (call_fn c args (fst s)) as [r w']. simpl in *.
  split; [done|]. split; [done|].
  unfold observe. simpl. by rewrite app_nil_r.
Qed.

Lemma halts_bind_l {A B} (m : M A) (k : A -> M B) l :
  halts obs m l -> halts obs (bind m k) l.
Proof.
  intros Hm s. destruct (Hm s) as (new & Hlog & Hr & Hpre).
  exists new. unfold bind.
  destruct (m s) as [[a|e] s1]; [discriminate|]. done.
Qed.

Lemma halts_bind_r {A B} (m : M A) (k : A -> M B) l1 l2 :
  produces obs m l1 -> (forall a, halts obs (k a) l2) ->
  halts obs (bind m k) (l1 ++ l2).
Proof.
  intros Hm Hk s. unfold bind.
  destruct (Hm s) as (new1 & Hlog1 & Hpre1 & Hok1).
  destruct (m s) as [[a|e] s1]; simpl in *.
  - specialize (Hok1 eq_refl).
    destruct (Hk a s1) as (new2 & Hlog2 & Hr2 & Hpre2).
    exists (new1 ++ new2). rewrite Hlog2, Hlog1, <- app_assoc.
    split; [done|]. split; [done|].
    rewrite observe_app, Hok1. by apply prefix_app.
  - exists new1. split; [done|]. split; [done|]. by apply prefix_app_r.
Qed.

Lemma halts_lift_bind {A B} (r : result A) (k : A -> M B) l :
  (forall a, r = Ok a -> halts obs (k a) l) ->
  halts obs (bind (lift r) k) l.
Proof.
  intros Hk s. unfold bind, lift. destruct r as [a|err].
  - by apply Hk.
  - exists []. simpl. rewrite app_nil_r.
    split; [done|]. split; [done | apply prefix_nil].
Qed.

Lemma halts_stopped {A} (m : M A) l : halts obs m l -> stopped obs m l.
Proof.
  intros Hm s. destruct (Hm s) as (new & Hlog & Hr & Hpre).
  exists new. split; [done|]. split; [done|]. by rewrite Hr.
Qed.

Lemma stopped_lift_bind {A B} (r : result A) (k : A -> M B) l :
  (forall a, r = Ok a -> stopped obs (k a) l) ->
  stopped obs (bind (lift r) k) l.
Proof.
  intros Hk s. unfold bind, lift. destruct r as [a|err].
  - by apply Hk.
  - exists []. simpl. rewrite app_nil_r.
    split; [done|]. split; [apply prefix_nil | done].
Qed.

(** A loop whose turns either raise or show nothing stops at the first
    turn that raises. *)
Lemma stopped_for_in {A S} (xs : list A) (body : A -> S -> M S) l :
  (forall x v, stopped obs (body x v) l) ->
  forall v, stopped obs (for_in xs body v) l.
Proof.
  intros Hbody. induction xs as [|x xs IH]; intros v s; simpl.
  - exists []. rewrite app_nil_r. split; [done|]. split; [apply prefix_nil | done].
  - unfold bind. destruct (Hbody x v s) as (new1 & Hlog1 & Hpre1 & Hok1).
    destruct (body x v s) as [[v1|e] s1]; simpl in *.
    + destruct (IH v1 s1) as (new2 & Hlog2 & Hpre2 & Hok2).
      exists (new1 ++ new2). rewrite Hlog2, Hlog1, <- app_assoc.
      split; [done|]. rewrite observe_app, (Hok1 eq_refl). simpl.
      by split.
    + exists new1. split; [done|]. by split.
Qed.

Lemma stopped_bind_quiet {A B} (m : M A) (k : A -> M B) l :
  produces obs m [] -> (forall a, stopped obs (k a) l) ->
  stopped obs (bind m k) l.
Proof.
  intros Hm Hk s. unfold bind.
  destruct (Hm s) as (new1 & Hlog1 & Hpre1 & _).
  apply prefix_nil_inv in Hpre1.
  destruct (m s) as [[a|e] s1]; simpl in *.
  - destruct (Hk a s1) as (new2 & Hlog2 & Hpre2 & Hok2).
    exists (new1 ++ new2). rewrite Hlog2, Hlog1, <- app_assoc.
    split; [done|]. rewrite observe_app, Hpre1. simpl. by split.
  - exists new1. split; [done|]. rewrite Hpre1.
    split; [apply prefix_nil | done].
Qed.

Lemma stopped_bind_ret {A B} (m : M A) (b : B) l :
  stopped obs m l -> stopped obs (bind m (fun _ => ret b)) l.
Proof.
  intros Hm s. unfold bind, ret.
  destruct (Hm s) as (new & Hlog & Hpre & Hok).
  exists new. by destruct (m s) as [[a|e] s1].
Qed.
End Halting.

(** Walk through a computation up to the call of the stage that raises. *)
Ltac halt_step Hfail :=
  lazymatch goal with
  | |- halts _ (bind (lift _) _) _ =>
      apply halts_lift_bind; intros ? ?
  | |- halts _ (bind (call _ _) _) _ =>
      first [ apply halts_bind_l, halts_call; [exact Hfail | lazy; reflexivity]
            | eapply halts_bind_r;
              [apply produces_call; lazy; reflexivity | intros ?] ]
  | |- halts _ (bind _ _) _ =>
      eapply halts_bind_r; [produce | intros ?]
  end.

Section StageRaises.
Context `{Collaborators}.

(** When [c] raises whenever it is called, a Case ends with an exception,
    having called at most the stages up to [c], each once. *)
Lemma case_body_halts c d ii jj im site rlz poe maxsf radius_dist radius_mag
    vars :
  c ∈ case_calls_in_order ->
  (forall args w, is_ok (fst (call_fn c args w)) = false) ->
  halts obs_callee
    (case_body d ii jj im site rlz poe maxsf radius_dist radius_mag vars)
    (upto c case_calls_in_order).
Proof.
  intros Hin Hfail. unfold case_body. cbv zeta.
  destruct c;
    try (eapply halts_eq;
         [repeat (halt_step Hfail; cbv zeta) | reflexivity]).
  exfalso. revert Hin. clear. compute_done.
Qed.

Lemma selection_module_stopped c d :
  c ∈ case_calls_in_order ->
  (forall args w, is_ok (fst (call_fn c args w)) = false) ->
  stopped obs_callee (selection_module d) (upto c case_calls_in_order).
Proof.
  intros Hin Hfail. unfold selection_module.
  apply stopped_bind_quiet; [by apply produces_print | intros _].
  apply stopped_bind_ret, stopped_for_in. intros ii v. unfold site_body.
  do 2 (apply stopped_lift_bind; intros ? _).
  apply stopped_for_in. intros jj v'. unfold poe_body.
  do 4 (apply stopped_lift_bind; intros ? _).
  apply stopped_for_in. intros im v''.
  by apply halts_stopped, case_body_halts.
Qed.

Lemma run_stopped c d w :
  c ∈ case_calls_in_order ->
  (forall args w', is_ok (fst (call_fn c args w')) = false) ->
  observe obs_callee (run_log d w) `prefix_of` upto c case_calls_in_order
  /\ (is_ok (run_result d w) = true -> observe obs_callee (run_log d w) = []).
Proof.
  intros Hin Hfail. unfold run_log, run_result, run.
  destruct (selection_module_stopped c d Hin Hfail (w, []))
    as (new & Hlog & Hpre & Hok).
  simpl in Hlog. rewrite Hlog. by split.
Qed.
End StageRaises.

(** C4, as the code has it. [selection_module] has no handler, so an
    exception raised in a Case is fatal to the whole run. When the body of
    a Case the run has reached raises [e], the run ends with [e] in the
    state that Case left at that point: nothing is called or printed
    after it, the Case is not carried on and no later Case is begun.
    Conversely, on parameters whose lists cover the loops, as all those
    are that [read_input_data] returns, the exception a run ends with is
    the exception of such a Case. And when one of the nine functions a
    Case calls raises whenever it is called, a run calls it once at most
    and nothing after it: what the run has called is a prefix of the
    calls of one Case up to that function, and a run that ends well has
    called nothing. *)
Theorem exception_ends_the_run `{Collaborators} (d : input_data F) (w : W) :
  (forall ii jj im site rlz poe maxsf radius_dist radius_mag vars s e s',
      reaches d w ii jj im site rlz poe maxsf radius_dist radius_mag vars s ->
      case_body d ii jj im site rlz poe maxsf radius_dist radius_mag vars s
      = (Err e, s') ->
      run d w = (Err e, s'))
  /\ (forall e,
        drives d -> run_result d w = Err e ->
        exists ii jj im site rlz poe maxsf radius_dist radius_mag vars s,
          reaches d w ii jj im site rlz poe maxsf radius_dist radius_mag
            vars s
          /\ case_body d ii jj im site rlz poe maxsf radius_dist radius_mag
               vars s
             = (Err e, snd (run d w)))
  /\ (forall fileini, read_input_data fileini = Ok d -> drives d)
  /\ (forall c,
        c ∈ case_calls_in_order ->
        (forall args w', is_ok (fst (call_fn c args w')) = false) ->
        observe obs_callee (run_log d w)
          `prefix_of` upto c case_calls_in_order
        /\ (is_ok (run_result d w) = true ->
            observe obs_callee (run_log d w) = [])).
Proof.
  split; [|split; [|split]].
  - intros. by eapply raise_ends_the_run.
  - intros e Hd He. by apply run_err_in_a_case.
  - intros fileini Hd. by eapply parsed_drives.
  - intros c Hin Hfail. by apply run_stopped.
Qed.

(** Two sites, the first unknown to the hazard results: the first Case
    raises at its first call, and the run ends there. *)
Lemma exception_ends_the_run_witness :
  @run decimal Demo.collaborators Demo.unknown_site_first_data Demo.start
  = (Err (Raised "InputDataError"),
     snd (@case_body decimal Demo.collaborators Demo.unknown_site_first_data
            0 0 0 7 0 2 (Demo.q 3 1) (Demo.q 50 1) (Demo.q 1 2)
            {| lv_ind := 1; lv_vs30 := PList [PStr "300"; PStr "300"] |}
            (Demo.start, [Print "Inputs loaded, starting selection...."]))).
Proof.
  apply (proj1 (@exception_ends_the_run decimal Demo.collaborators
                  Demo.unknown_site_first_data Demo.start)
           0%nat 0%nat 0%nat 7 0 2 (Demo.q 3 1) (Demo.q 50 1) (Demo.q 1 2)
           {| lv_ind := 1; lv_vs30 := PList [PStr "300"; PStr "300"] |}
           (Demo.start, [Print "Inputs loaded, starting selection...."])).
  - repeat (split; [reflexivity|]). split; [vm_compute; lia|].
    exists {| lv_ind := 1; lv_vs30 := PList [PStr "300"; PStr "300"] |},
      (Demo.start, [Print "Inputs loaded, starting selection...."]),
      {| lv_ind := 1; lv_vs30 := PList [PStr "300"; PStr "300"] |},
      (Demo.start, [Print "Inputs loaded, starting selection...."]).
    repeat split; reflexivity.
  - apply injective_projections; [vm_compute; reflexivity | reflexivity].
Defined.

(** C4, as stated, fails: the exception of the first Case ends the run at
    its first call; the Case of the second site, which by itself goes
    through, is never begun, and nothing is handed back to the caller
    but the exception. *)
Lemma failure_of_one_case_ends_the_others :
  @run_result decimal Demo.collaborators Demo.unknown_site_first_data Demo.start
  = Err (Raised "InputDataError")
  /\ @combinations decimal Demo.unknown_site_first_data
     = [(7, 2, "AvgSA"); (0, 2, "AvgSA")]
  /\ observe obs_case
       (@run_log decimal Demo.collaborators Demo.unknown_site_first_data
          Demo.start)
     = [(7, 2, "AvgSA")]
  /\ observe obs_callee
       (@run_log decimal Demo.collaborators Demo.unknown_site_first_data
          Demo.start)
     = [compute_conditioning_value]
  /\ @run_result decimal Demo.collaborators Demo.known_site_alone_data Demo.start
     = Ok tt
  /\ observe obs_callee
       (@run_log decimal Demo.collaborators Demo.known_site_alone_data
          Demo.start)
     = pipeline ++ [plot_final_selection; create_output_files].
Proof. repeat split; vm_compute; reflexivity. Qed.

(** ** The variable [vs30] *)

(** Take the first step off a computation in [H] that ended well. *)
Ltac bind_step H :=
  lazymatch type of H with
  | bind ?m _ ?s = (Ok _, _) =>
      let E := fresh "E" in
      unfold bind at 1 in H;
      destruct (m s) as [[?|?] ?] eqn:E;
      [cbv beta iota zeta in H | discriminate H]
  end.

Section Rebinding.
Context `{Collaborators}.

(** Line 114 assigns to the parameter [vs30]: a Case that ends well
    leaves in it the fifth value returned by its call of
    [inizialize_gmm], a call that was handed the value the variable had
    when the Case began. *)
Lemma case_body_rebinds_vs30 d ii jj im site rlz poe maxsf radius_dist
      radius_mag vars s vars' s' :
  case_body d ii jj im site rlz poe maxsf radius_dist radius_mag vars s
  = (Ok vars', s') ->
  exists args w1 r2 w2 o2,
    nth 12 args PNone = lv_vs30 vars
    /\ call_fn inizialize_gmm args w1 = (Ok r2, w2)
    /\ unpack 6 r2 = Ok o2
    /\ lv_vs30 vars' = nth_val o2 4.
Proof.
  unfold case_body. intros Hc. cbv zeta in Hc.
  do 7 bind_step Hc.
  match goal with
  | Hcall : call inizialize_gmm ?args ?s0 = (Ok ?r2, _),
    Hun : lift (unpack 6 ?r2) _ = (Ok ?o2, _) |- _ =>
      exists args, (fst s0), r2; unfold call in Hcall;
      destruct (call_fn inizialize_gmm args (fst s0)) as [r w2] eqn:Hfn;
      exists w2, o2; unfold lift in Hun
  end.
  repeat bind_step Hc. unfold ret in Hc.
  split; [reflexivity|]. split; [congruence|]. split; [congruence|].
  injection Hc as <- _. reflexivity.
Qed.
End Rebinding.

Lemma example_read :
  @read_input_data decimal Demo.example_ini = Ok Demo.example_data.
Proof. vm_compute. reflexivity. Qed.

Lemma unknown_site_first_read :
  @read_input_data decimal Demo.unknown_site_first
  = Ok Demo.unknown_site_first_data.
Proof. vm_compute. reflexivity. Qed.

Lemma known_site_alone_read :
  @read_input_data decimal Demo.known_site_alone
  = Ok Demo.known_site_alone_data.
Proof. vm_compute. reflexivity. Qed.

(** C1, on the example of the docstring (six sites, [Vs30] 300 for the
    first three and 600 for the others). The first Case hands
    [inizialize_gmm] the list of the file; every later Case hands it what
    the call of the Case before returned: a value computed in one Case is
    seen by the next. *)
Theorem vs30_of_one_case_reaches_the_next :
  map Demo.show
    (observe obs_vs30
       (@run_log decimal Demo.collaborators Demo.example_data Demo.start))
  = ["['300';'300';'300';'600';'600';'600';]"; "'300'"; "'300'"; "'300'";
     "'300'"; "'300'"]
  /\ Demo.show (@strs decimal Demo.collaborators (vs30_input Demo.example_data))
     = "['300';'300';'300';'600';'600';'600';]".
Proof. split; vm_compute; reflexivity. Qed.

(** C2, on the same example. The stages are called in order, once per
    Case; but the second stage of every Case after the first consumes an
    output of the second stage of the Case before, and the third stage of
    the Cases of the sites with [Vs30] 600 is handed the 300 of the first
    site. *)
Theorem stage_two_consumes_output_of_previous_case :
  observe obs_stage
    (@run_log decimal Demo.collaborators Demo.example_data Demo.start)
  = concat (replicate 6 pipeline)
  /\ map Demo.show
       (observe obs_vs30
          (@run_log decimal Demo.collaborators Demo.example_data Demo.start))
     = ["['300';'300';'300';'600';'600';'600';]"; "'300'"; "'300'"; "'300'";
        "'300'"; "'300'"]
  /\ map Demo.show
       (observe obs_screen_vs30
          (@run_log decimal Demo.collaborators Demo.example_data Demo.start))
     = ["'300'"; "'300'"; "'300'"; "'300'"; "'300'"; "'300'"].
Proof. repeat split; vm_compute; reflexivity. Qed.

(** ** [scale_acc] *)

Section ScaleAccFacts.
Context `{AccReaders}.

Lemma index_ok {A} (l : list A) i x : index l i = Ok x <-> l !! i = Some x.
Proof.
  unfold index. destruct (l !! i); split; intros [=]; by subst.
Qed.

(** The lines written for the points [k], [k+1], ..., [k+n-1]. *)
Lemma write_rows_ok path time acc sf i n : forall k u evs,
  write_rows path time acc sf i (seq k n) = (Ok u, evs) ->
  evs = zip_with (fun t x => FWrite path t (fmul x (nth i sf fzero)))
          (take n (drop k time)) (take n (drop k acc))
  /\ length evs = n.
Proof.
  induction n as [|n IH]; intros k u evs; simpl.
  - intros [= _ <-]. done.
  - destruct (index time k) as [t|] eqn:Ht; simpl; [|discriminate].
    destruct (index acc k) as [x|] eqn:Hx; simpl; [|discriminate].
    destruct (index sf i) as [s|] eqn:Hs; simpl; [|discriminate].
    destruct (write_rows path time acc sf i (seq (S k) n)) as [r evs'] eqn:Hw.
    intros [= -> <-]. apply IH in Hw as [Hevs Hlen].
    split; [|simpl; by rewrite Hlen]. rewrite Hevs.
    apply index_ok in Ht, Hx. rewrite (index_nth _ _ _ fzero Hs).
    by rewrite (drop_S _ _ _ Ht), (drop_S _ _ _ Hx).
Qed.

Lemma write_file_ok path time acc sf npts i u evs :
  write_file path time acc sf npts i = (Ok u, evs) ->
  evs = FOpen path :: scaled_rows path time acc npts (nth i sf fzero)
  /\ length (scaled_rows path time acc npts (nth i sf fzero))
     = Z.to_nat npts.
Proof.
  unfold write_file.
  destruct (write_rows path time acc sf i (seq 0 (Z.to_nat npts)))
    as [r rows] eqn:Hw.
  intros [= -> <-]. apply write_rows_ok in Hw as [-> Hlen].
  rewrite !drop_0 in *. done.
Qed.

Lemma scale_record_ok a i u evs :
  scale_record a i = (Ok u, evs) ->
  evs = files_of a i /\ complete a i.
Proof.
  unfold scale_record, files_of, complete.
  destruct (read_record a i) as [dat|] eqn:Hr; [|discriminate].
  destruct (write_file (out_name a i "1") _ _ _ _ _) as [[u1|] evs1] eqn:H1;
    [|discriminate].
  destruct (write_file (out_name a i "2") _ _ _ _ _) as [r2 evs2] eqn:H2.
  intros [= -> <-].
  apply write_file_ok in H1 as [-> Hl1], H2 as [-> Hl2].
  split; [done|]. by exists dat.
Qed.

Lemma scale_loop_ok a is_ : forall u evs,
  scale_loop a is_ = (Ok u, evs) ->
  evs = flat_map (files_of a) is_ /\ Forall (complete a) is_.
Proof.
  induction is_ as [|i is_ IH]; intros u evs; simpl.
  - intros [= _ <-]. done.
  - destruct (scale_record a i) as [[u1|] evs1] eqn:Hi; [|discriminate].
    destruct (scale_loop a is_) as [r evs'].
    intros [= -> <-]. apply scale_record_ok in Hi as [-> Hc].
    destruct (IH _ _ eq_refl) as [-> Hall]. split; [done | by constructor].
Qed.
End ScaleAccFacts.

Section ScaleAccEndsWell.
Context `{AccReaders}.

Lemma write_rows_succeeds path time acc sf i n : forall k,
  (k + n <= length time)%nat -> (k + n <= length acc)%nat ->
  (i < length sf)%nat ->
  is_ok (fst (write_rows path time acc sf i (seq k n))) = true.
Proof.
  induction n as [|n IH]; intros k Ht Hx Hs; simpl; [done|].
  unfold index.
  destruct (lookup_lt_is_Some_2 time k) as [t ->]; [lia|].
  destruct (lookup_lt_is_Some_2 acc k) as [x ->]; [lia|].
  destruct (lookup_lt_is_Some_2 sf i) as [s ->]; [lia|]. simpl.
  specialize (IH (S k)).
  destruct (write_rows path time acc sf i (seq (S k) n)) as [r evs].
  simpl in *. apply IH; lia.
Qed.

Lemma scale_record_succeeds a i :
  readable a i -> is_ok (fst (scale_record a i)) = true.
Proof.
  intros (dat & Hr & Ht1 & Hx1 & Ht2 & Hx2 & Hs).
  unfold scale_record, write_file. rewrite Hr.
  pose proof (write_rows_succeeds (out_name a i "1") (time1 dat)
                (inp_acc1 dat) (sa_sf a) i (Z.to_nat (npts1 dat)) 0%nat
                Ht1 Hx1 Hs) as H1.
  pose proof (write_rows_succeeds (out_name a i "2") (time2 dat)
                (inp_acc2 dat) (sa_sf a) i (Z.to_nat (npts2 dat)) 0%nat
                Ht2 Hx2 Hs) as H2.
  destruct (write_rows (out_name a i "1") _ _ _ _ _) as [[u1|] evs1];
    [|discriminate].
  by destruct (write_rows (out_name a i "2") _ _ _ _ _) as [[u2|] evs2].
Qed.

(** [scale_acc] ends without an exception when every record is readable. *)
Lemma scale_acc_ends_well a :
  Forall (readable a) (seq 0 (Z.to_nat (sa_n_gm a))) ->
  is_ok (fst (scale_acc a)) = true.
Proof.
  unfold scale_acc. generalize (seq 0 (Z.to_nat (sa_n_gm a))).
  intros is_ Hall. induction Hall as [|i is_ Hi _ IH]; simpl; [done|].
  apply scale_record_succeeds in Hi.
  destruct (scale_record a i) as [[u|] evs]; [|discriminate].
  by destruct (scale_loop a is_) as [r evs'].
Qed.
End ScaleAccEndsWell.



Lemma scale_example_files :
  snd (@scale_acc decimal Demo.readers Demo.scale_example)
  = [ FOpen "out/AvgSA-site_0-poe-2/GMR_time_scaled_acc_1_1.txt";
      FWrite "out/AvgSA-site_0-poe-2/GMR_time_scaled_acc_1_1.txt"
        (Demo.q 0 1) (Demo.q 1 5);
      FWrite "out/AvgSA-site_0-poe-2/GMR_time_scaled_acc_1_1.txt"
        (Demo.q 1 100) (Demo.q (-2) 5);
      FWrite "out/AvgSA-site_0-poe-2/GMR_time_scaled_acc_1_1.txt"
        (Demo.q 1 50) (Demo.q 3 5);
      FOpen "out/AvgSA-site_0-poe-2/GMR_time_scaled_acc_1_2.txt";
      FWrite "out/AvgSA-site_0-poe-2/GMR_time_scaled_acc_1_2.txt"
        (Demo.q 0 1) (Demo.q 0 1);
      FWrite "out/AvgSA-site_0-poe-2/GMR_time_scaled_acc_1_2.txt"
        (Demo.q 1 100) (Demo.q 1 2);
      FWrite "out/AvgSA-site_0-poe-2/GMR_time_scaled_acc_1_2.txt"
        (Demo.q 1 50) (Demo.q (-1) 1);
      FOpen "out/AvgSA-site_0-poe-2/GMR_time_scaled_acc_2_1.txt";
      FWrite "out/AvgSA-site_0-poe-2/GMR_time_scaled_acc_2_1.txt"
        (Demo.q 0 1) (Demo.q 1 4);
      FWrite "out/AvgSA-site_0-poe-2/GMR_time_scaled_acc_2_1.txt"
        (Demo.q 1 200) (Demo.q 1 8);
      FOpen "out/AvgSA-site_0-poe-2/GMR_time_scaled_acc_2_2.txt";
      FWrite "out/AvgSA-site_0-poe-2/GMR_time_scaled_acc_2_2.txt"
        (Demo.q 0 1) (Demo.q (-1) 4);
      FWrite "out/AvgSA-site_0-poe-2/GMR_time_scaled_acc_2_2.txt"
        (Demo.q 1 200) (Demo.q 1 16) ].
Proof. vm_compute. reflexivity. Qed.

(** * Further properties *)

(** ** The dictionary of the input file *)

Lemma read_line_leaves m line key :
  leaves key line -> read_line m line !! key = m !! key.
Proof.
  unfold leaves, binding, read_line.
  destruct (PyStr.split1 "=" (PyStr.strip line)) as [[k v]|]; [|done].
  simpl. intros Hne. apply lookup_insert_ne. congruence.
Qed.

Lemma fold_read_line_leaves ls key : forall m,
  Forall (leaves key) ls -> fold_left read_line ls m !! key = m !! key.
Proof.
  induction ls as [|l ls IH]; intros m Hall; simpl; [done|].
  apply Forall_cons in Hall as [Hl Hall].
  rewrite IH by done. by apply read_line_leaves.
Qed.

Lemma read_line_binding m line key value :
  binding line = Some (key, value) -> read_line m line = <[key := value]> m.
Proof.
  unfold binding, read_line.
  destruct (PyStr.split1 "=" (PyStr.strip line)) as [[k v]|]; [|done].
  by intros [= <- <-].
Qed.

Lemma read_line_no_binding m line :
  binding line = None -> read_line m line = m.
Proof.
  unfold binding, read_line.
  by destruct (PyStr.split1 "=" (PyStr.strip line)) as [[k v]|].
Qed.

(** X1. The value of a key is what the last line that binds it gives,
    stripped of white space; a key that no line binds is missing; and a
    line without [=] (a section header, an empty line) changes nothing,
    wherever it stands. *)
Theorem read_dict_last_binding (l1 l2 : list string) (line key : string) :
  (forall value, binding line = Some (key, value) ->
     Forall (leaves key) l2 ->
     read_dict (l1 ++ line :: l2) !! key = Some value)
  /\ (Forall (leaves key) l1 -> read_dict l1 !! key = None)
  /\ (binding line = None -> read_dict (l1 ++ line :: l2) = read_dict (l1 ++ l2)).
Proof.
  unfold read_dict. split; [|split].
  - intros value Hb Hl2. rewrite fold_left_app. simpl.
    rewrite fold_read_line_leaves by done.
    rewrite (read_line_binding _ _ _ _ Hb). apply lookup_insert_eq.
  - intros Hl1. by rewrite fold_read_line_leaves.
  - intros Hb. rewrite !fold_left_app. simpl. by rewrite read_line_no_binding.
Qed.

Lemma read_dict_last_binding_witness :
  read_dict (["nGM=30"; "[selection parameters]"] ++ " nGM = 40 " :: ["nLoop=10"])
    !! "nGM" = Some "40"
  /\ read_dict ["nLoop=10"] !! "nGM" = None
  /\ read_dict (["nGM=30"] ++ "[selection parameters]" :: ["nLoop=10"])
     = read_dict (["nGM=30"] ++ ["nLoop=10"]).
Proof.
  split; [|split].
  - apply (proj1 (read_dict_last_binding _ ["nLoop=10"] " nGM = 40 " "nGM")).
    + reflexivity.
    + repeat constructor; discriminate.
  - apply (proj1 (proj2 (read_dict_last_binding ["nLoop=10"] [] "" "nGM"))).
    repeat constructor; discriminate.
  - apply (proj2 (proj2 (read_dict_last_binding ["nGM=30"] ["nLoop=10"]
                           "[selection parameters]" ""))).
    reflexivity.
Defined.

(** ** More of what a successful [extract] says *)

Section ExtractShape.
Context `{PyNum}.

Lemma per_poe_key input key msg n x :
  per_poe input key msg n = Ok x -> is_Some (input !! key).
Proof.
  unfold per_poe. intros Hp. bind_inv Hp. apply getitem_ok in E. by eexists.
Qed.

Lemma optional_ok {A} input key (f : string -> result A) o :
  optional input key f = Ok o ->
  match input !! key with
  | Some v => exists a, f v = Ok a /\ o = Some a
  | None => o = None
  end.
Proof.
  unfold optional. destruct (input !! key) as [v|]; [|by intros [= <-]].
  intros Ho. bind_inv Ho. injection Ho as <-. eauto.
Qed.

Lemma extract_keys input d :
  extract input = Ok d -> Forall (fun key => is_Some (input !! key)) required_keys.
Proof.
  unfold extract. intros Hx. bind_inv Hx.
  repeat match goal with
         | Hg : getitem _ _ = Ok _ |- _ => apply getitem_ok in Hg
         | Hp : per_poe _ _ _ _ = Ok _ |- _ => apply per_poe_key in Hp
         end.
  unfold required_keys. repeat constructor; eauto.
Qed.

Lemma extract_shape input d :
  extract input = Ok d ->
  (exists s, input !! "site_code" = Some s
             /\ int_array (PyStr.items "{}" s) = Ok (site_code d))
  /\ (exists s, input !! "probability_of_exceedance_num" = Some s
                /\ int_array (PyStr.items "{}" s)
                   = Ok (probability_of_exceedance_num d))
  /\ length (vs30_input d) = length (site_code d)
  /\ length (vs30type d) = length (site_code d)
  /\ optional input "z2pt5"
       (site_list "Error: z2pt5 must be an array of the same length of site_code"
          (length (site_code d))) = Ok (z2pt5 d)
  /\ optional input "z1pt0"
       (site_list "Error: z1pt0 must be an array of the same length of site_code"
          (length (site_code d))) = Ok (z1pt0 d)
  /\ optional input "hypo_depth" to_float = Ok (hypo_depth d)
  /\ optional input "dip" to_float = Ok (dip d)
  /\ optional input "upper_sd" to_float = Ok (upper_sd d)
  /\ optional input "lower_sd" to_float = Ok (lower_sd d)
  /\ optional input "allowedRecs_Vs30"
       (fun v => float_array (PyStr.items "[]" v)) = Ok (allowed_recs_vs30 d)
  /\ optional input "allowedEC8code"
       (fun v => Ok (PyStr.items "{}" v)) = Ok (allowed_ec8_code d)
  /\ exists ims,
       im_loop input 0 (intensity_measures d)
         (im_init (intensity_measures d)) = Ok ims
       /\ avg_periods d = v_avg_periods ims
       /\ im_type_lbl d = v_im_type_lbl ims.
Proof.
  unfold extract. intros Hx. bind_inv Hx. injection Hx as <-. simpl.
  repeat match goal with
         | Hc : exit_if (negb (_ =? _)%nat) _ = Ok _ |- _ =>
             apply exit_if_length in Hc
         | Hg : getitem _ _ = Ok _ |- _ => apply getitem_ok in Hg
         end.
  repeat split; eauto.
Qed.

Lemma split_not_empty sep s : PyStr.split sep s <> [].
Proof.
  induction s as [|c s IH]; simpl; [done|].
  destruct (Ascii.eqb c sep); [done|]. by destruct (PyStr.split sep s).
Qed.

Lemma items_not_empty brackets s : PyStr.items brackets s <> [].
Proof.
  unfold PyStr.items. intros Hm. apply map_eq_nil in Hm.
  by apply split_not_empty in Hm.
Qed.

Lemma im_step_lengths input st i name st' :
  im_step input st i name = Ok st' ->
  length (v_tstar st') = length (v_tstar st)
  /\ length (v_im_type st') = S (length (v_im_type st))
  /\ length (v_im_type_lbl st') = S (length (v_im_type_lbl st)).
Proof.
  unfold im_step.
  destruct (String.eqb name "AvgSA").
  { intros Hs. bind_inv Hs. injection Hs as <-. simpl.
    rewrite !length_app. simpl. lia. }
  destruct (String.eqb (PyStr.prefix 2 name) "SA").
  { intros Hs. bind_inv Hs. injection Hs as <-. simpl.
    rewrite !length_app, length_insert. simpl. lia. }
  destruct (String.eqb (PyStr.prefix 3 name) "PGA"); [|discriminate].
  intros [= <-]. simpl. rewrite !length_app, length_insert. simpl. lia.
Qed.

Lemma im_loop_lengths input names : forall i st st',
  im_loop input i names st = Ok st' ->
  length (v_tstar st') = length (v_tstar st)
  /\ length (v_im_type st') = (length (v_im_type st) + length names)%nat
  /\ length (v_im_type_lbl st') = (length (v_im_type_lbl st) + length names)%nat.
Proof.
  induction names as [|name names IH]; intros i st st'; simpl.
  - intros [= <-]. lia.
  - intros Hl. bind_inv Hl. apply im_step_lengths in E as (? & ? & ?).
    apply IH in Hl as (? & ? & ?). lia.
Qed.
End ExtractShape.

Lemma length_not_nil {A} (l : list A) : l <> [] <-> length l <> 0%nat.
Proof. by destruct l. Qed.

(** X2. A file that is read to the end binds every key that
    [read_input_data] reads where no handler catches a [KeyError]: a file
    where one of these 31 keys is missing ends with an exception, and the
    empty file with the [KeyError] of the first of them. *)
Theorem required_keys_are_required `{PyNum} (fileini : list string) :
  (forall d, read_input_data fileini = Ok d ->
     Forall (fun key => is_Some (read_dict fileini !! key)) required_keys)
  /\ (forall key, key ∈ required_keys -> read_dict fileini !! key = None ->
        exists e, read_input_data fileini = Err e)
  /\ read_input_data [] = Err (KeyError "intensity_measures").
Proof.
  split; [|split].
  - intros d Hd. by apply extract_keys in Hd.
  - intros key Hin Hnone.
    destruct (read_input_data fileini) as [d|e] eqn:Hd; [|by eexists].
    apply extract_keys in Hd. rewrite Forall_forall in Hd.
    apply Hd in Hin as [v Hv]. congruence.
  - reflexivity.
Qed.

Lemma required_keys_are_required_witness :
  Forall (fun key => is_Some (read_dict Demo.example_ini !! key)) required_keys
  /\ exists e, @read_input_data decimal (Demo.example_without "nGM") = Err e.
Proof.
  split.
  - apply (proj1 (@required_keys_are_required decimal Demo.example_ini)
             Demo.example_data example_read).
  - apply (proj1 (proj2 (@required_keys_are_required decimal
                           (Demo.example_without "nGM"))) "nGM").
    + vm_compute. repeat (first [apply list_elem_of_here | apply list_elem_of_further]).
    + vm_compute. reflexivity.
Defined.

Lemma missing_key_message :
  @read_input_data decimal (Demo.example_without "nGM") = Err (KeyError "nGM").
Proof. vm_compute. reflexivity. Qed.

(** X3. The parameters [read_input_data] returns fit together: there is
    at least one site, one level and one measure; [rlz_code], [Vs30],
    [vs30Type] and, when given, [z2pt5] and [z1pt0] have one entry per
    site; [tstar], [im_type] and [im_type_lbl] have one entry per
    measure. *)
Theorem parameters_fit_together `{PyNum} (fileini : list string)
    (d : input_data F) :
  read_input_data fileini = Ok d ->
  site_code d <> [] /\ probability_of_exceedance_num d <> []
  /\ intensity_measures d <> []
  /\ length (rlz_code d) = length (site_code d)
  /\ length (vs30_input d) = length (site_code d)
  /\ length (vs30type d) = length (site_code d)
  /\ (forall l, z2pt5 d = Some l -> length l = length (site_code d))
  /\ (forall l, z1pt0 d = Some l -> length l = length (site_code d))
  /\ length (tstar d) = length (intensity_measures d)
  /\ length (im_type d) = length (intensity_measures d)
  /\ length (im_type_lbl d) = length (intensity_measures d).
Proof.
  intros Hd. unfold read_input_data in Hd.
  pose proof (extract_ok _ _ Hd)
    as ((s & _ & Hims) & (ims & Hloop & Hts & Hty) & _ & Hrlz & _).
  pose proof (extract_shape _ _ Hd)
    as ((ss & _ & Hsites) & (sp & _ & Hpoes) & Hvs & Hvt & Hz2 & Hz1 & _ & _
        & _ & _ & _ & _ & (ims' & Hloop' & _ & Hlbl)).
  assert (ims' = ims) as -> by congruence.
  apply im_loop_lengths in Hloop as (Hl1 & Hl2 & Hl3). simpl in *.
  rewrite length_replicate in Hl1.
  split.
  { apply length_not_nil. apply rmap_length in Hsites. rewrite Hsites.
    apply length_not_nil, items_not_empty. }
  split.
  { apply length_not_nil. apply rmap_length in Hpoes. rewrite Hpoes.
    apply length_not_nil, items_not_empty. }
  split; [rewrite Hims; apply items_not_empty|].
  repeat (split; [done|]).
  split.
  { intros l Hl. apply optional_ok in Hz2.
    destruct (read_dict fileini !! "z2pt5"); [|congruence].
    destruct Hz2 as (a & Ha & Hz). unfold site_list in Ha.
    destruct (negb _) eqn:Hn; [discriminate|]. injection Ha as <-.
    apply negb_false_iff, Nat.eqb_eq in Hn. congruence. }
  split.
  { intros l Hl. apply optional_ok in Hz1.
    destruct (read_dict fileini !! "z1pt0"); [|congruence].
    destruct Hz1 as (a & Ha & Hz). unfold site_list in Ha.
    destruct (negb _) eqn:Hn; [discriminate|]. injection Ha as <-.
    apply negb_false_iff, Nat.eqb_eq in Hn. congruence. }
  rewrite Hts, Hty, Hlbl. done.
Qed.

Lemma parameters_fit_together_witness :
  length (rlz_code Demo.example_data) = length (site_code Demo.example_data)
  /\ length (tstar Demo.example_data)
     = length (intensity_measures Demo.example_data).
Proof.
  destruct (@parameters_fit_together decimal Demo.example_ini Demo.example_data
              example_read)
    as (_ & _ & _ & Hrlz & _ & _ & _ & _ & Hts & _).
  split; [exact Hrlz | exact Hts].
Defined.

(** ** Keys that are not read *)

Section Agree.
Context `{PyNum}.

Lemma im_loop_agree m1 m2 names : forall i st,
  m1 !! "avg_periods" = m2 !! "avg_periods" ->
  im_loop m1 i names st = im_loop m2 i names st.
Proof.
  induction names as [|name names IH]; intros i st Ha; simpl; [done|].
  assert (Hstep : im_step m1 st i name = im_step m2 st i name).
  { unfold im_step, getitem. by rewrite Ha. }
  rewrite Hstep. destruct (im_step m2 st i name); simpl; [by apply IH | done].
Qed.

Lemma rbind_ext {A B} (r1 r2 : result A) (k1 k2 : A -> result B) :
  r1 = r2 -> (forall a, k1 a = k2 a) -> rbind r1 k1 = rbind r2 k2.
Proof. intros -> Hk. destruct r2; simpl; [apply Hk | done]. Qed.

(** [extract] looks at its dictionary through the keys of [required_keys]
    and [optional_keys] only. *)
Lemma extract_agree m1 m2 : agree m1 m2 -> extract m1 = extract m2.
Proof.
  unfold agree, required_keys, optional_keys. simpl. intros Hall.
  repeat match type of Hall with
         | Forall _ (_ :: _) =>
             let Hk := fresh "Hk" in apply Forall_cons in Hall as [Hk Hall]
         end.
  clear Hall. unfold extract.
  repeat (cbv zeta; apply rbind_ext;
          [ first
              [ reflexivity
              | apply im_loop_agree; assumption
              | unfold getitem, optional, per_poe, read_azimuth_fhw, getitem;
                repeat match goal with
                       | Hk : m1 !! _ = m2 !! _ |- _ => try rewrite Hk; clear Hk
                       end;
                reflexivity ]
          | intros ? ]).
  reflexivity.
Qed.

Lemma read_line_except key m1 m2 line :
  (forall k, k <> key -> m1 !! k = m2 !! k) ->
  forall k, k <> key -> read_line m1 line !! k = read_line m2 line !! k.
Proof.
  intros Hm k Hk. unfold read_line.
  destruct (PyStr.split1 "=" (PyStr.strip line)) as [[a b]|]; [|by apply Hm].
  rewrite !lookup_insert. case_decide; [done | by apply Hm].
Qed.

Lemma fold_read_line_except key ls : forall m1 m2,
  (forall k, k <> key -> m1 !! k = m2 !! k) ->
  forall k, k <> key ->
    fold_left read_line ls m1 !! k = fold_left read_line ls m2 !! k.
Proof.
  induction ls as [|l ls IH]; intros m1 m2 Hm; simpl; [done|].
  apply IH. by apply read_line_except.
Qed.
End Agree.

(** X4. A line that binds a key [read_input_data] does not read changes
    nothing of its result or of its exception, wherever the line stands:
    such keys are ignored. The documented names
    [allowed_recs_vs30] and [allowed_ec8_code] are among them (the code
    reads [allowedRecs_Vs30] and [allowedEC8code]). *)
Theorem unread_keys_are_ignored `{PyNum} (l1 l2 : list string)
    (line key value : string) :
  binding line = Some (key, value) ->
  key ∉ required_keys ++ optional_keys ->
  read_input_data (l1 ++ line :: l2) = read_input_data (l1 ++ l2).
Proof.
  intros Hb Hkey. unfold read_input_data. apply extract_agree.
  unfold agree. apply Forall_forall. intros k Hk.
  assert (Hne : k <> key) by (intros ->; done).
  unfold read_dict. rewrite !fold_left_app. simpl.
  apply (fold_read_line_except key); [|done].
  intros k' Hk'. rewrite (read_line_binding _ _ _ _ Hb).
  by apply lookup_insert_ne.
Qed.

Lemma unread_keys_are_ignored_witness :
  @read_input_data decimal
    (Demo.example_ini ++ "allowed_recs_vs30=[200,400]" :: [])
  = @read_input_data decimal (Demo.example_ini ++ []).
Proof.
  apply (@unread_keys_are_ignored decimal Demo.example_ini []
           "allowed_recs_vs30=[200,400]" "allowed_recs_vs30" "[200,400]").
  - reflexivity.
  - compute_done.
Defined.

(** ** Optional parameters *)

Lemma optional_none_iff `{PyNum} {A} input key (f : string -> result A) o :
  optional input key f = Ok o -> (o = None <-> input !! key = None).
Proof.
  intros Ho. apply optional_ok in Ho.
  destruct (input !! key); [|done].
  destruct Ho as (a & _ & ->). done.
Qed.

(** X5. The parser invents no default: each of the eight optional
    parameters comes out as [None] exactly when the file does not bind its
    key. The keys are [hypo_depth], [dip], [z2pt5], [z1pt0], [upper_sd],
    [lower_sd], [allowedRecs_Vs30] and [allowedEC8code]. *)
Theorem optional_parameters_have_no_default `{PyNum} (fileini : list string)
    (d : input_data F) :
  read_input_data fileini = Ok d ->
  (hypo_depth d = None <-> read_dict fileini !! "hypo_depth" = None)
  /\ (dip d = None <-> read_dict fileini !! "dip" = None)
  /\ (z2pt5 d = None <-> read_dict fileini !! "z2pt5" = None)
  /\ (z1pt0 d = None <-> read_dict fileini !! "z1pt0" = None)
  /\ (upper_sd d = None <-> read_dict fileini !! "upper_sd" = None)
  /\ (lower_sd d = None <-> read_dict fileini !! "lower_sd" = None)
  /\ (allowed_recs_vs30 d = None
      <-> read_dict fileini !! "allowedRecs_Vs30" = None)
  /\ (allowed_ec8_code d = None
      <-> read_dict fileini !! "allowedEC8code" = None).
Proof.
  intros Hd. apply extract_shape in Hd
    as (_ & _ & _ & _ & Hz2 & Hz1 & Hh & Hdip & Hu & Hl & Hr & He & _).
  repeat split; eapply optional_none_iff; eassumption.
Qed.

Lemma flag_only_read :
  @read_input_data decimal Demo.flag_only = Ok Demo.flag_only_data.
Proof. vm_compute. reflexivity. Qed.

Lemma optional_parameters_have_no_default_witness :
  (hypo_depth Demo.flag_only_data = None
   <-> read_dict Demo.flag_only !! "hypo_depth" = None)
  /\ (dip Demo.flag_only_data = None
      <-> read_dict Demo.flag_only !! "dip" = None).
Proof.
  destruct (@optional_parameters_have_no_default decimal Demo.flag_only
              Demo.flag_only_data flag_only_read) as (Hh & Hdip & _).
  split; [exact Hh | exact Hdip].
Defined.

(** ** The hanging-wall flag *)

(** X6. A flag that is read is 1 or -1, and is read only from a file
    without [azimuth]; any other integer ends the program with the message
    of line 292. *)
Theorem hanging_wall_flag_is_a_sign `{PyNum} (fileini : list string) :
  (forall d n, read_input_data fileini = Ok d -> fhw d = Some n ->
     (n = 1 \/ n = -1) /\ read_dict fileini !! "azimuth" = None)
  /\ (forall h n,
        read_dict fileini !! "azimuth" = None ->
        read_dict fileini !! "hanging_wall_flag" = Some h ->
        py_int h = Some n -> n <> 1 -> n <> -1 ->
        read_azimuth_fhw (read_dict fileini)
        = Err (SystemExit "Error: The hanging_wall_flag must be =1 or =-1")
        /\ exists e, read_input_data fileini = Err e).
Proof.
  split.
  - intros d n Hd Hn. apply extract_ok in Hd as (_ & _ & Hz & _).
    unfold read_azimuth_fhw in Hz.
    destruct (read_dict fileini !! "azimuth").
    { bind_inv Hz. injection Hz as _ Hf. congruence. }
    destruct (read_dict fileini !! "hanging_wall_flag"); [|discriminate].
    bind_inv Hz. destruct (negb (a =? 1)%Z && negb (a =? -1)%Z) eqn:Hc;
      [discriminate|].
    injection Hz as _ Hf. assert (a = n) as -> by congruence.
    split; [lia | done].
  - intros h n Ha Hh Hn H1 H2.
    assert (Hblock : read_azimuth_fhw (read_dict fileini)
              = Err (SystemExit "Error: The hanging_wall_flag must be =1 or =-1")).
    { unfold read_azimuth_fhw, to_int. rewrite Ha, Hh, Hn. simpl.
      apply Z.eqb_neq in H1, H2. by rewrite H1, H2. }
    split; [exact Hblock|].
    destruct (read_input_data fileini) as [d|e] eqn:Hd; [|by eexists].
    apply extract_ok in Hd as (_ & _ & Hz & _). congruence.
Qed.

Lemma hanging_wall_flag_is_a_sign_witness :
  ((-1 = 1 \/ -1 = -1) /\ read_dict Demo.flag_only !! "azimuth" = None)
  /\ exists e, @read_input_data decimal Demo.flag_zero = Err e.
Proof.
  split.
  - apply (proj1 (@hanging_wall_flag_is_a_sign decimal Demo.flag_only)
             Demo.flag_only_data (-1) flag_only_read).
    reflexivity.
  - apply (proj2 (@hanging_wall_flag_is_a_sign decimal Demo.flag_zero) "0" 0).
    + vm_compute. reflexivity.
    + vm_compute. reflexivity.
    + reflexivity.
    + discriminate.
    + discriminate.
Defined.

(** ** The averaging periods *)

Section AvgPeriods.
Context `{PyNum}.

Lemma im_step_avg input st i name st' :
  im_step input st i name = Ok st' ->
  (name = "AvgSA"
   /\ exists v, input !! "avg_periods" = Some v
                /\ float_array (PyStr.items "[]" v) = Ok (v_avg_periods st'))
  \/ (name <> "AvgSA" /\ v_avg_periods st' = v_avg_periods st).
Proof.
  unfold im_step.
  destruct (String.eqb name "AvgSA") eqn:E1.
  { apply String.eqb_eq in E1. intros Hs. bind_inv Hs. injection Hs as <-.
    simpl. left. split; [done|]. apply getitem_ok in E. eauto. }
  apply String.eqb_neq in E1.
  destruct (String.eqb (PyStr.prefix 2 name) "SA").
  { intros Hs. bind_inv Hs. injection Hs as <-. simpl. by right. }
  destruct (String.eqb (PyStr.prefix 3 name) "PGA"); [|discriminate].
  intros [= <-]. simpl. by right.
Qed.

Lemma im_loop_avg input names : forall i st st',
  im_loop input i names st = Ok st' ->
  ("AvgSA" ∈ names ->
   exists v, input !! "avg_periods" = Some v
             /\ float_array (PyStr.items "[]" v) = Ok (v_avg_periods st'))
  /\ ("AvgSA" ∉ names -> v_avg_periods st' = v_avg_periods st).
Proof.
  induction names as [|name names IH]; intros i st st'; simpl.
  - intros [= <-]. split; [by intros ?%elem_of_nil | done].
  - intros Hl. bind_inv Hl. rename a into st1.
    apply im_step_avg in E. apply IH in Hl as [Hin Hout].
    destruct (decide ("AvgSA" ∈ names)) as [Hn|Hn].
    + split; [intros _; by apply Hin|]. intros Hno. exfalso. apply Hno.
      by apply list_elem_of_further.
    + specialize (Hout Hn). rewrite Hout.
      destruct E as [(-> & v & Hv & Hap) | (Hne & Hst)].
      * split; [eauto|]. intros Hno. exfalso. apply Hno, list_elem_of_here.
      * split; [|by intros _].
        intros [Heq|Hin']%elem_of_cons; congruence.
Qed.
End AvgPeriods.

(** X7. [avg_periods] is read only for AvgSA: with AvgSA among the
    measures the result holds the floats of the [avg_periods] of the file;
    without it the result holds the empty list, whatever the file gives
    for that key. *)
Theorem avg_periods_only_for_avgsa `{PyNum} (fileini : list string)
    (d : input_data F) :
  read_input_data fileini = Ok d ->
  ("AvgSA" ∈ intensity_measures d ->
   exists v, read_dict fileini !! "avg_periods" = Some v
             /\ float_array (PyStr.items "[]" v) = Ok (avg_periods d))
  /\ ("AvgSA" ∉ intensity_measures d -> avg_periods d = []).
Proof.
  intros Hd. apply extract_shape in Hd
    as (_ & _ & _ & _ & _ & _ & _ & _ & _ & _ & _ & _ & ims & Hloop & -> & _).
  by apply im_loop_avg in Hloop.
Qed.

Lemma sa_only_read :
  @read_input_data decimal Demo.sa_only = Ok Demo.sa_only_data.
Proof. vm_compute. reflexivity. Qed.

Lemma avg_periods_only_for_avgsa_witness :
  avg_periods Demo.sa_only_data = []
  /\ is_Some (read_dict Demo.sa_only !! "avg_periods").
Proof.
  split.
  - apply (proj2 (@avg_periods_only_for_avgsa decimal Demo.sa_only
                    Demo.sa_only_data sa_only_read)).
    compute_done.
  - vm_compute. by eexists.
Defined.

(** ** Runs on parameters that were read from a file *)

Section ParsedRuns.
Context `{Collaborators}.

Lemma index_lt {A} (l : list A) i :
  (i < length l)%nat -> exists x, index l i = Ok x.
Proof.
  intros Hi. unfold index.
  destruct (lookup_lt_is_Some_2 l i Hi) as [x ->]. eauto.
Qed.

Lemma select_fits {A} (x : scalar_or_seq A) n jj :
  fits n x -> (jj < n)%nat -> exists v, select x jj = Ok v.
Proof.
  destruct x as [v|l]; simpl; [eauto|]. intros <- Hjj. by apply index_lt.
Qed.

Lemma for_in_seq_err {S} n (body : nat -> S -> M S) e s' v s :
  for_in (seq 0 n) body v s = (Err e, s') ->
  exists i v1 s1, (i < n)%nat /\ body i v1 s1 = (Err e, s').
Proof.
  intros Hf. apply for_in_err in Hf as (pre & i & post & v1 & s1 & Hseq & _ & Hi).
  exists i, v1, s1. split; [|done].
  assert (Hin : i ∈ seq 0 n) by (rewrite Hseq; set_solver).
  apply list_elem_of_In, in_seq in Hin. lia.
Qed.

Lemma bind_lift_ok_err {A B} (r : result A) (k : A -> M B) s e s' :
  (exists a, r = Ok a) -> bind (lift r) k s = (Err e, s') ->
  exists a, r = Ok a /\ k a s = (Err e, s').
Proof.
  intros [a ->] Hb. apply bind_lift_err in Hb as [Hr | Hk]; [discriminate|].
  exact Hk.
Qed.
End ParsedRuns.

(** X8. On parameters that [read_input_data] returned, the lookups the
    driver makes between two Cases ([site_code[ii]], [rlz_code[ii]],
    [probability_of_exceedance_num[jj]], the per-level parameters) never
    fail: a run that ends with an exception ends in the state in which the
    body of one Case raised it, a Case whose three indices are in range. *)
Theorem parsed_run_fails_only_in_a_case `{Collaborators}
    (fileini : list string) (d : input_data F) (w : W) (e : exn) :
  read_input_data fileini = Ok d ->
  run_result d w = Err e ->
  exists ii jj im site rlz poe maxsf radius_dist radius_mag vars s,
    site_code d !! ii = Some site
    /\ probability_of_exceedance_num d !! jj = Some poe
    /\ (im < length (intensity_measures d))%nat
    /\ case_body d ii jj im site rlz poe maxsf radius_dist radius_mag vars s
       = (Err e, snd (run d w)).
Proof.
  intros Hd He.
  pose proof (extract_ok _ _ Hd) as (_ & _ & _ & Hrlz & Hm & Hrd & Hrm).
  apply per_poe_fits in Hm, Hrd, Hrm.
  unfold run_result, run in *.
  destruct (selection_module d (w, [])) as [r s'] eqn:Hrun.
  simpl in He. subst r. simpl.
  unfold selection_module, bind at 1, print in Hrun. simpl in Hrun.
  unfold bind at 1 in Hrun.
  destruct (for_in _ _ _ _) as [[v|e0] s0] eqn:Hsites; [discriminate|].
  injection Hrun as -> ->.
  apply for_in_seq_err in Hsites as (ii & v1 & s1 & Hii & Hsite).
  unfold site_body in Hsite.
  apply bind_lift_ok_err in Hsite as (site & Hs & Hsite); [|by apply index_lt].
  apply bind_lift_ok_err in Hsite as (rlz & _ & Hsite);
    [|apply index_lt; by rewrite Hrlz].
  apply for_in_seq_err in Hsite as (jj & v2 & s2 & Hjj & Hpoe).
  unfold poe_body in Hpoe.
  apply bind_lift_ok_err in Hpoe as (poe & Hp & Hpoe); [|by apply index_lt].
  apply bind_lift_ok_err in Hpoe as (maxsf & _ & Hpoe);
    [|by eapply select_fits].
  apply bind_lift_ok_err in Hpoe as (rd & _ & Hpoe); [|by eapply select_fits].
  apply bind_lift_ok_err in Hpoe as (rm & _ & Hpoe); [|by eapply select_fits].
  apply for_in_seq_err in Hpoe as (im & v3 & s3 & Him & Hcase).
  exists ii, jj, im, site, rlz, poe, maxsf, rd, rm, v3, s3.
  apply index_ok in Hs, Hp. done.
Qed.

Lemma unknown_site_first_fails :
  @run_result decimal Demo.collaborators Demo.unknown_site_first_data Demo.start
  = Err (Raised "InputDataError").
Proof. vm_compute. reflexivity. Qed.

Lemma parsed_run_fails_only_in_a_case_witness :
  exists ii jj im site rlz poe maxsf radius_dist radius_mag vars s,
    site_code Demo.unknown_site_first_data !! ii = Some site
    /\ probability_of_exceedance_num Demo.unknown_site_first_data !! jj
       = Some poe
    /\ (im < length (intensity_measures Demo.unknown_site_first_data))%nat
    /\ @case_body decimal Demo.collaborators Demo.unknown_site_first_data
         ii jj im site rlz poe maxsf radius_dist radius_mag vars s
       = (Err (Raised "InputDataError"),
          snd (@run decimal Demo.collaborators Demo.unknown_site_first_data
                 Demo.start)).
Proof.
  exact (@parsed_run_fails_only_in_a_case decimal Demo.collaborators
           Demo.unknown_site_first Demo.unknown_site_first_data Demo.start
           (Raised "InputDataError") unknown_site_first_read
           unknown_site_first_fails).
Defined.

(** X9. A Case at a level for which [probability_of_exceedance] has no
    entry raises [IndexError] when it evaluates the arguments of its first
    call: it has printed its line and called nothing. ([read_input_data]
    lets such parameters through, the two lists not being compared.) *)
Theorem case_without_probability `{Collaborators} (d : input_data F)
    (ii jj im : nat) (site rlz poe : Z) (maxsf radius_dist radius_mag : F)
    (vars : loop_vars F Obj) (s : W * list (event F Obj)) (name : string) :
  intensity_measures d !! im = Some name ->
  (length (probability_of_exceedance d) <= jj)%nat ->
  case_body d ii jj im site rlz poe maxsf radius_dist radius_mag vars s
  = (Err IndexError,
     (fst s,
      snd s ++ [Print (progress_line d (case_name name site poe)
                         (lv_ind vars))])).
Proof.
  intros Him Hjj. unfold case_body, bind, lift, print, index.
  rewrite Him. simpl.
  by rewrite (lookup_ge_None_2 _ _ Hjj).
Qed.

Lemma case_without_probability_witness :
  @case_body decimal Demo.collaborators
    Demo.two_levels_one_probability_data 0 1 0 0 0 3
    (Demo.q 3 1) (Demo.q 50 1) (Demo.q 1 2)
    {| lv_ind := 2; lv_vs30 := PStr "300" |} (Demo.start, [])
  = (Err IndexError,
     (Demo.start,
      [] ++ [Print (@progress_line decimal
                      Demo.two_levels_one_probability_data
                      (case_name "AvgSA" 0 3) 2)])).
Proof.
  apply (@case_without_probability decimal Demo.collaborators
           Demo.two_levels_one_probability_data 0 1 0 0 0 3
           (Demo.q 3 1) (Demo.q 50 1) (Demo.q 1 2)
           {| lv_ind := 2; lv_vs30 := PStr "300" |} (Demo.start, []) "AvgSA").
  - reflexivity.
  - vm_compute. lia.
Defined.

Lemma two_levels_one_probability_run :
  ok_with (fun d => (probability_of_exceedance_num d,
                     probability_of_exceedance d))
    (@read_input_data decimal Demo.two_levels_one_probability)
  = Some ([2; 3], ["0.1"])
  /\ @run_result decimal Demo.collaborators
       Demo.two_levels_one_probability_data Demo.start = Err IndexError
  /\ observe obs_case
       (@run_log decimal Demo.collaborators
          Demo.two_levels_one_probability_data Demo.start)
     = [(0, 2, "AvgSA")]
  /\ observe obs_print
       (@run_log decimal Demo.collaborators
          Demo.two_levels_one_probability_data Demo.start)
     = ["Inputs loaded, starting selection....";
        "Processing AvgSA-site_0-poe-2 Case: 1/2";
        "Processing AvgSA-site_0-poe-3 Case: 2/2"].
Proof. repeat split; vm_compute; reflexivity. Qed.

(** ** The names a Case works under *)

Ltac observe_call_step :=
  lazymatch goal with
  | |- produces _ (bind (lift _) _) _ =>
      apply produces_lift_bind; intros ? ?
  | |- produces _ (bind _ _) _ =>
      eapply produces_bind; [|intros ?]
  | |- produces _ (ret _) _ => apply produces_ret
  | |- produces _ (lift _) _ => apply produces_lift
  | |- produces _ (exists_path _) _ => apply produces_exists_path
  | |- produces _ (print _) _ => apply produces_print; reflexivity
  | |- produces _ (call _ _) _ =>
      apply produces_call;
      cbn [obs_output obs_plot obs_print nth]; reflexivity
  | |- produces _ (if _ then _ else _) _ => apply produces_if
  end.

Ltac observe_calls := cbv zeta; repeat (observe_call_step; cbv zeta).

Section CaseNames.
Context `{Collaborators}.
Variable d : input_data F.

Lemma case_body_output ii jj im site rlz poe maxsf radius_dist radius_mag vars :
  produces obs_output
    (case_body d ii jj im site rlz poe maxsf radius_dist radius_mag vars)
    [handed d (site, poe, nth im (intensity_measures d) "")].
Proof.
  unfold case_body. apply produces_lift_bind. intros im_name Him.
  rewrite (index_nth _ _ _ "" Him).
  eapply produces_eq; [observe_calls | reflexivity].
Qed.

Lemma case_body_plot ii jj im site rlz poe maxsf radius_dist radius_mag vars :
  produces obs_plot
    (case_body d ii jj im site rlz poe maxsf radius_dist radius_mag vars)
    [handed d (site, poe, nth im (intensity_measures d) "")].
Proof.
  unfold case_body. apply produces_lift_bind. intros im_name Him.
  rewrite (index_nth _ _ _ "" Him).
  eapply produces_eq; [observe_calls | reflexivity].
Qed.

Lemma nested_loops_combinations {X} (f : Z * Z * string -> X) :
  flat_map (fun ii =>
    flat_map (fun jj =>
      flat_map (fun im =>
        [f (nth ii (site_code d) 0,
            nth jj (probability_of_exceedance_num d) 0,
            nth im (intensity_measures d) "")])
        (seq 0 (length (intensity_measures d))))
      (seq 0 (length (probability_of_exceedance_num d))))
    (seq 0 (length (site_code d)))
  = map f (combinations d).
Proof.
  unfold combinations. rewrite <- flat_map_singleton, flat_map_nested.
  rewrite <- (flat_map_seq_nth _ (site_code d) 0).
  apply flat_map_ext. intros ii. rewrite flat_map_nested.
  rewrite <- (flat_map_seq_nth _ (probability_of_exceedance_num d) 0).
  apply flat_map_ext. intros jj. rewrite flat_map_fmap.
  by rewrite <- (flat_map_seq_nth _ (intensity_measures d) "").
Qed.

Lemma selection_module_output :
  produces obs_output (selection_module d) (map (handed d) (combinations d)).
Proof.
  eapply produces_eq; [|apply nested_loops_combinations].
  apply (selection_module_produces obs_output d
           (fun ii jj im =>
              [handed d (nth ii (site_code d) 0,
                       nth jj (probability_of_exceedance_num d) 0,
                       nth im (intensity_measures d) "")])); [done|].
  intros ii jj im site rlz poe m rd rm vars Hs _ Hp _ _ _.
  rewrite (index_nth _ _ _ 0 Hs), (index_nth _ _ _ 0 Hp).
  apply case_body_output.
Qed.

Lemma selection_module_plot :
  produces obs_plot (selection_module d) (map (handed d) (combinations d)).
Proof.
  eapply produces_eq; [|apply nested_loops_combinations].
  apply (selection_module_produces obs_plot d
           (fun ii jj im =>
              [handed d (nth ii (site_code d) 0,
                       nth jj (probability_of_exceedance_num d) 0,
                       nth im (intensity_measures d) "")])); [done|].
  intros ii jj im site rlz poe m rd rm vars Hs _ Hp _ _ _.
  rewrite (index_nth _ _ _ 0 Hs), (index_nth _ _ _ 0 Hp).
  apply case_body_plot.
Qed.
End CaseNames.

(** X10. Every Case plots and writes under its own name: over a run, the
    output folder and the name handed to [plot_final_selection] and those
    handed to [create_output_files] are [output_folder] and
    [measure-site_<site>-poe-<level>] of the combinations, in the order of
    the loops (all of them when the run ends well, the first of them when
    an exception ends it). *)
Theorem cases_plot_and_write_under_their_names `{Collaborators}
    (d : input_data F) (w : W) :
  observe obs_plot (run_log d w) `prefix_of` map (handed d) (combinations d)
  /\ observe obs_output (run_log d w)
       `prefix_of` map (handed d) (combinations d)
  /\ (is_ok (run_result d w) = true ->
      observe obs_plot (run_log d w) = map (handed d) (combinations d)
      /\ observe obs_output (run_log d w) = map (handed d) (combinations d)).
Proof.
  destruct (run_produces obs_plot d w _ (selection_module_plot d)) as [Hp Hp'].
  destruct (run_produces obs_output d w _ (selection_module_output d))
    as [Ho Ho'].
  repeat split; auto.
Qed.


Lemma cases_plot_and_write_under_their_names_witness :
  observe obs_plot
    (@run_log decimal Demo.collaborators Demo.example_data Demo.start)
  = map (@handed decimal Demo.collaborators Demo.example_data)
      (@combinations decimal Demo.example_data)
  /\ observe obs_output
       (@run_log decimal Demo.collaborators Demo.example_data Demo.start)
     = map (@handed decimal Demo.collaborators Demo.example_data)
         (@combinations decimal Demo.example_data).
Proof.
  apply (@cases_plot_and_write_under_their_names decimal Demo.collaborators
           Demo.example_data Demo.start).
  vm_compute. reflexivity.
Defined.

(** ** The counter of the Cases *)

Section Counter.
Context `{Collaborators}.
Variable d : input_data F.

Lemma numbered_app k cs1 cs2 :
  numbered d k (cs1 ++ cs2)
  = numbered d k cs1 ++ numbered d (k + Z.of_nat (length cs1)) cs2.
Proof.
  unfold numbered. rewrite imap_app. f_equal.
  apply imap_ext. intros i c _. simpl. f_equal. lia.
Qed.

Lemma counted_eq m k cs cs' : counted d m k cs -> cs = cs' -> counted d m k cs'.
Proof. by intros Hm <-. Qed.

Lemma counted_lift_bind {A} (r : result A) (f : A -> M (loop_vars F Obj)) k cs :
  (forall a, r = Ok a -> counted d (f a) k cs) ->
  counted d (bind (lift r) f) k cs.
Proof.
  intros Hf s. unfold bind, lift. destruct r as [a|err].
  - by apply Hf.
  - exists []. simpl. rewrite app_nil_r.
    split; [done|]. split; [apply prefix_nil | done].
Qed.

Lemma counted_for_in {A} (xs : list A)
    (body : A -> loop_vars F Obj -> M (loop_vars F Obj))
    (h : A -> list (Z * Z * string)) :
  (forall x vars, counted d (body x vars) (lv_ind vars) (h x)) ->
  forall vars, counted d (for_in xs body vars) (lv_ind vars) (flat_map h xs).
Proof.
  intros Hbody. induction xs as [|x xs IH]; intros vars s; simpl.
  - exists []. rewrite app_nil_r. split; [done|]. split; [done|].
    intros v' [= <-]. split; [done | lia].
  - unfold bind. destruct (Hbody x vars s) as (new1 & Hlog1 & Hpre1 & Hok1).
    rewrite numbered_app.
    destruct (body x vars s) as [[v1|e] s1]; simpl in *.
    + destruct (Hok1 v1 eq_refl) as [Hobs1 Hind1].
      destruct (IH v1 s1) as (new2 & Hlog2 & Hpre2 & Hok2).
      exists (new1 ++ new2). rewrite Hlog2, Hlog1, <- app_assoc.
      split; [done|]. rewrite observe_app, Hobs1, <- Hind1.
      split; [by apply prefix_app|].
      intros v' Hv'. destruct (Hok2 v' Hv') as [-> ->].
      split; [done|]. rewrite length_app. lia.
    + exists new1. split; [done|]. split; [by apply prefix_app_r | done].
Qed.

Lemma case_body_prints ii jj im site rlz poe maxsf radius_dist radius_mag vars :
  produces obs_print
    (case_body d ii jj im site rlz poe maxsf radius_dist radius_mag vars)
    [progress_line d (case_name (nth im (intensity_measures d) "") site poe)
       (lv_ind vars)].
Proof.
  unfold case_body. apply produces_lift_bind. intros im_name Him.
  rewrite (index_nth _ _ _ "" Him).
  eapply produces_eq; [observe_calls | reflexivity].
Qed.

Lemma case_body_counts ii jj im site rlz poe maxsf radius_dist radius_mag
    vars s vars' s' :
  case_body d ii jj im site rlz poe maxsf radius_dist radius_mag vars s
  = (Ok vars', s') ->
  lv_ind vars' = (lv_ind vars + 1)%Z.
Proof.
  unfold case_body. intros Hc. cbv zeta in Hc.
  repeat bind_step Hc. unfold ret in Hc.
  injection Hc as <- _. reflexivity.
Qed.

Lemma case_body_counted ii jj im site rlz poe maxsf radius_dist radius_mag vars :
  counted d
    (case_body d ii jj im site rlz poe maxsf radius_dist radius_mag vars)
    (lv_ind vars) [(site, poe, nth im (intensity_measures d) "")].
Proof.
  intros s.
  destruct (case_body_prints ii jj im site rlz poe maxsf radius_dist
              radius_mag vars s) as (new & Hlog & Hpre & Hok).
  exists new. split; [done|].
  assert (Hn : numbered d (lv_ind vars)
                 [(site, poe, nth im (intensity_measures d) "")]
               = [progress_line d
                    (case_name (nth im (intensity_measures d) "") site poe)
                    (lv_ind vars)]).
  { unfold numbered. simpl. do 2 f_equal. lia. }
  rewrite Hn. split; [done|]. intros v' Hv'.
  split; [apply Hok; by rewrite Hv'|].
  destruct (case_body _ _ _ _ _ _ _ _ _ _ _ _) as [r s'] eqn:Hc.
  simpl in Hv'. subst r. rewrite (case_body_counts _ _ _ _ _ _ _ _ _ _ _ _ _ Hc).
  simpl. lia.
Qed.

Lemma site_body_counted ii vars :
  counted d (site_body d ii vars) (lv_ind vars)
    (flat_map (fun jj =>
       flat_map (fun im =>
         [(nth ii (site_code d) 0,
           nth jj (probability_of_exceedance_num d) 0,
           nth im (intensity_measures d) "")])
         (seq 0 (length (intensity_measures d))))
       (seq 0 (length (probability_of_exceedance_num d)))).
Proof.
  unfold site_body.
  apply counted_lift_bind. intros site Hs.
  apply counted_lift_bind. intros rlz _.
  apply counted_for_in. intros jj vars'. unfold poe_body.
  apply counted_lift_bind. intros poe Hp.
  do 3 (apply counted_lift_bind; intros ? _).
  apply counted_for_in. intros im vars''.
  rewrite (index_nth _ _ _ 0 Hs), (index_nth _ _ _ 0 Hp).
  apply case_body_counted.
Qed.

Lemma loops_counted vars :
  counted d (for_in (seq 0 (length (site_code d))) (site_body d) vars)
    (lv_ind vars) (combinations d).
Proof.
  eapply counted_eq; [apply counted_for_in, site_body_counted|].
  rewrite (nested_loops_combinations d (fun c => c)). apply map_id.
Qed.
End Counter.

(** X11. The lines [selection_module] prints in a run are [Inputs
    loaded, starting selection....] and then one line
    [Processing <name> Case: <k>/<n>] for each Case it begins, [<name>]
    being the name of the [k]-th combination in the order of the loops and
    [k] counting from 1: the counter goes up by one with every Case that
    ends well, and it prints nothing else. A run that ends well has
    printed the lines of all [n] Cases. *)
Theorem progress_lines_count_the_cases `{Collaborators}
    (d : input_data F) (w : W) :
  observe obs_print (run_log d w)
    `prefix_of` "Inputs loaded, starting selection...."
                :: numbered d 1 (combinations d)
  /\ (is_ok (run_result d w) = true ->
      observe obs_print (run_log d w)
      = "Inputs loaded, starting selection...."
        :: numbered d 1 (combinations d)).
Proof.
  unfold run_log, run_result, run, selection_module.
  unfold bind, print, ret. simpl.
  destruct (loops_counted d {| lv_ind := 1; lv_vs30 := strs (vs30_input d) |}
              (w, [Print "Inputs loaded, starting selection...."]))
    as (new & Hlog & Hpre & Hok).
  simpl in *.
  destruct (for_in _ _ _ _) as [[v|e] [w' log]]; simpl in *; subst log.
  - destruct (Hok v eq_refl) as [Hobs _]. unfold observe in *. simpl.
    rewrite Hobs. by split.
  - unfold observe in *. simpl. split; [by apply prefix_cons | done].
Qed.

Lemma progress_lines_count_the_cases_witness :
  observe obs_print
    (@run_log decimal Demo.collaborators Demo.example_data Demo.start)
  = "Inputs loaded, starting selection...."
    :: @numbered decimal Demo.example_data 1
         (@combinations decimal Demo.example_data).
Proof.
  apply (@progress_lines_count_the_cases decimal Demo.collaborators
           Demo.example_data Demo.start).
  vm_compute. reflexivity.
Defined.

Lemma progress_lines_of_the_example :
  observe obs_print
    (@run_log decimal Demo.collaborators Demo.example_data Demo.start)
  = ["Inputs loaded, starting selection....";
     "Processing AvgSA-site_0-poe-2 Case: 1/6";
     "Processing AvgSA-site_1-poe-2 Case: 2/6";
     "Processing AvgSA-site_2-poe-2 Case: 3/6";
     "Processing AvgSA-site_3-poe-2 Case: 4/6";
     "Processing AvgSA-site_4-poe-2 Case: 5/6";
     "Processing AvgSA-site_5-poe-2 Case: 6/6"].
Proof. vm_compute. reflexivity. Qed.

(** ** What [scale_acc] leaves behind *)

Section ScaleAccOutput.
Context `{AccReaders}.

Lemma write_rows_prefix path time acc sf i n : forall k,
  snd (write_rows path time acc sf i (seq k n))
  `prefix_of` zip_with (fun t x => FWrite path t (fmul x (nth i sf fzero)))
                (take n (drop k time)) (take n (drop k acc)).
Proof.
  induction n as [|n IH]; intros k; simpl; [done|].
  destruct (index time k) as [t|] eqn:Ht; simpl; [|apply prefix_nil].
  destruct (index acc k) as [x|] eqn:Hx; simpl; [|apply prefix_nil].
  destruct (index sf i) as [s|] eqn:Hs; simpl; [|apply prefix_nil].
  specialize (IH (S k)).
  destruct (write_rows path time acc sf i (seq (S k) n)) as [r evs'].
  apply index_ok in Ht, Hx. rewrite (index_nth _ _ _ fzero Hs) in IH |- *.
  rewrite (drop_S _ _ _ Ht), (drop_S _ _ _ Hx). simpl.
  by apply prefix_cons.
Qed.

Lemma write_file_prefix path time acc sf npts i :
  snd (write_file path time acc sf npts i)
  `prefix_of` FOpen path :: scaled_rows path time acc npts (nth i sf fzero).
Proof.
  unfold write_file, scaled_rows.
  pose proof (write_rows_prefix path time acc sf i (Z.to_nat npts) 0) as Hp.
  destruct (write_rows path time acc sf i (seq 0 (Z.to_nat npts))) as [r rows].
  rewrite !drop_0 in Hp. simpl. by apply prefix_cons.
Qed.

Lemma scale_record_prefix a i :
  snd (scale_record a i) `prefix_of` files_of a i.
Proof.
  unfold scale_record, files_of.
  destruct (read_record a i) as [dat|]; [|done]. unfold record_files.
  pose proof (write_file_prefix (out_name a i "1") (time1 dat) (inp_acc1 dat)
                (sa_sf a) (npts1 dat) i) as H1.
  pose proof (write_file_prefix (out_name a i "2") (time2 dat) (inp_acc2 dat)
                (sa_sf a) (npts2 dat) i) as H2.
  destruct (write_file (out_name a i "1") _ _ _ _ _) as [[u1|] evs1] eqn:E1.
  - apply write_file_ok in E1 as [-> _].
    destruct (write_file (out_name a i "2") _ _ _ _ _) as [r2 evs2].
    cbn [snd] in *. by apply prefix_app.
  - cbn [snd] in *. by apply prefix_app_r.
Qed.

Lemma scale_loop_prefix a is_ :
  snd (scale_loop a is_) `prefix_of` flat_map (files_of a) is_.
Proof.
  induction is_ as [|i is_ IH]; simpl; [done|].
  pose proof (scale_record_prefix a i) as Hi.
  destruct (scale_record a i) as [[u1|] evs1] eqn:E.
  - apply scale_record_ok in E as [-> _].
    destruct (scale_loop a is_) as [r evs']. cbn [snd] in *.
    by apply prefix_app.
  - cbn [snd] in *. by apply prefix_app_r.
Qed.

(** A record of another source than the two: nothing is read, and both
    files are opened and left empty. *)
Lemma unknown_source_record a i src :
  sa_source a !! i = Some src -> src <> "NGA-West2" -> src <> "ESM" ->
  scale_record a i
  = (Ok tt, [FOpen (out_name a i "1"); FOpen (out_name a i "2")]).
Proof.
  intros Hsrc Hnga Hesm. unfold scale_record, read_record, index.
  rewrite Hsrc. simpl.
  apply String.eqb_neq in Hnga, Hesm. by rewrite Hnga, Hesm.
Qed.

Lemma seq_split_at i n :
  (i < n)%nat -> seq 0 n = seq 0 i ++ i :: seq (S i) (n - S i).
Proof.
  intros Hi. replace n with (i + S (n - S i))%nat at 1 by lia.
  by rewrite seq_app.
Qed.

(** The files opened. *)
Lemma write_rows_opened path time acc sf i js :
  opened (snd (write_rows path time acc sf i js)) = [].
Proof.
  induction js as [|j js IH]; simpl; [done|].
  destruct (index time j) as [t|]; simpl; [|done].
  destruct (index acc j) as [x|]; simpl; [|done].
  destruct (index sf i) as [s|]; simpl; [|done].
  by destruct (write_rows path time acc sf i js) as [r evs].
Qed.

Lemma write_file_opened path time acc sf npts i :
  opened (snd (write_file path time acc sf npts i)) = [path].
Proof.
  unfold write_file.
  pose proof (write_rows_opened path time acc sf i (seq 0 (Z.to_nat npts))) as Hw.
  destruct (write_rows path time acc sf i (seq 0 (Z.to_nat npts))) as [r rows].
  simpl in *. unfold opened in *. simpl. by rewrite Hw.
Qed.

Lemma opened_app {G} (l1 l2 : list (fevent G)) :
  opened (l1 ++ l2) = opened l1 ++ opened l2.
Proof. apply flat_map_app. Qed.

Lemma scale_record_opened a i :
  opened (snd (scale_record a i))
    `prefix_of` [out_name a i "1"; out_name a i "2"]
  /\ (is_ok (fst (scale_record a i)) = true ->
      opened (snd (scale_record a i)) = [out_name a i "1"; out_name a i "2"]).
Proof.
  unfold scale_record.
  destruct (read_record a i) as [dat|]; [|split; [apply prefix_nil | done]].
  pose proof (write_file_opened (out_name a i "1") (time1 dat) (inp_acc1 dat)
                (sa_sf a) (npts1 dat) i) as H1.
  pose proof (write_file_opened (out_name a i "2") (time2 dat) (inp_acc2 dat)
                (sa_sf a) (npts2 dat) i) as H2.
  destruct (write_file (out_name a i "1") _ _ _ _ _) as [[u1|] evs1].
  - destruct (write_file (out_name a i "2") _ _ _ _ _) as [r2 evs2].
    simpl in *. rewrite opened_app, H1, H2. done.
  - simpl in *. rewrite H1. split; [by apply (prefix_app_r [_] [_] [_]) | done].
Qed.

Lemma scale_loop_opened a is_ :
  opened (snd (scale_loop a is_))
    `prefix_of` flat_map (fun i => [out_name a i "1"; out_name a i "2"]) is_
  /\ (is_ok (fst (scale_loop a is_)) = true ->
      opened (snd (scale_loop a is_))
      = flat_map (fun i => [out_name a i "1"; out_name a i "2"]) is_).
Proof.
  induction is_ as [|i is_ [IHp IHe]]; [done|].
  cbn [scale_loop flat_map].
  destruct (scale_record_opened a i) as [Hp He].
  destruct (scale_record a i) as [[u1|] evs1].
  - destruct (scale_loop a is_) as [r evs']. simpl in *.
    rewrite opened_app, (He eq_refl).
    split; [by apply (prefix_app [_; _]) | intros Hr; by rewrite (IHe Hr)].
  - simpl in *. split; [by apply (prefix_app_r _ [_; _]) | done].
Qed.

(** The names of the files tell the records and the components apart. *)
Lemma pretty_N_char_free x : pretty_N_char x <> "_"%char.
Proof. unfold pretty_N_char. repeat case_match; discriminate. Qed.

Lemma pretty_N_go_free x : forall s,
  free_of "_" s -> free_of "_" (pretty_N_go x s).
Proof.
  induction (N.lt_wf_0 x) as [x _ IH]. intros s Hs.
  destruct (decide (x = 0)%N) as [->|Hx]; [by rewrite pretty_N_go_0|].
  rewrite pretty_N_go_step by lia. apply IH.
  - apply N.div_lt; lia.
  - split; [apply pretty_N_char_free | done].
Qed.

Lemma pretty_nat_free (n : nat) : free_of "_" (pretty n).
Proof.
  unfold pretty, pretty_nat, pretty, pretty_N.
  case_decide; [by repeat split | by apply pretty_N_go_free].
Qed.

Lemma free_of_split s1 : forall s2 t1 t2,
  free_of "_" s1 -> free_of "_" s2 ->
  s1 +:+ String "_" t1 = s2 +:+ String "_" t2 -> s1 = s2 /\ t1 = t2.
Proof.
  induction s1 as [|x s1 IH]; intros [|y s2] t1 t2 H1 H2 Heq; simpl in *.
  - by injection Heq as ->.
  - injection Heq as <- _. by destruct H2.
  - injection Heq as -> _. by destruct H1.
  - injection Heq as -> Heq. destruct H1 as [_ H1], H2 as [_ H2].
    destruct (IH _ _ _ H1 H2 Heq) as [-> ->]. done.
Qed.

Lemma out_name_inj a i j c1 c2 :
  out_name a i c1 = out_name a j c2 -> i = j /\ c1 +:+ ".txt" = c2 +:+ ".txt".
Proof.
  unfold out_name. intros Heq.
  do 4 apply String.app_inj in Heq.
  apply free_of_split in Heq as [Hn Hc]; [|apply pretty_nat_free..].
  apply pretty_nat_inj in Hn. split; [lia | done].
Qed.

Lemma file_names_NoDup a n : NoDup (file_names a n).
Proof.
  unfold file_names. induction n as [|n IH]; [constructor|].
  rewrite seq_S, flat_map_app. simpl. apply NoDup_app. split; [done|]. split.
  - intros x Hx Hx'. apply list_elem_of_In, in_flat_map in Hx as (i & Hi & Hx).
    apply in_seq in Hi.
    assert (exists c1 c2, out_name a i c1 = out_name a n c2)
      as (c1 & c2 & Heq).
    { simpl in Hx. set_unfold in Hx'.
      destruct Hx as [<-|[<-|[]]]; destruct Hx' as [Heq|[Heq|[]]]; eauto. }
    apply out_name_inj in Heq as [-> _]. lia.
  - apply NoDup_cons. split; [|apply NoDup_singleton].
    intros Hin. set_unfold in Hin. destruct Hin as [Hin|[]].
    apply out_name_inj in Hin as [_ Hc]. discriminate.
Qed.
End ScaleAccOutput.

(** X12. Whatever [scale_acc] has done to the files when an exception
    ends it is an initial part of what it does when it ends well: the
    files of the records before the one that failed, in full, and of that
    one the first file up to the last line before the exception, or the
    first file and such a part of the second. Nothing else is ever
    written. *)
Theorem scale_acc_output_is_a_prefix `{AccReaders} (a : scale_args F NgaId) :
  snd (scale_acc a)
  `prefix_of` flat_map (files_of a) (seq 0 (Z.to_nat (sa_n_gm a))).
Proof. apply scale_loop_prefix. Qed.

Lemma second_unreadable_files :
  fst (@scale_acc decimal Demo.readers Demo.second_unreadable)
  = Err (Raised "FileNotFoundError")
  /\ snd (@scale_acc decimal Demo.readers Demo.second_unreadable)
     = @files_of decimal Demo.readers Demo.second_unreadable 0
  /\ opened (snd (@scale_acc decimal Demo.readers Demo.second_unreadable))
     = ["out/AvgSA-site_0-poe-2/GMR_time_scaled_acc_1_1.txt";
        "out/AvgSA-site_0-poe-2/GMR_time_scaled_acc_1_2.txt"].
Proof. repeat split; vm_compute; reflexivity. Qed.

(** X13. A record whose [source] is neither [NGA-West2] nor [ESM] raises
    nothing and reads nothing: its turn of the loop opens the two files of
    the record and writes no line in them, whatever the other columns
    hold. So a run that ends well has left, between the files of the
    records before it and those of the records after it, two empty
    files. (Opening a file is taken to succeed, as everywhere here.) *)
Theorem unknown_source_gives_empty_files `{AccReaders}
    (a : scale_args F NgaId) (i : nat) (src : string) :
  sa_source a !! i = Some src -> src <> "NGA-West2" -> src <> "ESM" ->
  (i < Z.to_nat (sa_n_gm a))%nat ->
  scale_record a i
  = (Ok tt, [FOpen (out_name a i "1"); FOpen (out_name a i "2")])
  /\ (is_ok (fst (scale_acc a)) = true ->
      snd (scale_acc a)
      = flat_map (files_of a) (seq 0 i)
        ++ [FOpen (out_name a i "1"); FOpen (out_name a i "2")]
        ++ flat_map (files_of a) (seq (S i) (Z.to_nat (sa_n_gm a) - S i))).
Proof.
  intros Hsrc Hnga Hesm Hi.
  pose proof (unknown_source_record a i src Hsrc Hnga Hesm) as Hrec.
  split; [exact Hrec|]. unfold scale_acc.
  destruct (scale_loop a (seq 0 (Z.to_nat (sa_n_gm a)))) as [[u|e] evs] eqn:Hl;
    [|discriminate].
  intros _. simpl. apply scale_loop_ok in Hl as [-> _].
  rewrite (seq_split_at i _ Hi), flat_map_app. simpl. do 2 f_equal.
  by apply scale_record_ok in Hrec as [<- _].
Qed.

Lemma unknown_source_gives_empty_files_witness :
  @scale_record decimal Demo.readers Demo.unknown_sources 1
  = (Ok tt,
     [FOpen (@out_name decimal Demo.readers Demo.unknown_sources 1 "1");
      FOpen (@out_name decimal Demo.readers Demo.unknown_sources 1 "2")]).
Proof.
  apply (@unknown_source_gives_empty_files decimal Demo.readers
           Demo.unknown_sources 1 "esm").
  - reflexivity.
  - discriminate.
  - discriminate.
  - vm_compute. lia.
Defined.

Lemma unknown_sources_files :
  @scale_acc decimal Demo.readers Demo.unknown_sources
  = (Ok tt,
     [FOpen "out/AvgSA-site_0-poe-2/GMR_time_scaled_acc_1_1.txt";
      FOpen "out/AvgSA-site_0-poe-2/GMR_time_scaled_acc_1_2.txt";
      FOpen "out/AvgSA-site_0-poe-2/GMR_time_scaled_acc_2_1.txt";
      FOpen "out/AvgSA-site_0-poe-2/GMR_time_scaled_acc_2_2.txt"]).
Proof. vm_compute. reflexivity. Qed.

(** X14. [scale_acc] opens no file twice: the paths it opens are, in
    order, [<output_folder>/<name>/GMR_time_scaled_acc_<i+1>_1.txt] and
    [..._2.txt] for the records [i = 0, 1, ...] it gets to, and these
    paths are pairwise distinct. A run that ends well has opened the
    [2 * n_gm] files of all the records. *)
Theorem scale_acc_opens_each_file_once `{AccReaders} (a : scale_args F NgaId) :
  opened (snd (scale_acc a)) `prefix_of` file_names a (Z.to_nat (sa_n_gm a))
  /\ NoDup (file_names a (Z.to_nat (sa_n_gm a)))
  /\ length (file_names a (Z.to_nat (sa_n_gm a)))
     = (2 * Z.to_nat (sa_n_gm a))%nat
  /\ NoDup (opened (snd (scale_acc a)))
  /\ (is_ok (fst (scale_acc a)) = true ->
      opened (snd (scale_acc a)) = file_names a (Z.to_nat (sa_n_gm a))).
Proof.
  destruct (scale_loop_opened a (seq 0 (Z.to_nat (sa_n_gm a)))) as [Hp He].
  pose proof (file_names_NoDup a (Z.to_nat (sa_n_gm a))) as Hnd.
  split; [exact Hp|]. split; [exact Hnd|]. split.
  - unfold file_names.
    rewrite (flat_map_length_const _ _ 2) by done. rewrite length_seq. lia.
  - split; [|exact He].
    destruct Hp as [rest Hp]. unfold file_names in Hnd. unfold scale_acc.
    rewrite Hp in Hnd. by apply NoDup_app in Hnd as [Hnd _].
Qed.

Lemma scale_acc_opens_each_file_once_witness :
  opened (snd (@scale_acc decimal Demo.readers Demo.scale_example))
  = @file_names decimal Demo.readers Demo.scale_example
      (Z.to_nat (sa_n_gm Demo.scale_example)).
Proof.
  apply (@scale_acc_opens_each_file_once decimal Demo.readers
           Demo.scale_example).
  vm_compute. reflexivity.
Defined.

(** ** When [scale_acc] ends well *)

Section ScaleAccEnds.
Context `{AccReaders}.

Lemma write_rows_ok_iff path time acc sf i n : forall k,
  is_ok (fst (write_rows path time acc sf i (seq k n))) = true
  <-> n = 0%nat
      \/ ((k + n <= length time)%nat /\ (k + n <= length acc)%nat
          /\ (i < length sf)%nat).
Proof.
  intros k. split.
  - revert k. induction n as [|n IH]; intros k; [by left|]. simpl.
    destruct (index time k) as [t|] eqn:Ht; simpl; [|discriminate].
    destruct (index acc k) as [x|] eqn:Hx; simpl; [|discriminate].
    destruct (index sf i) as [s|] eqn:Hs; simpl; [|discriminate].
    apply index_ok, lookup_lt_Some in Ht, Hx, Hs.
    specialize (IH (S k)).
    destruct (write_rows path time acc sf i (seq (S k) n)) as [r evs].
    simpl in *. intros Hr. right. destruct (IH Hr) as [->|(? & ? & ?)]; lia.
  - intros [->|(Ht & Hx & Hs)]; [done|]. by apply write_rows_succeeds.
Qed.

Lemma write_file_ok_iff path time acc sf npts i :
  is_ok (fst (write_file path time acc sf npts i)) = true
  <-> writable time acc sf npts i.
Proof.
  unfold write_file, writable.
  rewrite <- (write_rows_ok_iff path time acc sf i (Z.to_nat npts) 0).
  by destruct (write_rows path time acc sf i (seq 0 (Z.to_nat npts))).
Qed.

Lemma scale_record_ok_iff a i :
  is_ok (fst (scale_record a i)) = true <-> scalable a i.
Proof.
  unfold scale_record, scalable.
  destruct (read_record a i) as [dat|e].
  - pose proof (write_file_ok_iff (out_name a i "1") (time1 dat)
                  (inp_acc1 dat) (sa_sf a) (npts1 dat) i) as H1.
    pose proof (write_file_ok_iff (out_name a i "2") (time2 dat)
                  (inp_acc2 dat) (sa_sf a) (npts2 dat) i) as H2.
    destruct (write_file (out_name a i "1") _ _ _ _ _) as [[u1|e1] evs1];
      destruct (write_file (out_name a i "2") _ _ _ _ _) as [r2 evs2];
      simpl in *; split.
    + intros Hr. exists dat. split; [done|]. split; [by apply H1 | by apply H2].
    + intros (dat' & [= <-] & _ & Hw). by apply H2.
    + discriminate.
    + intros (dat' & [= <-] & Hw & _). by apply H1.
  - split; [discriminate | by intros (dat & [=] & _)].
Qed.

Lemma scale_loop_ok_iff a is_ :
  is_ok (fst (scale_loop a is_)) = true <-> Forall (scalable a) is_.
Proof.
  induction is_ as [|i is_ IH]; simpl; [done|].
  rewrite Forall_cons, <- IH, <- scale_record_ok_iff.
  destruct (scale_record a i) as [[u|e] evs]; simpl.
  - destruct (scale_loop a is_) as [r evs']. simpl. tauto.
  - split; [discriminate | by intros [? _]].
Qed.
End ScaleAccEnds.

(** X16. [scale_acc] ends without an exception exactly when each of the
    records [0 .. n_gm - 1] can be read and, for each of its two files,
    either there is no point to write or the time and acceleration series
    have as many entries as the number of points says and [sf] has an
    entry for the record. So a record without points needs no scale
    factor, and a series shorter than its number of points is an
    exception, not a shorter file. (Opening and writing a file are taken
    to succeed: the exceptions are those of the lookups and of the
    readers.) *)
Theorem scale_acc_ends_well_exactly_when `{AccReaders}
    (a : scale_args F NgaId) :
  is_ok (fst (scale_acc a)) = true
  <-> Forall (scalable a) (seq 0 (Z.to_nat (sa_n_gm a))).
Proof. unfold scale_acc. apply scale_loop_ok_iff. Qed.

Lemma scale_acc_ends_well_exactly_when_witness :
  Forall (@scalable decimal Demo.readers Demo.scale_example)
    (seq 0 (Z.to_nat (sa_n_gm Demo.scale_example))).
Proof.
  apply (proj1 (@scale_acc_ends_well_exactly_when decimal Demo.readers
                  Demo.scale_example)).
  vm_compute. reflexivity.
Defined.

Lemma no_scale_factor_files :
  @scale_acc decimal Demo.readers Demo.no_scale_factor
  = (Err IndexError,
     [FOpen "out/AvgSA-site_0-poe-2/GMR_time_scaled_acc_1_1.txt"]).
Proof. vm_compute. reflexivity. Qed.

(** ** [scaling_module] *)

Section ScalingLoops.
Context `{ScalingCollaborators}.

Abbreviation sstate := (Files * list (sevent F NgaId))%type.
Abbreviation sbody := (sstate -> result unit * sstate).

Lemma sfor_ext {A} (xs : list A) (f g : A -> sbody) s :
  (forall x s', f x s' = g x s') -> sfor xs f s = sfor xs g s.
Proof.
  intros Hfg. revert s. induction xs as [|x xs IH]; intros s; simpl; [done|].
  rewrite Hfg. destruct (g x s) as [[u|e] s1]; [apply IH | done].
Qed.

Lemma sfor_map {A B} (h : A -> B) (xs : list A) (body : B -> sbody) s :
  sfor (map h xs) body s = sfor xs (fun x => body (h x)) s.
Proof.
  revert s. induction xs as [|x xs IH]; intros s; simpl; [done|].
  destruct (body (h x) s) as [[u|e] s1]; [apply IH | done].
Qed.

Lemma sfor_app {A} (xs ys : list A) (body : A -> sbody) s :
  sfor (xs ++ ys) body s
  = match sfor xs body s with
    | (Ok _, s1) => sfor ys body s1
    | (Err e, s1) => (Err e, s1)
    end.
Proof.
  revert s. induction xs as [|x xs IH]; intros s; simpl; [done|].
  destruct (body x s) as [[u|e] s1]; [apply IH | done].
Qed.

(** Nested loops are one loop. *)
Lemma sfor_flat_map {A B} (h : A -> list B) (xs : list A) (body : B -> sbody) s :
  sfor (flat_map h xs) body s = sfor xs (fun x s' => sfor (h x) body s') s.
Proof.
  revert s. induction xs as [|x xs IH]; intros s; simpl; [done|].
  rewrite sfor_app.
  destruct (sfor (h x) body s) as [[u|e] s1]; [apply IH | done].
Qed.

(** A loop over the indices of a list, looking each member up, is a loop
    over the members: the lookups find them all. *)
Lemma sfor_indices {A} (l : list A) (body : A -> sbody) s :
  sfor (seq 0 (length l)) (fun i s' =>
    match index l i with
    | Err e => (Err e, s')
    | Ok x => body x s'
    end) s
  = sfor l body s.
Proof.
  revert s. induction l as [|x l IH]; intros s; simpl; [done|].
  destruct (body x s) as [[u|e] s1]; [|done].
  rewrite <- seq_shift, sfor_map. apply IH.
Qed.

(** No handler: a loop raises exactly when the turns before some turn
    end well and that turn raises, and it ends in the state that turn
    left. *)
Lemma sfor_err {A} (xs : list A) (body : A -> sbody) e s' : forall s,
  sfor xs body s = (Err e, s') ->
  exists k x s1,
    xs !! k = Some x
    /\ sfor (take k xs) body s = (Ok tt, s1)
    /\ body x s1 = (Err e, s').
Proof.
  induction xs as [|x xs IH]; intros s; simpl; [discriminate|].
  destruct (body x s) as [[u|e1] s1] eqn:Hx.
  - intros Hrest. apply IH in Hrest as (k & y & s2 & Hk & Hpre & Hy).
    exists (S k), y, s2. simpl. by rewrite Hx.
  - intros [= -> ->]. by exists 0%nat, x, s.
Qed.

Lemma sfor_raise {A} (xs : list A) (body : A -> sbody) e s' : forall k x s s1,
  xs !! k = Some x ->
  sfor (take k xs) body s = (Ok tt, s1) ->
  body x s1 = (Err e, s') ->
  sfor xs body s = (Err e, s').
Proof.
  induction xs as [|y xs IH]; intros k x s s1; [done|].
  destruct k as [|k]; simpl.
  - intros [= ->] [= ->] Hx. by rewrite Hx.
  - intros Hk. destruct (body y s) as [[u|e1] s2]; [|discriminate].
    by apply IH.
Qed.

Context {X : Type} (obs : sevent F NgaId -> list X).

Lemma emits_sfor {A} (xs : list A) (body : A -> sbody) (g : A -> list X) :
  (forall x, emits obs (body x) (g x)) ->
  emits obs (sfor xs body) (flat_map g xs).
Proof.
  intros Hbody. induction xs as [|x xs IH]; intros s; simpl.
  - exists []. by rewrite app_nil_r.
  - destruct (Hbody x s) as (new1 & Hlog1 & Hpre1 & Hok1).
    destruct (body x s) as [[u|e] s1]; simpl in *.
    + destruct (IH s1) as (new2 & Hlog2 & Hpre2 & Hok2).
      exists (new1 ++ new2). rewrite Hlog2, Hlog1, <- app_assoc.
      split; [done|]. rewrite flat_map_app, (Hok1 eq_refl).
      split; [by apply prefix_app | intros Hr; by rewrite Hok2].
    + exists new1. split; [done|]. split; [by apply prefix_app_r | done].
Qed.
End ScalingLoops.

Section ScalingCase.
Context `{ScalingCollaborators}.
Variables (output_folder : string) (n_gm : Z).
Variables (path_nga_folder path_esm_folder : string).

Lemma scale_call_fields sm name a :
  scale_call sm output_folder n_gm path_nga_folder path_esm_folder name = Ok a ->
  sa_name a = name /\ sa_output_folder a = output_folder
  /\ sa_n_gm a = n_gm /\ sa_path_nga a = path_nga_folder
  /\ sa_path_esm a = path_esm_folder
  /\ recID_NGA sm = Some (sa_nga a) /\ source sm = Some (sa_source a)
  /\ event_id_esm sm = Some (sa_event a)
  /\ station_code_esm sm = Some (sa_station a)
  /\ scale_factor sm = Some (sa_sf a).
Proof.
  unfold scale_call, getattr.
  destruct (recID_NGA sm), (source sm), (event_id_esm sm),
    (station_code_esm sm), (scale_factor sm); simpl; try discriminate.
  intros [= <-]. simpl. done.
Qed.

(** A Case reads its summary, then calls [scale_acc]; it ends well only
    when it has done both. *)
Lemma scaling_case_calls name :
  emits obs_call
    (scaling_case output_folder n_gm path_nga_folder path_esm_folder name)
    (case_calls output_folder n_gm path_nga_folder path_esm_folder name).
Proof.
  intros s. unfold scaling_case, case_calls.
  destruct (read_csv _ (fst s)) as [[sm|e] files1]; simpl.
  - destruct (scale_call sm _ _ _ _ _) as [a|e] eqn:Ha; simpl.
    + destruct (lib_scale_acc a files1) as [r2 files2]. simpl.
      exists [SRead (summary_path output_folder name); SScale a].
      rewrite <- app_assoc. split; [done|]. simpl.
      apply scale_call_fields in Ha as (-> & -> & -> & -> & -> & _). done.
    + exists [SRead (summary_path output_folder name)].
      split; [done|]. simpl. split; [by apply prefix_cons, prefix_nil | done].
  - exists [SRead (summary_path output_folder name)].
    split; [done|]. simpl. split; [by apply prefix_cons, prefix_nil | done].
Qed.

(** The three loops are one loop over the names of the Cases. *)
Lemma scaling_module_flat sites poes ims s :
  scaling_module sites poes ims output_folder n_gm path_nga_folder
    path_esm_folder s
  = sfor (case_names sites poes ims)
      (scaling_case output_folder n_gm path_nga_folder path_esm_folder) s.
Proof.
  unfold scaling_module, case_names, product3.
  rewrite sfor_indices, sfor_map, sfor_flat_map.
  apply sfor_ext. intros site s1.
  rewrite sfor_indices, sfor_flat_map.
  apply sfor_ext. intros poe s2.
  by rewrite sfor_indices, sfor_map.
Qed.
End ScalingCase.

(** X15. [scaling_module] is one loop over the Cases, in the order of its
    three loops (sites outermost, then levels, then measures), the name of
    a Case being [measure-site_<site>-poe-<level>]: the lookups between
    two Cases always find their entry. Each Case first reads
    [<output_folder>/<name>/<name>_summary_selection.txt] and then calls
    [scale_acc] with that [name] and [output_folder] and with the [n_gm]
    and accelerogram folders of [scaling_module]. There is no handler:
    the run ends with an exception exactly when the Cases before some
    Case end well and that Case raises it, and it ends in the state that
    Case left, so that what has been read and called by then is an
    initial part of the calls of a complete run. *)
Theorem scaling_module_takes_each_case `{ScalingCollaborators}
    (sites poes : list Z) (ims : list string) (output_folder : string)
    (n_gm : Z) (path_nga_folder path_esm_folder : string) (files : Files) :
  scaling_module sites poes ims output_folder n_gm path_nga_folder
    path_esm_folder (files, [])
  = sfor (case_names sites poes ims)
      (scaling_case output_folder n_gm path_nga_folder path_esm_folder)
      (files, [])
  /\ (forall e s',
        scaling_module sites poes ims output_folder n_gm path_nga_folder
          path_esm_folder (files, []) = (Err e, s')
        <-> exists k name s1,
              case_names sites poes ims !! k = Some name
              /\ sfor (take k (case_names sites poes ims))
                    (scaling_case output_folder n_gm path_nga_folder
                       path_esm_folder) (files, [])
                 = (Ok tt, s1)
              /\ scaling_case output_folder n_gm path_nga_folder
                   path_esm_folder name s1
                 = (Err e, s'))
  /\ flat_map obs_call
       (snd (snd (scaling_module sites poes ims output_folder n_gm
                    path_nga_folder path_esm_folder (files, []))))
       `prefix_of` flat_map (case_calls output_folder n_gm path_nga_folder
                               path_esm_folder)
                     (case_names sites poes ims)
  /\ (is_ok (fst (scaling_module sites poes ims output_folder n_gm
                    path_nga_folder path_esm_folder (files, []))) = true ->
      flat_map obs_call
        (snd (snd (scaling_module sites poes ims output_folder n_gm
                     path_nga_folder path_esm_folder (files, []))))
      = flat_map (case_calls output_folder n_gm path_nga_folder
                    path_esm_folder)
          (case_names sites poes ims)).
Proof.
  rewrite !scaling_module_flat. split; [done|]. split.
  - intros e s'. split.
    + apply sfor_err.
    + intros (k & name & s1 & Hk & Hpre & Hcase). by eapply sfor_raise.
  - destruct (emits_sfor obs_call (case_names sites poes ims) _ _
                (scaling_case_calls output_folder n_gm path_nga_folder
                   path_esm_folder) (files, []))
      as (new & Hlog & Hpre & Hok).
    simpl in Hlog. rewrite Hlog. by split.
Qed.

(** Two sites, two levels and two measures, every Case with its summary:
    eight Cases, each read and then scaled. *)
Lemma scaling_module_takes_each_case_witness :
  flat_map obs_call
    (snd (snd (@scaling_module decimal Demo.readers Demo.scaling_everywhere
                 [0; 1] [2; 3] ["AvgSA"; "PGA"] "out" 2 "/rec/NGA2records"
                 "/rec/ESM" (tt, []))))
  = flat_map (case_calls "out" 2 "/rec/NGA2records" "/rec/ESM")
      (case_names [0; 1] [2; 3] ["AvgSA"; "PGA"]).
Proof.
  apply (@scaling_module_takes_each_case decimal Demo.readers
           Demo.scaling_everywhere [0; 1] [2; 3] ["AvgSA"; "PGA"] "out" 2
           "/rec/NGA2records" "/rec/ESM" tt).
  vm_compute. reflexivity.
Defined.

Lemma scaling_order_of_the_cases :
  case_names [0; 1] [2; 3] ["AvgSA"; "PGA"]
  = ["AvgSA-site_0-poe-2"; "PGA-site_0-poe-2";
     "AvgSA-site_0-poe-3"; "PGA-site_0-poe-3";
     "AvgSA-site_1-poe-2"; "PGA-site_1-poe-2";
     "AvgSA-site_1-poe-3"; "PGA-site_1-poe-3"]
  /\ firstn 4
       (flat_map obs_call
          (snd (snd (@scaling_module decimal Demo.readers
                       Demo.scaling_everywhere
                       [0; 1] [2; 3] ["AvgSA"; "PGA"] "out" 2
                       "/rec/NGA2records" "/rec/ESM" (tt, [])))))
     = [inl "out/AvgSA-site_0-poe-2/AvgSA-site_0-poe-2_summary_selection.txt";
        inr ("AvgSA-site_0-poe-2", "out", 2, "/rec/NGA2records", "/rec/ESM");
        inl "out/PGA-site_0-poe-2/PGA-site_0-poe-2_summary_selection.txt";
        inr ("PGA-site_0-poe-2", "out", 2, "/rec/NGA2records", "/rec/ESM")].
Proof. split; vm_compute; reflexivity. Qed.

(** The summary of the second site is missing: the run ends there, the
    first Case read and scaled, the second read only. *)
Lemma scaling_of_the_example :
  fst (@scaling_module decimal Demo.readers Demo.scaling_collaborators
         [0; 1] [2] ["AvgSA"] "out" 2 "/rec/NGA2records" "/rec/ESM" (tt, []))
  = Err (Raised "FileNotFoundError")
  /\ flat_map obs_call
       (snd (snd (@scaling_module decimal Demo.readers
                    Demo.scaling_collaborators
                    [0; 1] [2] ["AvgSA"] "out" 2 "/rec/NGA2records"
                    "/rec/ESM" (tt, []))))
     = [inl "out/AvgSA-site_0-poe-2/AvgSA-site_0-poe-2_summary_selection.txt";
        inr ("AvgSA-site_0-poe-2", "out", 2, "/rec/NGA2records", "/rec/ESM");
        inl "out/AvgSA-site_1-poe-2/AvgSA-site_1-poe-2_summary_selection.txt"].
Proof. split; vm_compute; reflexivity. Qed.
